(** * generate_circuit: placement, collision resolution and export transform

    Shallow embedding of the placement engine of [collision_detector.py]
    (class [CollisionDetector]) and of the coordinate transform of
    [position_recorder.py] (class [PositionRecorder]).

    Numbers.  The Python code computes with [float].  Here a float is a
    real number ([R]): comparison is the order of the reals, [math.cos],
    [math.sin] and [math.sqrt] are the functions of the same name of the
    Reals library, and [math.radians a] is [a * PI / 180].  Rounding and
    the non-finite floats are outside the model.  A division whose
    divisor the code does not guard raises [ZeroDivisionError] at 0; the
    model tests the divisor and returns [None] there.

    Dictionaries.  [component_info] and [adjusted_positions] are Python
    dicts that are iterated and sorted, so they are association lists in
    insertion order; a key missing from a dict is a [KeyError], modelled by
    [None]. *)

From Stdlib Require Import Reals Lra Lia List String ZArith Bool Arith.
From Stdlib Require Import Permutation Sorted.
Import ListNotations.

Open Scope string_scope.
Open Scope list_scope.
Open Scope R_scope.

(** ** Floats as reals: the comparisons the code branches on *)

Definition Rltb (a b : R) : bool := if Rlt_dec a b then true else false.

Definition Reqb (a b : R) : bool := if Req_dec_T a b then true else false.

(** ** Python dicts in insertion order *)

Section Dict.
Context {V : Type}.

(** [d[k]]; [None] stands for [KeyError]. *)
Fixpoint dict_get (k : string) (d : list (string * V)) : option V :=
  match d with
  | [] => None
  | (k', v) :: d' => if String.eqb k' k then Some v else dict_get k d'
  end.

(** [d[k] = v]: an existing key keeps its place, a new key goes last. *)
Fixpoint dict_set (k : string) (v : V) (d : list (string * V))
  : list (string * V) :=
  match d with
  | [] => [(k, v)]
  | (k', v') :: d' =>
      if String.eqb k' k then (k', v) :: d' else (k', v') :: dict_set k v d'
  end.
End Dict.

(** ** Data *)

(** The four edges every box dict has. *)
Record BBox : Type := mkBBox {
  x_min : R; x_max : R; y_min : R; y_max : R
}.

(** A box dict that also carries the ['width'] and ['height'] keys. *)
Record SizedBBox : Type := mkSizedBBox {
  edges :> BBox; width : R; height : R
}.

(** An entry of [component_info] (the schemdraw element is left out). *)
Record Component : Type := mkComponent {
  c_position : R * R;
  c_type : string;
  c_label : string;
  c_width : R;
  c_height : R;
  c_connected_pins : list Z
}.

(** An entry of [adjusted_positions]. *)
Record Placed : Type := mkPlaced {
  p_position : R * R;
  p_type : string;
  p_label : string;
  p_width : R;
  p_height : R;
  p_connected_pins : list Z;
  p_bbox : SizedBBox
}.

(** [chip_info] as [get_chip_info] builds it. *)
Record ChipInfo : Type := mkChipInfo {
  chip_model : string;
  chip_position : R * R;
  chip_bbox : SizedBBox
}.

(** [get_chip_info]: a chip of the given size, centred at the origin. *)
Definition get_chip_info (model : string) (chip_width chip_height : R)
  : ChipInfo :=
  mkChipInfo model (0, 0)
    (mkSizedBBox
       (mkBBox (- chip_width / 2) (chip_width / 2)
               (- chip_height / 2) (chip_height / 2))
       chip_width chip_height).

Module CollisionDetector.

(** *** Overlap predicate *)

Definition _check_bbox_collision (bbox1 bbox2 : BBox) (margin : R) : bool :=
  negb (Rltb (x_max bbox1 + margin) (x_min bbox2)
        || Rltb (x_max bbox2 + margin) (x_min bbox1)
        || Rltb (y_max bbox1 + margin) (y_min bbox2)
        || Rltb (y_max bbox2 + margin) (y_min bbox1)).

Definition chip_bbox_with_margin (chip : ChipInfo) (margin : R) : BBox :=
  mkBBox (x_min (chip_bbox chip) - margin) (x_max (chip_bbox chip) + margin)
         (y_min (chip_bbox chip) - margin) (y_max (chip_bbox chip) + margin).

Definition _check_collision_with_chip (chip : ChipInfo) (bbox : BBox)
    (margin : R) : bool :=
  _check_bbox_collision bbox (chip_bbox_with_margin chip margin) 0.

Definition _create_bbox_from_position (x y width height : R) : SizedBBox :=
  mkSizedBBox
    (mkBBox (x - width / 2) (x + width / 2)
            (y - height / 2) (y + height / 2))
    width height.


(** *** Pin table and ideal position *)

(** The table of the 555 chip; [pin_configs.get(pin_number, ('right', 0.0))]. *)
Definition _get_pin_position_on_chip (pin_number : Z) : string * R :=
  match pin_number with
  | 1%Z => ("bot", 0.0)
  | 2%Z => ("left", 0.5)
  | 3%Z => ("right", 0.0)
  | 4%Z => ("top", -0.5)
  | 5%Z => ("right", 1.0)
  | 6%Z => ("left", -0.5)
  | 7%Z => ("left", 1.0)
  | 8%Z => ("top", 0.5)
  | 9%Z => ("right", -1.0)
  | _ => ("right", 0.0)
  end.

(** Body of the loop over [connected_pins]: the running totals after one
    more pin. *)
Definition optimal_step (totals : R * R) (pin : Z) : R * R :=
  let '(total_x, total_y) := totals in
  let '(side, offset) := _get_pin_position_on_chip pin in
  let '(x, y) :=
    if String.eqb side "left" then (-3.0, offset * 1.5)
    else if String.eqb side "right" then (3.0, offset * 1.5)
    else if String.eqb side "top" then (offset * 1.5, 2.5)
    else if String.eqb side "bot" then (offset * 1.5, -2.5)
    else (2.0, 2.0) in
  (total_x + x, total_y + y).

Definition _calculate_optimal_position
    (component_info : list (string * Component)) (component_id : string)
  : option (R * R) :=
  match dict_get component_id component_info with
  | None => None
  | Some component =>
      let connected_pins := c_connected_pins component in
      match connected_pins with
      | [] => Some (2.0, 2.0)
      | _ :: _ =>
          let '(total_x, total_y) :=
            fold_left optimal_step connected_pins (0.0, 0.0) in
          Some (total_x / INR (List.length connected_pins),
                total_y / INR (List.length connected_pins))
      end
  end.

(** *** Search for a free position *)

Definition radians (degrees : R) : R := degrees * PI / 180.

Definition max_attempts : nat := 50.
Definition search_radius : R := 1.0.

(** The collision test of one attempt: the chip first, then every entry
    of [adjusted_positions] but the component's own, stopping at the first
    hit. *)
Definition has_collision (chip : ChipInfo)
    (adjusted_positions : list (string * Placed)) (component_id : string)
    (test_bbox : BBox) : bool :=
  if _check_collision_with_chip chip test_bbox 2.0 then true
  else
    existsb
      (fun entry : string * Placed =>
         let '(placed_comp_id, placed_info) := entry in
         if String.eqb placed_comp_id component_id then false
         else
           let placed_bbox :=
             _create_bbox_from_position
               (fst (p_position placed_info)) (snd (p_position placed_info))
               (p_width placed_info) (p_height placed_info) in
           _check_bbox_collision test_bbox placed_bbox 1.0)
      adjusted_positions.

(** Angle (whole degrees) and radius of the probe computed in attempt
    number [attempt]. *)
Definition probe_angle (attempt : nat) : nat :=
  if (attempt <? 8)%nat then (attempt * 45)%nat
  else ((attempt * 30) mod 360)%nat.

Definition probe_radius (attempt : nat) : R :=
  if (attempt <? 8)%nat then search_radius
  else search_radius * (1 + (INR attempt - 8) * 0.5).

(** How the [for attempt in range(max_attempts)] loop ends. *)
Inductive search_result : Type :=
| Accepted (x y : R)   (* [return x, y] inside the loop *)
| Exhausted            (* the range ran out *)
| KeyError.            (* a dict lookup failed *)

(** The loop, [remaining] iterations before the range runs out.
    [original] is unbound ([None]) until attempt 0 binds it. *)
Fixpoint search_loop (component_info : list (string * Component))
    (chip : ChipInfo) (adjusted_positions : list (string * Placed))
    (component_id : string) (width height : R)
    (remaining attempt : nat) (x y : R) (original : option (R * R))
  : search_result :=
  match remaining with
  | O => Exhausted
  | S remaining' =>
      let test_bbox := _create_bbox_from_position x y width height in
      if has_collision chip adjusted_positions component_id test_bbox then
        let original :=
          if (attempt =? 0)%nat
          then _calculate_optimal_position component_info component_id
          else original in
        match original with
        | None => KeyError
        | Some (original_x, original_y) =>
            let angle := probe_angle attempt in
            let radius := probe_radius attempt in
            let x_offset := radius * cos (radians (INR angle)) in
            let y_offset := radius * sin (radians (INR angle)) in
            search_loop component_info chip adjusted_positions component_id
              width height remaining' (S attempt)
              (original_x + x_offset) (original_y + y_offset) original
        end
      else Accepted x y
  end.

(** The placement after the loop, away from the chip. *)
Definition far_placement (connected_pins : list Z) : R * R :=
  match connected_pins with
  | pin :: _ =>
      let '(side, offset) := _get_pin_position_on_chip pin in
      if String.eqb side "left" then (-10.0, offset * 3.0)
      else if String.eqb side "right" then (10.0, offset * 3.0)
      else if String.eqb side "top" then (offset * 3.0, 8.0)
      else if String.eqb side "bot" then (offset * 3.0, -8.0)
      else (10.0, 6.0)
  | [] => (10.0, 6.0)
  end.

Definition _adjust_position_to_avoid_collision
    (component_info : list (string * Component)) (chip : ChipInfo)
    (adjusted_positions : list (string * Placed)) (component_id : string)
  : option (R * R) :=
  match dict_get component_id component_info with
  | None => None
  | Some component =>
      match _calculate_optimal_position component_info component_id with
      | None => None
      | Some (x, y) =>
          match search_loop component_info chip adjusted_positions
                  component_id (c_width component) (c_height component)
                  max_attempts 0 x y None with
          | Accepted x y => Some (x, y)
          | KeyError => None
          | Exhausted => Some (far_placement (c_connected_pins component))
          end
      end
  end.

(** *** Processing order and the resolver *)

Definition pin_count (item : string * Component) : nat :=
  List.length (c_connected_pins (snd item)).

(** [sorted(items, key=pin count, reverse=True)]: the stable sort in
    descending order.  [item] goes before the first element whose key is
    not greater, so behind every element with a greater key and in front
    of the later elements with the same key. *)
Fixpoint insert_desc (item : string * Component)
    (sorted : list (string * Component)) : list (string * Component) :=
  match sorted with
  | [] => [item]
  | y :: rest =>
      if (pin_count y <=? pin_count item)%nat then item :: y :: rest
      else y :: insert_desc item rest
  end.

Definition sorted_components (component_info : list (string * Component))
  : list (string * Component) :=
  fold_right insert_desc [] component_info.

(** The loop over [sorted_components]; [adjusted_positions] is the state. *)
Fixpoint place_all (component_info : list (string * Component))
    (chip : ChipInfo) (todo : list (string * Component))
    (adjusted_positions : list (string * Placed))
  : option (list (string * Placed)) :=
  match todo with
  | [] => Some adjusted_positions
  | (comp_id, component) :: todo' =>
      match _adjust_position_to_avoid_collision component_info chip
              adjusted_positions comp_id with
      | None => None
      | Some (adjusted_x, adjusted_y) =>
          place_all component_info chip todo'
            (dict_set comp_id
               (mkPlaced (adjusted_x, adjusted_y)
                  (c_type component) (c_label component)
                  (c_width component) (c_height component)
                  (c_connected_pins component)
                  (_create_bbox_from_position adjusted_x adjusted_y
                     (c_width component) (c_height component)))
               adjusted_positions)
      end
  end.

Definition detect_and_resolve_collisions
    (component_info : list (string * Component)) (chip : ChipInfo)
    (adjusted_positions : list (string * Placed))
  : option (list (string * Placed)) :=
  place_all component_info chip (sorted_components component_info)
    adjusted_positions.

End CollisionDetector.

Module PositionRecorder.
Import CollisionDetector.

(** [min(l)] and [max(l)]; an empty list is a [ValueError] ([None]). *)
Definition py_min (l : list R) : option R :=
  match l with
  | [] => None
  | x :: l' => Some (fold_left Rmin l' x)
  end.

Definition py_max (l : list R) : option R :=
  match l with
  | [] => None
  | x :: l' => Some (fold_left Rmax l' x)
  end.

(** *** Diagnostics *)

Definition _check_if_optimal_position
    (component_info : list (string * Component)) (comp_id : string)
    (position_info : Placed) : option bool :=
  match _calculate_optimal_position component_info comp_id with
  | None => None
  | Some optimal_pos =>
      let actual_pos := p_position position_info in
      let distance :=
        sqrt ((fst optimal_pos - fst actual_pos) ^ 2 +
              (snd optimal_pos - snd actual_pos) ^ 2) in
      Some (Rltb distance 0.5)
  end.

(** *** Overall bounding box *)

Definition all_x_coords (chip : ChipInfo)
    (component_positions : list (string * Placed)) : list R :=
  map (fun pos => x_min (p_bbox (snd pos))) component_positions ++
  map (fun pos => x_max (p_bbox (snd pos))) component_positions ++
  [x_min (chip_bbox chip); x_max (chip_bbox chip)].

Definition all_y_coords (chip : ChipInfo)
    (component_positions : list (string * Placed)) : list R :=
  map (fun pos => y_min (p_bbox (snd pos))) component_positions ++
  map (fun pos => y_max (p_bbox (snd pos))) component_positions ++
  [y_min (chip_bbox chip); y_max (chip_bbox chip)].

(** ['overall_bounding_box'] of [_calculate_layout_statistics]. *)
Definition overall_bbox (chip : ChipInfo)
    (component_positions : list (string * Placed)) : option BBox :=
  match py_min (all_x_coords chip component_positions),
        py_max (all_x_coords chip component_positions),
        py_min (all_y_coords chip component_positions),
        py_max (all_y_coords chip component_positions) with
  | Some xmin, Some xmax, Some ymin, Some ymax =>
      Some (mkBBox xmin xmax ymin ymax)
  | _, _, _, _ => None
  end.

(** *** Statistics *)

(** [d[k] += 1]; the key must be there. *)
Definition dict_incr (k : string) (d : list (string * nat))
  : option (list (string * nat)) :=
  match dict_get k d with
  | None => None
  | Some n => Some (dict_set k (n + 1)%nat d)
  end.

(** The counters of [_analyze_component_distribution]. *)
Record Distribution : Type := mkDistribution {
  side_left : nat; side_right : nat; side_top : nat; side_bottom : nat;
  distance_near : nat; distance_medium : nat; distance_far : nat;
  by_type : list (string * nat)
}.

(** Body of the loop of [_analyze_component_distribution]. *)
Definition distribution_step (chip_center : R * R)
    (distribution : Distribution) (pos_info : Placed)
  : option Distribution :=
  let comp_pos := p_position pos_info in
  let comp_type := p_type pos_info in
  let go_left := Rltb (fst comp_pos) (fst chip_center) in
  let go_top := Rltb (snd chip_center) (snd comp_pos) in
  let distance :=
    sqrt ((fst comp_pos - fst chip_center) ^ 2 +
          (snd comp_pos - snd chip_center) ^ 2) in
  let is_near := Rltb distance 3 in
  let is_medium := Rltb distance 6 in
  let by_type0 :=
    match dict_get comp_type (by_type distribution) with
    | None => dict_set comp_type 0%nat (by_type distribution)
    | Some _ => by_type distribution
    end in
  match dict_incr comp_type by_type0 with
  | None => None
  | Some by_type1 =>
      Some (mkDistribution
              (if go_left then side_left distribution + 1
               else side_left distribution)%nat
              (if go_left then side_right distribution
               else side_right distribution + 1)%nat
              (if go_top then side_top distribution + 1
               else side_top distribution)%nat
              (if go_top then side_bottom distribution
               else side_bottom distribution + 1)%nat
              (if is_near then distance_near distribution + 1
               else distance_near distribution)%nat
              (if is_near then distance_medium distribution
               else if is_medium then distance_medium distribution + 1
               else distance_medium distribution)%nat
              (if is_near then distance_far distribution
               else if is_medium then distance_far distribution
               else distance_far distribution + 1)%nat
              by_type1)
  end.

Definition _analyze_component_distribution (chip : ChipInfo)
    (component_positions : list (string * Placed)) : option Distribution :=
  fold_left
    (fun acc entry =>
       match acc with
       | None => None
       | Some distribution =>
           distribution_step (chip_position chip) distribution (snd entry)
       end)
    component_positions
    (Some (mkDistribution 0 0 0 0 0 0 0 [])).

(** [optimal_count] of [_calculate_layout_statistics]: the number of
    entries whose flag is true. *)
Fixpoint optimal_count (component_info : list (string * Component))
    (component_positions : list (string * Placed)) : option nat :=
  match component_positions with
  | [] => Some 0%nat
  | (comp_id, pos_info) :: rest =>
      match _check_if_optimal_position component_info comp_id pos_info with
      | None => None
      | Some flag =>
          match optimal_count component_info rest with
          | None => None
          | Some n => Some (if flag then (1 + n)%nat else n)
          end
      end
  end.

(** [optimal_rate] of [_calculate_layout_statistics], before it is
    rounded for the report. *)
Definition optimal_rate (component_info : list (string * Component))
    (component_positions : list (string * Placed)) : option R :=
  match optimal_count component_info component_positions with
  | None => None
  | Some count =>
      Some match component_positions with
           | [] => 0
           | _ :: _ =>
               (INR count / INR (List.length component_positions)) * 100
           end
  end.

(** [total_layout_area] and [layout_density] of
    [_calculate_layout_statistics], before they are rounded. *)
Definition total_component_area
    (component_positions : list (string * Placed)) : R :=
  fold_left Rplus
    (map (fun pos => p_width (snd pos) * p_height (snd pos))
       component_positions) 0.

Definition total_layout_area (chip : ChipInfo)
    (component_positions : list (string * Placed)) : option R :=
  match overall_bbox chip component_positions with
  | None => None
  | Some overall_bbox =>
      Some ((x_max overall_bbox - x_min overall_bbox) *
            (y_max overall_bbox - y_min overall_bbox))
  end.

Definition layout_density (chip : ChipInfo)
    (component_positions : list (string * Placed)) : option R :=
  match total_layout_area chip component_positions with
  | None => None
  | Some area =>
      Some (if Rltb 0 area
            then (total_component_area component_positions / area) * 100
            else 0)
  end.

(** *** The layout JSON *)

(** The keys of [original_data['chip']] that [_create_chip_layout_info]
    reads without a default; a key that is not in the JSON object is
    [None].  (['chip'] itself, ['components'] and the ['id'] of every
    component were read when the reader was built, so these lookups of
    the recorder do not fail.) *)
Record OriginalChip : Type := mkOriginalChip {
  oc_model : option string;
  oc_pin_count : option Z
}.

(** The chip entry of the layout JSON (['package'], ['schemdraw_params']
    and ['pin_definitions'], read with a default and copied, are left
    out). *)
Record ChipLayout : Type := mkChipLayout {
  cl_model : string;
  cl_pin_count : Z;
  cl_position : R * R;
  cl_layout_size : R * R;
  cl_bounding_box : BBox
}.

(** [None] is the [KeyError] of a chip object without ['model'] or
    without ['pin_count']. *)
Definition _create_chip_layout_info (original_chip : OriginalChip)
    (chip_info : ChipInfo) : option ChipLayout :=
  match oc_model original_chip with
  | None => None
  | Some model =>
      match oc_pin_count original_chip with
      | None => None
      | Some pin_count =>
          Some (mkChipLayout model pin_count (chip_position chip_info)
                  (width (chip_bbox chip_info), height (chip_bbox chip_info))
                  (edges (chip_bbox chip_info)))
      end
  end.

(** A component entry of the layout JSON (['value'] and
    ['schemdraw_params'], read with a default and copied, and the rounded
    ['distance_from_optimal'], whose lookups are those of the flag, are
    left out). *)
Record ComponentLayout : Type := mkComponentLayout {
  col_id : string;
  col_type : string;
  col_label : string;
  col_position : R * R;
  col_layout_size : R * R;
  col_bounding_box : BBox;
  col_connected_pins : list Z;
  col_optimal_position_achieved : bool
}.

(** [None] is the [KeyError] of [_check_if_optimal_position] for an id
    that is not in [component_info]. *)
Fixpoint _create_components_layout_info
    (component_info : list (string * Component))
    (component_positions : list (string * Placed))
  : option (list ComponentLayout) :=
  match component_positions with
  | [] => Some []
  | (comp_id, position_info) :: rest =>
      match _check_if_optimal_position component_info comp_id position_info
      with
      | None => None
      | Some achieved =>
          match _create_components_layout_info component_info rest with
          | None => None
          | Some components_layout =>
              Some (mkComponentLayout comp_id (p_type position_info)
                      (p_label position_info) (p_position position_info)
                      (p_width position_info, p_height position_info)
                      (edges (p_bbox position_info))
                      (p_connected_pins position_info) achieved
                    :: components_layout)
          end
      end
  end.

(** The statistics of the layout JSON (the rounded numbers of the report
    are left out; [total_layout_area], [layout_density] and
    [optimal_rate] are what is rounded). *)
Record LayoutStatistics : Type := mkLayoutStatistics {
  total_components : nat;
  overall_bounding_box : BBox;
  component_distribution : Distribution
}.

(** [None] is an exception of one of the steps: the [ValueError] of
    [min] or [max], the [KeyError] of [_check_if_optimal_position], or a
    failure of the distribution. *)
Definition _calculate_layout_statistics
    (component_info : list (string * Component)) (chip : ChipInfo)
    (component_positions : list (string * Placed))
  : option LayoutStatistics :=
  match overall_bbox chip component_positions with
  | None => None
  | Some overall_bbox =>
      match optimal_count component_info component_positions with
      | None => None
      | Some _ =>
          match _analyze_component_distribution chip component_positions with
          | None => None
          | Some distribution =>
              Some (mkLayoutStatistics (List.length component_positions)
                      overall_bbox distribution)
          end
      end
  end.

(** The layout JSON (['metadata'] and ['original_netlist'], which cannot
    fail, are left out). *)
Record LayoutData : Type := mkLayoutData {
  ld_chip : ChipLayout;
  ld_components : list ComponentLayout;
  ld_layout_statistics : LayoutStatistics
}.

Definition generate_layout_json (original_chip : OriginalChip)
    (component_info : list (string * Component)) (chip : ChipInfo)
    (component_positions : list (string * Placed)) : option LayoutData :=
  match _create_chip_layout_info original_chip chip with
  | None => None
  | Some chip_layout =>
      match _create_components_layout_info component_info
              component_positions with
      | None => None
      | Some components_layout =>
          match _calculate_layout_statistics component_info chip
                  component_positions with
          | None => None
          | Some statistics =>
              Some (mkLayoutData chip_layout components_layout statistics)
          end
      end
  end.

(** *** Canvas *)

(** [(canvas_width, canvas_height, canvas_origin_x, canvas_origin_y)].
    The canvas is read from the statistics of a freshly built layout
    JSON, so it is [None] when [generate_layout_json] raises. *)
Definition _calculate_canvas_size (original_chip : OriginalChip)
    (component_info : list (string * Component)) (chip : ChipInfo)
    (component_positions : list (string * Placed))
  : option (R * R * R * R) :=
  match generate_layout_json original_chip component_info chip
          component_positions with
  | None => None
  | Some layout_data =>
      let stats := ld_layout_statistics layout_data in
      let overall_bbox := overall_bounding_box stats in
      let margin := 2.0 in
      let canvas_width :=
        x_max overall_bbox - x_min overall_bbox + 2 * margin in
      let canvas_height :=
        y_max overall_bbox - y_min overall_bbox + 2 * margin in
      let canvas_origin_x := x_min overall_bbox - margin in
      let canvas_origin_y := y_max overall_bbox + margin in
      Some (canvas_width, canvas_height, canvas_origin_x, canvas_origin_y)
  end.

(** [None] is the [ZeroDivisionError] of a canvas of width or height
    0. *)
Definition _convert_to_yolo_format (x y width height
    canvas_width canvas_height canvas_origin_x canvas_origin_y : R)
  : option (R * R * R * R) :=
  let canvas_x := x - canvas_origin_x in
  let canvas_y := canvas_origin_y - y in
  if Reqb canvas_width 0 then None
  else
    let x_center_norm := canvas_x / canvas_width in
    if Reqb canvas_height 0 then None
    else
      let y_center_norm := canvas_y / canvas_height in
      let width_norm := width / canvas_width in
      let height_norm := height / canvas_height in
      let x_center_norm := Rmax 0 (Rmin 1 x_center_norm) in
      let y_center_norm := Rmax 0 (Rmin 1 y_center_norm) in
      let width_norm := Rmax 0 (Rmin 1 width_norm) in
      let height_norm := Rmax 0 (Rmin 1 height_norm) in
      Some (x_center_norm, y_center_norm, width_norm, height_norm).

(** The numbers of the chip's line of [save_yolo_annotations]. *)
Definition chip_annotation (original_chip : OriginalChip)
    (component_info : list (string * Component)) (chip : ChipInfo)
    (component_positions : list (string * Placed))
  : option (R * R * R * R) :=
  match _calculate_canvas_size original_chip component_info chip
          component_positions with
  | None => None
  | Some (canvas_width, canvas_height, canvas_origin_x, canvas_origin_y) =>
      let '(chip_x, chip_y) := chip_position chip in
      let chip_width := width (chip_bbox chip) in
      let chip_height := height (chip_bbox chip) in
      _convert_to_yolo_format chip_x chip_y chip_width chip_height
        canvas_width canvas_height canvas_origin_x canvas_origin_y
  end.

(** The numbers of one component's line of [save_yolo_annotations]. *)
Definition component_annotation (original_chip : OriginalChip)
    (component_info : list (string * Component)) (chip : ChipInfo)
    (component_positions : list (string * Placed)) (pos_info : Placed)
  : option (R * R * R * R) :=
  match _calculate_canvas_size original_chip component_info chip
          component_positions with
  | None => None
  | Some (canvas_width, canvas_height, canvas_origin_x, canvas_origin_y) =>
      let '(comp_x, comp_y) := p_position pos_info in
      let comp_width := p_width pos_info in
      let comp_height := p_height pos_info in
      _convert_to_yolo_format comp_x comp_y comp_width comp_height
        canvas_width canvas_height canvas_origin_x canvas_origin_y
  end.

(** *** Classes *)

(** Adds [s] to an ascending list without repetition. *)
Fixpoint insert_sorted_unique (s : string) (l : list string) : list string :=
  match l with
  | [] => [s]
  | x :: rest =>
      if String.eqb s x then l
      else if String.ltb s x then s :: l
      else x :: insert_sorted_unique s rest
  end.

(** [sorted(component_types)]: the set of the types of the layout and of
    ['chip'], as the ascending list without repetition. *)
Definition sorted_types (component_positions : list (string * Placed))
  : list string :=
  fold_left (fun acc t => insert_sorted_unique t acc)
    (map (fun pos => p_type (snd pos)) component_positions ++ ["chip"]) [].

(** [(class_mapping, sorted_types)]. *)
Definition _get_component_class_mapping
    (component_positions : list (string * Placed))
  : list (string * nat) * list string :=
  let sorted_types := sorted_types component_positions in
  (combine sorted_types (seq 0 (List.length sorted_types)), sorted_types).

(** [class_counts] of [_get_yolo_statistics]. *)
Definition class_counts (component_positions : list (string * Placed))
  : option (list (string * nat)) :=
  let class_mapping := fst (_get_component_class_mapping component_positions) in
  let class_counts := map (fun item => (fst item, 0%nat)) class_mapping in
  let class_counts := dict_set "chip" 1%nat class_counts in
  fold_left
    (fun acc entry =>
       match acc with
       | None => None
       | Some counts => dict_incr (p_type (snd entry)) counts
       end)
    component_positions (Some class_counts).

(** ["total_objects"] of [_get_yolo_statistics]. *)
Definition total_objects (component_positions : list (string * Placed))
  : option nat :=
  option_map (fun counts => list_sum (map snd counts))
    (class_counts component_positions).

End PositionRecorder.


Module JsonReaderAndDrawer.

(** *** Connections *)

(** A dict keyed by pin numbers, in insertion order. *)
Fixpoint zdict_get {V : Type} (k : Z) (d : list (Z * V)) : option V :=
  match d with
  | [] => None
  | (k', v) :: d' => if Z.eqb k' k then Some v else zdict_get k d'
  end.

Fixpoint zdict_set {V : Type} (k : Z) (v : V) (d : list (Z * V))
  : list (Z * V) :=
  match d with
  | [] => [(k, v)]
  | (k', v') :: d' =>
      if Z.eqb k' k then (k', v) :: d' else (k', v') :: zdict_set k v d'
  end.

(** The fields of a connection object of a net that the code reads; a
    field that is not in the JSON object is [None]. *)
Record Connection : Type := mkConnection {
  conn_type : option string;
  conn_pin_number : option Z;
  conn_component_id : option string;
  conn_component : option string
}.

(** Truth value of [conn.get(...)]: [None] and the empty string are
    false. *)
Definition truthy (s : option string) : bool :=
  match s with
  | Some s => negb (String.eqb s "")
  | None => false
  end.

(** The loop over the connections of one net: the chip pins and the
    component ids, in order.  [None] is the [KeyError] of a connection
    without ['type'], or of a chip pin without ['pin_number']. *)
Fixpoint collect_connections (connections : list Connection)
    (chip_pins : list Z) (components : list string)
  : option (list Z * list string) :=
  match connections with
  | [] => Some (chip_pins, components)
  | conn :: rest =>
      match conn_type conn with
      | None => None
      | Some type =>
          if String.eqb type "chip_pin" then
            match conn_pin_number conn with
            | None => None
            | Some pin_number =>
                collect_connections rest (chip_pins ++ [pin_number]) components
            end
          else if String.eqb type "component_port" then
            let comp_id :=
              if truthy (conn_component_id conn) then conn_component_id conn
              else conn_component conn in
            match comp_id with
            | Some id =>
                if truthy comp_id
                then collect_connections rest chip_pins (components ++ [id])
                else collect_connections rest chip_pins components
            | None => collect_connections rest chip_pins components
            end
          else collect_connections rest chip_pins components
      end
  end.

(** [for pin in chip_pins: ... pin_to_components[pin].extend(components)];
    the key is there when its list is read, the guard before has put
    it. *)
Definition extend_pin_to_components (pin_to_components : list (Z * list string))
    (chip_pins : list Z) (components : list string)
  : list (Z * list string) :=
  fold_left
    (fun d pin =>
       let d :=
         match zdict_get pin d with
         | None => zdict_set pin [] d
         | Some _ => d
         end in
       match zdict_get pin d with
       | Some l => zdict_set pin (l ++ components) d
       | None => d
       end)
    chip_pins pin_to_components.

(** [for comp_id in components: ...
    component_to_pins[comp_id].extend(chip_pins)]. *)
Definition extend_component_to_pins
    (component_to_pins : list (string * list Z))
    (components : list string) (chip_pins : list Z)
  : list (string * list Z) :=
  fold_left
    (fun d comp_id =>
       let d :=
         match dict_get comp_id d with
         | None => dict_set comp_id [] d
         | Some _ => d
         end in
       match dict_get comp_id d with
       | Some l => dict_set comp_id (l ++ chip_pins) d
       | None => d
       end)
    components component_to_pins.

(** [(pin_to_components, component_to_pins)] after the loop over
    [self.nets.items()]. *)
Fixpoint analyze_nets (nets : list (string * list Connection))
    (pin_to_components : list (Z * list string))
    (component_to_pins : list (string * list Z))
  : option (list (Z * list string) * list (string * list Z)) :=
  match nets with
  | [] => Some (pin_to_components, component_to_pins)
  | (net_id, connections) :: rest =>
      match collect_connections connections [] [] with
      | None => None
      | Some (chip_pins, components) =>
          analyze_nets rest
            (extend_pin_to_components pin_to_components chip_pins components)
            (extend_component_to_pins component_to_pins components chip_pins)
      end
  end.

Definition _analyze_connections (nets : list (string * list Connection))
  : option (list (Z * list string) * list (string * list Z)) :=
  analyze_nets nets [] [].

(** [self.component_to_pins.get(comp_id, [])], the ['connected_pins'] of
    [get_component_info]. *)
Definition connected_pins (component_to_pins : list (string * list Z))
    (comp_id : string) : list Z :=
  match dict_get comp_id component_to_pins with
  | Some pins => pins
  | None => []
  end.

(** *** Initial position *)

Definition _get_pin_position_on_chip (pin_number : Z) : string * R :=
  match pin_number with
  | 1%Z => ("bot", 0.0)
  | 2%Z => ("left", 0.5)
  | 3%Z => ("right", 0.0)
  | 4%Z => ("top", -0.5)
  | 5%Z => ("right", 1.0)
  | 6%Z => ("left", -0.5)
  | 7%Z => ("left", 1.0)
  | 8%Z => ("top", 0.5)
  | 9%Z => ("right", -1.0)
  | _ => ("right", 0.0)
  end.

Definition initial_step (totals : R * R) (pin : Z) : R * R :=
  let '(total_x, total_y) := totals in
  let '(side, offset) := _get_pin_position_on_chip pin in
  let '(x, y) :=
    if String.eqb side "left" then (-3.0, offset * 1.5)
    else if String.eqb side "right" then (3.0, offset * 1.5)
    else if String.eqb side "top" then (offset * 1.5, 2.5)
    else if String.eqb side "bot" then (offset * 1.5, -2.5)
    else (2.0, 2.0) in
  (total_x + x, total_y + y).

Definition _calculate_initial_component_position
    (component_to_pins : list (string * list Z)) (component_id : string)
  : R * R :=
  match dict_get component_id component_to_pins with
  | None => (2.0, 2.0)
  | Some connected_pins =>
      match connected_pins with
      | [] => (2.0, 2.0)
      | _ :: _ =>
          let '(total_x, total_y) :=
            fold_left initial_step connected_pins (0.0, 0.0) in
          (total_x / INR (List.length connected_pins),
           total_y / INR (List.length connected_pins))
      end
  end.

(** *** Sizes *)

(** A ['layout_size'] or ['size'] object: its ['width'] and ['height'],
    [None] for a key that is not there. *)
Record SizeDict : Type := mkSizeDict {
  sd_width : option R;
  sd_height : option R
}.

(** The fields of a component object of the JSON file that the size
    functions read. *)
Record JsonComponent : Type := mkJsonComponent {
  jc_layout_size : option SizeDict;
  jc_size : option SizeDict;
  jc_schemdraw_params : option (list (string * R))
}.

(** [params.get(name, default)]. *)
Definition param (params : list (string * R)) (name : string) (default : R)
  : R :=
  match dict_get name params with
  | Some v => v
  | None => default
  end.

Definition _calculate_size_from_schemdraw_params (comp_type : string)
    (params : list (string * R)) : R * R :=
  if String.eqb comp_type "resistor" then
    let length := param params "length" 3.0 in
    let loops := param params "loops" 6 in
    (length + 0.5, 0.6 + loops / 10.0)
  else if String.eqb comp_type "capacitor" then
    let cap_width := param params "width" 1.5 in
    let cap_length := param params "length" 0.8 in
    (cap_width + 0.5, cap_length + 1.0)
  else if String.eqb comp_type "LED" then
    let led_width := param params "width" 1.0 in
    let led_length := param params "length" 1.0 in
    (led_width + 0.5, led_length + 0.5)
  else if String.eqb comp_type "voltage_source" then
    let radius := param params "radius" 1.0 in
    (radius * 2 + 0.4, radius * 2 + 0.4)
  else if String.eqb comp_type "ground" then (1.0, 1.0)
  else (2.0, 1.0).

(** Reads both keys of a size object; [None] is the [KeyError] that the
    [except] of [_get_component_basic_size] catches. *)
Definition read_size (size_info : SizeDict) : option (R * R) :=
  match sd_width size_info, sd_height size_info with
  | Some width, Some height => Some (width, height)
  | _, _ => None
  end.

(** [component] is [self.components.get(comp_id)], [None] when the id is
    empty or unknown. *)
Definition _get_component_basic_size (comp_type : string)
    (component : option JsonComponent) : R * R :=
  let default_size :=
    if String.eqb comp_type "resistor" then (3.0, 0.8)
    else if String.eqb comp_type "capacitor" then (2.0, 1.5)
    else if String.eqb comp_type "LED" then (1.5, 1.5)
    else if String.eqb comp_type "ground" then (1.2, 1.2)
    else if String.eqb comp_type "voltage_source" then (2.5, 2.5)
    else (2.0, 1.0) in
  match component with
  | None => default_size
  | Some component =>
      match jc_layout_size component with
      | Some size_info =>
          match read_size size_info with
          | Some size => size
          | None => (2.0, 1.0)
          end
      | None =>
          match jc_size component with
          | Some size_info =>
              match read_size size_info with
              | Some size => size
              | None => (2.0, 1.0)
              end
          | None =>
              match jc_schemdraw_params component with
              | Some params =>
                  _calculate_size_from_schemdraw_params comp_type params
              | None => default_size
              end
          end
      end
  end.

(** The fields of the chip object of the JSON file that [get_chip_info]
    reads. *)
Record JsonChip : Type := mkJsonChip {
  chip_layout_size : option SizeDict;
  chip_size : option SizeDict;
  chip_pin_count : option Z;
  chip_schemdraw_params : option (list (string * R))
}.

(** [(chip_width, chip_height)] of [get_chip_info]; [None] is a
    [KeyError]. *)
Definition chip_dimensions (chip : JsonChip) : option (R * R) :=
  match chip_layout_size chip with
  | Some size_info => read_size size_info
  | None =>
      match chip_size chip with
      | Some size_info => read_size size_info
      | None =>
          match chip_pin_count chip with
          | None => None
          | Some pin_count =>
              let chip_params :=
                match chip_schemdraw_params chip with
                | Some params => params
                | None => []
                end in
              let pad := param chip_params "pad" 1.5 in
              let leadlen := param chip_params "leadlen" 1 in
              let '(core_width, core_height) :=
                if (pin_count <=? 8)%Z then (2.5, 2.0)
                else if (pin_count <=? 14)%Z then (2.5, 3.0)
                else if (pin_count <=? 16)%Z then (2.5, 3.5)
                else (2.5, 2.0 + (IZR pin_count - 8) * 0.2) in
              Some (core_width + 2 * (leadlen + pad), core_height + 2 * pad)
          end
      end
  end.

End JsonReaderAndDrawer.
Import CollisionDetector PositionRecorder.

(** * Specification-level definitions *)

(** ** The ideal-position estimator, as specified *)

(** The four sides of the chip, and the name the pin table gives each. *)
Inductive Side : Type := Left | Right | Top | Bottom.

Definition side_name (s : Side) : string :=
  match s with
  | Left => "left" | Right => "right" | Top => "top" | Bottom => "bot"
  end.

Definition side_of_name (name : string) : option Side :=
  if String.eqb name "left" then Some Left
  else if String.eqb name "right" then Some Right
  else if String.eqb name "top" then Some Top
  else if String.eqb name "bot" then Some Bottom
  else None.

(** The anchor point of a pin on side [s] at offset [offset], as the
    specification gives it. *)
Definition side_anchor (s : Side) (offset : R) : R * R :=
  match s with
  | Left => (-3.0, offset * 1.5)
  | Right => (3.0, offset * 1.5)
  | Top => (offset * 1.5, 2.5)
  | Bottom => (offset * 1.5, -2.5)
  end.

(** The anchor point of a pin number: its table entry, mapped. *)
Definition pin_anchor (pin : Z) : R * R :=
  let '(name, offset) := _get_pin_position_on_chip pin in
  match side_of_name name with
  | Some s => side_anchor s offset
  | None => (2.0, 2.0)
  end.

Definition Rsum (l : list R) : R := fold_right Rplus 0 l.

(** Arithmetic mean of a list of points. *)
Definition mean_point (pts : list (R * R)) : R * R :=
  (Rsum (map fst pts) / INR (List.length pts),
   Rsum (map snd pts) / INR (List.length pts)).

(** The estimator, in the words of the specification. *)
Definition estimate (connected_pins : list Z) : R * R :=
  match connected_pins with
  | [] => (2.0, 2.0)
  | _ :: _ => mean_point (map pin_anchor connected_pins)
  end.


(** ** The processing order, as specified *)

(** Descending order of the pin counts. *)
Definition pins_ge (a b : string * Component) : Prop :=
  (pin_count b <= pin_count a)%nat.

(** The components with exactly [k] connected pins, in list order. *)
Definition with_pin_count (k : nat) (l : list (string * Component))
  : list (string * Component) :=
  filter (fun item => (pin_count item =? k)%nat) l.

(** ** The search, as specified *)

(** The offset computed in attempt number [attempt]: one of eight compass
    directions at radius 1.0, then a widening spiral. *)
Definition spec_offset (attempt : nat) : R * R :=
  if (attempt <? 8)%nat then
    (1.0 * cos (radians (INR attempt * 45)),
     1.0 * sin (radians (INR attempt * 45)))
  else
    let radius := 1.0 * (1 + 0.5 * (INR attempt - 8)) in
    let angle := INR ((attempt * 30) mod 360) in
    (radius * cos (radians angle), radius * sin (radians angle)).

(** The [k]-th position the search tests: the ideal position, then the
    ideal position moved by the offset of the attempt before. *)
Definition candidate (ideal : R * R) (k : nat) : R * R :=
  match k with
  | O => ideal
  | S attempt =>
      (fst ideal + fst (spec_offset attempt),
       snd ideal + snd (spec_offset attempt))
  end.

(** A component of the given size collides at [pos]. *)
Definition blocked (chip : ChipInfo)
    (adjusted_positions : list (string * Placed)) (component_id : string)
    (width height : R) (pos : R * R) : bool :=
  has_collision chip adjusted_positions component_id
    (_create_bbox_from_position (fst pos) (snd pos) width height).

(** The first index in [a, a+n) that is not blocked. *)
Fixpoint first_free (blocked_at : nat -> bool) (a n : nat) : option nat :=
  match n with
  | O => None
  | S n' => if blocked_at a then first_free blocked_at (S a) n' else Some a
  end.

(** ** Example inputs *)

(** A chip of the size [get_chip_info] derives for eight pins with the
    default parameters, and a small one. *)
Definition chip555 : ChipInfo := get_chip_info "NE555" 7.5 5.0.
Definition chip_small : ChipInfo := get_chip_info "U1" 1.0 1.0.

(** One resistor on pin 3 (right side, offset 0). *)
Definition R1_on_pin3 : Component :=
  mkComponent (3.0, 0.0) "resistor" "R1" 1.2 0.5 [3%Z].

Definition one_resistor : list (string * Component) :=
  [("R1", R1_on_pin3)].

(** One component, without connected pins, whose JSON [layout_size] is
    50 by 50. *)
Definition big_block : Component :=
  mkComponent (2.0, 2.0) "other" "X1" 50.0 50.0 [].

Definition one_big_block : list (string * Component) :=
  [("X1", big_block)].

(** ** The resolved layout, as specified *)

(** The box of a placed component keeps clear of the chip (margin 2.0),
    and of another placed component (margin 1.0). *)
Definition no_chip_overlap (chip : ChipInfo) (p : Placed) : Prop :=
  _check_bbox_collision (p_bbox p) (chip_bbox chip) 2.0 = false.

Definition no_pair_overlap (p q : Placed) : Prop :=
  _check_bbox_collision (p_bbox p) (p_bbox q) 1.0 = false.

(** The pairwise no-overlap invariant of a layout. *)
Definition no_overlap_invariant (chip : ChipInfo)
    (layout : list (string * Placed)) : Prop :=
  (forall (id : string) (p : Placed),
      In (id, p) layout -> no_chip_overlap chip p) /\
  (forall (i j : nat) (id1 id2 : string) (p1 p2 : Placed),
      i <> j ->
      nth_error layout i = Some (id1, p1) ->
      nth_error layout j = Some (id2, p2) ->
      no_pair_overlap p1 p2).

(** The search of [component_id], run against the state
    [adjusted_positions], accepts one of its candidates (so the far
    placement is not used). *)
Definition placed_by_search (component_info : list (string * Component))
    (chip : ChipInfo) (adjusted_positions : list (string * Placed))
    (component_id : string) : Prop :=
  exists (component : Component) (ideal : R * R) (x y : R),
    dict_get component_id component_info = Some component /\
    _calculate_optimal_position component_info component_id = Some ideal /\
    search_loop component_info chip adjusted_positions component_id
      (c_width component) (c_height component) max_attempts 0
      (fst ideal) (snd ideal) None = Accepted x y.

(** The entry [place_all] stores for [component] at position [(x, y)]. *)
Definition placed_entry (component : Component) (x y : R) : Placed :=
  mkPlaced (x, y) (c_type component) (c_label component)
    (c_width component) (c_height component) (c_connected_pins component)
    (_create_bbox_from_position x y (c_width component) (c_height component)).

(** Some width or height of the input is not positive. *)
Definition invalid_geometry (component_info : list (string * Component))
    (chip : ChipInfo) : Prop :=
  (exists (id : string) (c : Component),
      In (id, c) component_info /\ (c_width c <= 0 \/ c_height c <= 0)) \/
  width (chip_bbox chip) <= 0 \/ height (chip_bbox chip) <= 0.

(** One capacitor on pins 2 and 7 (both on the left side, offsets 0.5
    and 1.0). *)
Definition C1_on_pins_2_7 : Component :=
  mkComponent (-3.0, 1.125) "capacitor" "C1" 2.0 1.5 [2%Z; 7%Z].

Definition one_capacitor : list (string * Component) :=
  [("C1", C1_on_pins_2_7)].

(** The resistor and an LED on pin 5 (right side, offset 1.0), and the
    layout the resolver gives them on the small chip. *)
Definition D1_on_pin5 : Component :=
  mkComponent (3.0, 1.5) "LED" "D1" 0.8 0.4 [5%Z].

Definition two_parts : list (string * Component) :=
  [("R1", R1_on_pin3); ("D1", D1_on_pin5)].

Definition two_parts_layout : list (string * Placed) :=
  [("R1", placed_entry R1_on_pin3 4 0); ("D1", placed_entry D1_on_pin5 3 1.5)].

(** The layout of the 50-by-50 block on the 555 chip. *)
Definition big_block_layout : list (string * Placed) :=
  [("X1", placed_entry big_block 10.0 6.0)].

(** A part whose JSON [layout_size] is 0 by -1, on pin 5. *)
Definition flat_part : Component :=
  mkComponent (3.0, 1.5) "other" "Z1" 0.0 (-1.0) [5%Z].

Definition one_flat_part : list (string * Component) :=
  [("Z1", flat_part)].

(** ** Diagnostics, as specified *)

(** Euclidean distance of two points. *)
Definition distance (p q : R * R) : R :=
  sqrt ((fst p - fst q) * (fst p - fst q) + (snd p - snd q) * (snd p - snd q)).

(** ** The export transform, as specified *)

(** [v] clamped to the interval [0, 1]. *)
Definition clamp01 (v : R) : R :=
  if Rlt_dec v 0 then 0 else if Rlt_dec 1 v then 1 else v.

(** The boxes of all entities: the chip and every placed component. *)
Definition entity_boxes (chip : ChipInfo)
    (component_positions : list (string * Placed)) : list BBox :=
  edges (chip_bbox chip) ::
  map (fun pos => edges (p_bbox (snd pos))) component_positions.

(** [U] is the union bounding box of [boxes]: it contains both x edges and
    both y edges of every box, and each of its edges is an edge of some
    box. *)
Definition is_union_bbox (U : BBox) (boxes : list BBox) : Prop :=
  (forall b : BBox,
      In b boxes ->
      x_min U <= x_min b <= x_max U /\ x_min U <= x_max b <= x_max U /\
      y_min U <= y_min b <= y_max U /\ y_min U <= y_max b <= y_max U) /\
  (exists b : BBox, In b boxes /\ (x_min U = x_min b \/ x_min U = x_max b)) /\
  (exists b : BBox, In b boxes /\ (x_max U = x_min b \/ x_max U = x_max b)) /\
  (exists b : BBox, In b boxes /\ (y_min U = y_min b \/ y_min U = y_max b)) /\
  (exists b : BBox, In b boxes /\ (y_max U = y_min b \/ y_max U = y_max b)).

(** The normalized annotation of an entity at [(x, y)] of size
    [width] by [height] in the canvas frame. *)
Definition normalize (x y width height : R)
    (canvas_w canvas_h origin_x origin_y : R) : R * R * R * R :=
  (clamp01 ((x - origin_x) / canvas_w),
   clamp01 ((origin_y - y) / canvas_h),
   clamp01 (width / canvas_w),
   clamp01 (height / canvas_h)).

(** The resistor, the capacitor and the LED, in this input order. *)
Definition three_parts : list (string * Component) :=
  [("R1", R1_on_pin3); ("C1", C1_on_pins_2_7); ("D1", D1_on_pin5)].

(** A capacitor on the same pins as [C1_on_pins_2_7], listed the other way
    round. *)
Definition C2_on_pins_7_2 : Component :=
  mkComponent (-3.0, 1.125) "capacitor" "C2" 2.0 1.5 [7%Z; 2%Z].

(** ** Statistics, as specified *)

(** The number of entries of a layout with type [t]. *)
Definition count_type (t : string)
    (component_positions : list (string * Placed)) : nat :=
  count_occ string_dec (map (fun pos => p_type (snd pos)) component_positions) t.

(** The entry of a counting dict for a key counted [n] times: no entry
    for a key that was never counted. *)
Definition counted (n : nat) : option nat :=
  if (n =? 0)%nat then None else Some n.

(** The order of [sorted] on strings: lexicographic by character code. *)
Definition string_lt (a b : string) : Prop := String.ltb a b = true.

(** ** Example JSON objects *)

(** A resistor object with a schemdraw length of 2 and nothing else. *)
Definition json_resistor : JsonReaderAndDrawer.JsonComponent :=
  JsonReaderAndDrawer.mkJsonComponent None None (Some [("length", 2)]).

(** A chip object with 14 pins and no parameters. *)
Definition json_chip_14 : JsonReaderAndDrawer.JsonChip :=
  JsonReaderAndDrawer.mkJsonChip None None (Some 14%Z) None.

Definition json_chip_20 : JsonReaderAndDrawer.JsonChip :=
  JsonReaderAndDrawer.mkJsonChip None None (Some 20%Z) None.

(** ** Connectivity, as specified *)

Module Connectivity.
Import JsonReaderAndDrawer.

(** [conn] is the chip pin [p]. *)
Definition is_chip_pin (conn : Connection) (p : Z) : Prop :=
  conn_type conn = Some "chip_pin" /\ conn_pin_number conn = Some p.

(** [conn] is a port of the component [c]: its ['component_id'], or else
    its ['component'], is the non-empty string [c]. *)
Definition is_component_port (conn : Connection) (c : string) : Prop :=
  conn_type conn = Some "component_port" /\
  c <> "" /\
  (conn_component_id conn = Some c \/
   (truthy (conn_component_id conn) = false /\ conn_component conn = Some c)).

(** Some net has both the chip pin [p] and a port of the component [c]. *)
Definition shares_net (nets : list (string * list Connection)) (p : Z)
    (c : string) : Prop :=
  exists (net_id : string) (connections : list Connection)
         (conn1 conn2 : Connection),
    In (net_id, connections) nets /\
    In conn1 connections /\ In conn2 connections /\
    is_chip_pin conn1 p /\ is_component_port conn2 c.

(** The components listed for pin [p]; none when the pin has no entry. *)
Definition pin_components (pin_to_components : list (Z * list string))
    (p : Z) : list string :=
  match zdict_get p pin_to_components with
  | Some l => l
  | None => []
  end.

End Connectivity.

(** A net with pin 2, pin 7 and the capacitor C1. *)
Definition example_nets
  : list (string * list JsonReaderAndDrawer.Connection) :=
  [("N1", [JsonReaderAndDrawer.mkConnection (Some "chip_pin") (Some 2%Z) None None;
           JsonReaderAndDrawer.mkConnection (Some "component_port") None
             (Some "C1") None;
           JsonReaderAndDrawer.mkConnection (Some "chip_pin") (Some 7%Z) None None])].

(** ** An input that is not in processing order *)

(** A small capacitor on pins 2 and 7 (left side, offsets 0.5 and 1.0). *)
Definition C3_small : Component :=
  mkComponent (-3.0, 1.125) "capacitor" "C3" 0.8 0.4 [2%Z; 7%Z].

(** The LED, the capacitor and the resistor, in this input order, and the
    layout the resolver gives them on the small chip. *)
Definition unsorted_parts : list (string * Component) :=
  [("D1", D1_on_pin5); ("C3", C3_small); ("R1", R1_on_pin3)].

Definition unsorted_parts_layout : list (string * Placed) :=
  [("C3", placed_entry C3_small (-3) 1.125);
   ("D1", placed_entry D1_on_pin5 3 1.5);
   ("R1", placed_entry R1_on_pin3 4 0)].

(** ** The canvas, as specified *)

(** Every id of the layout is an id of [component_info]. *)
Definition ids_known (component_info : list (string * Component))
    (component_positions : list (string * Placed)) : Prop :=
  forall entry : string * Placed,
    In entry component_positions ->
    In (fst entry) (map fst component_info).

(** The canvas of the union box [U]: width, height, and the x and y of
    its top-left corner. *)
Definition canvas_of (U : BBox) : R * R * R * R :=
  (x_max U - x_min U + 2 * 2.0, y_max U - y_min U + 2 * 2.0,
   x_min U - 2.0, y_max U + 2.0).

(** A chip object with ['model'] and ['pin_count'], and one without
    ['pin_count']. *)
Definition chip_U1 : OriginalChip := mkOriginalChip (Some "U1") (Some 8%Z).

Definition chip_without_pin_count : OriginalChip :=
  mkOriginalChip (Some "U1") None.

(** * Properties *)

(** ** Comparisons *)

Lemma Rltb_true (a b : R) : Rltb a b = true <-> a < b.
Proof. unfold Rltb; destruct (Rlt_dec a b); split; intros; easy. Qed.

Lemma Rltb_false (a b : R) : Rltb a b = false <-> ~ a < b.
Proof. unfold Rltb; destruct (Rlt_dec a b); split; intros; easy. Qed.

Lemma Rltb_reflect (a b : R) : reflect (a < b) (Rltb a b).
Proof. unfold Rltb; destruct (Rlt_dec a b); constructor; assumption. Qed.

(** ** The overlap predicate *)

Lemma check_bbox_collision_iff (A B : BBox) (m : R) :
  _check_bbox_collision A B m = true <->
  ~ (x_max A + m < x_min B \/ x_max B + m < x_min A \/
     y_max A + m < y_min B \/ y_max B + m < y_min A).
Proof.
  unfold _check_bbox_collision.
  rewrite negb_true_iff, !orb_false_iff, !Rltb_false. tauto.
Qed.

Lemma check_bbox_collision_false_iff (A B : BBox) (m : R) :
  _check_bbox_collision A B m = false <->
  (x_max A + m < x_min B \/ x_max B + m < x_min A \/
   y_max A + m < y_min B \/ y_max B + m < y_min A).
Proof.
  unfold _check_bbox_collision.
  rewrite negb_false_iff, !orb_true_iff, !Rltb_true. tauto.
Qed.

Lemma bbox_collision_comm (b1 b2 : BBox) (m : R) :
  _check_bbox_collision b1 b2 m = _check_bbox_collision b2 b1 m.
Proof.
  unfold _check_bbox_collision. f_equal.
  destruct (Rltb (x_max b1 + m) (x_min b2)), (Rltb (x_max b2 + m) (x_min b1)),
    (Rltb (y_max b1 + m) (y_min b2)), (Rltb (y_max b2 + m) (y_min b1));
    reflexivity.
Qed.

(** C10.  The overlap predicate is symmetric in its two boxes, for every
    margin: [_check_bbox_collision b1 b2 m] and
    [_check_bbox_collision b2 b1 m] are the same boolean; a candidate
    tested against a placed box is thereby tested in both directions. *)
Theorem check_bbox_collision_sym (b1 b2 : BBox) (m : R) :
  _check_bbox_collision b1 b2 m = _check_bbox_collision b2 b1 m /\
  (_check_bbox_collision b1 b2 m = false <->
   _check_bbox_collision b2 b1 m = false).
Proof.
  split; [apply bbox_collision_comm |].
  now rewrite (bbox_collision_comm b1 b2 m).
Qed.

(** The chip test, which widens the chip box by [margin] and then tests
    with margin 0, is the predicate applied to the chip box itself with
    that margin. *)
Lemma check_collision_with_chip_margin (chip : ChipInfo) (bbox : BBox)
    (margin : R) :
  _check_collision_with_chip chip bbox margin =
  _check_bbox_collision bbox (chip_bbox chip) margin.
Proof.
  apply eq_iff_eq_true. unfold _check_collision_with_chip.
  rewrite !check_bbox_collision_iff. unfold chip_bbox_with_margin; simpl.
  split; intros H C; apply H; clear H;
    destruct C as [C | [C | [C | C]]]; lra.
Qed.


(** ** The ideal-position estimator *)

Lemma pin_table_sides (pin : Z) :
  exists s : Side,
    _get_pin_position_on_chip pin =
    (side_name s, snd (_get_pin_position_on_chip pin)).
Proof.
  unfold _get_pin_position_on_chip.
  repeat match goal with
         | |- context [match ?p with _ => _ end] => destruct p
         end;
    first [ now exists Left | now exists Right
          | now exists Top | now exists Bottom ].
Qed.

Lemma side_of_name_side_name (s : Side) : side_of_name (side_name s) = Some s.
Proof. destruct s; reflexivity. Qed.

Lemma optimal_step_anchor (total_x total_y : R) (pin : Z) :
  optimal_step (total_x, total_y) pin =
  (total_x + fst (pin_anchor pin), total_y + snd (pin_anchor pin)).
Proof.
  unfold optimal_step, pin_anchor.
  destruct (pin_table_sides pin) as [s ->].
  rewrite side_of_name_side_name. destruct s; reflexivity.
Qed.

Lemma fold_optimal_step (pins : list Z) (total_x total_y : R) :
  fold_left optimal_step pins (total_x, total_y) =
  (total_x + Rsum (map fst (map pin_anchor pins)),
   total_y + Rsum (map snd (map pin_anchor pins))).
Proof.
  revert total_x total_y.
  induction pins as [| pin pins IH]; intros total_x total_y.
  - simpl. f_equal; lra.
  - cbn [fold_left map]. rewrite optimal_step_anchor, IH.
    unfold Rsum; cbn [fold_right]. f_equal; lra.
Qed.

Lemma calculate_optimal_position_estimate
    (component_info : list (string * Component)) (component_id : string) :
  _calculate_optimal_position component_info component_id =
  option_map (fun component => estimate (c_connected_pins component))
    (dict_get component_id component_info).
Proof.
  unfold _calculate_optimal_position.
  destruct (dict_get component_id component_info) as [component |];
    [| reflexivity].
  simpl. destruct (c_connected_pins component) as [| pin pins] eqn:E;
    [reflexivity |].
  rewrite fold_optimal_step. unfold estimate, mean_point.
  rewrite !length_map. do 2 f_equal; lra.
Qed.

(** C5.  The estimator returns [(2.0, 2.0)] for a component without
    connected pins, and otherwise the arithmetic mean, over the connected
    pin numbers, of the pins' anchor points.  The anchor point of a pin is
    its [(side, offset)] entry of the pin table (a pin number outside the
    table reads [(right, 0.0)]) mapped by left -> [(-3.0, offset*1.5)],
    right -> [(3.0, offset*1.5)], top -> [(offset*1.5, 2.5)],
    bottom -> [(offset*1.5, -2.5)]. *)
Theorem optimal_position_is_mean_of_anchors :
  (forall (component_info : list (string * Component))
          (component_id : string) (component : Component),
      dict_get component_id component_info = Some component ->
      _calculate_optimal_position component_info component_id =
      Some (match c_connected_pins component with
            | [] => (2.0, 2.0)
            | pins =>
                (Rsum (map fst (map pin_anchor pins)) / INR (List.length pins),
                 Rsum (map snd (map pin_anchor pins)) / INR (List.length pins))
            end)) /\
  (forall pin : Z,
      exists (s : Side) (offset : R),
        _get_pin_position_on_chip pin = (side_name s, offset) /\
        pin_anchor pin =
        match s with
        | Left => (-3.0, offset * 1.5)
        | Right => (3.0, offset * 1.5)
        | Top => (offset * 1.5, 2.5)
        | Bottom => (offset * 1.5, -2.5)
        end) /\
  (forall pin : Z,
      (pin < 1 \/ 9 < pin)%Z ->
      _get_pin_position_on_chip pin = (side_name Right, 0.0)).
Proof.
  split; [| split].
  - intros ci cid component Hget.
    rewrite calculate_optimal_position_estimate, Hget. simpl.
    unfold estimate, mean_point.
    destruct (c_connected_pins component); [reflexivity |].
    now rewrite !length_map.
  - intros pin. destruct (pin_table_sides pin) as [s Hs].
    exists s, (snd (_get_pin_position_on_chip pin)). split; [exact Hs |].
    unfold pin_anchor. rewrite Hs, side_of_name_side_name.
    destruct s; reflexivity.
  - intros pin Hpin. unfold _get_pin_position_on_chip.
    repeat match goal with
           | |- context [match ?p with _ => _ end] => destruct p
           end; try reflexivity; lia.
Qed.

(** ** Processing order *)

Lemma insert_desc_perm (item : string * Component)
    (l : list (string * Component)) :
  Permutation (item :: l) (insert_desc item l).
Proof.
  induction l as [| y rest IH]; simpl; [reflexivity |].
  destruct (pin_count y <=? pin_count item)%nat; [reflexivity |].
  rewrite perm_swap. now apply perm_skip.
Qed.

Lemma sorted_components_perm (component_info : list (string * Component)) :
  Permutation component_info (sorted_components component_info).
Proof.
  unfold sorted_components.
  induction component_info as [| item l IH]; simpl; [constructor |].
  rewrite <- insert_desc_perm. now apply perm_skip.
Qed.

Lemma insert_desc_sorted (item : string * Component)
    (l : list (string * Component)) :
  StronglySorted pins_ge l -> StronglySorted pins_ge (insert_desc item l).
Proof.
  induction 1 as [| y rest Hs IH Hall]; simpl.
  - repeat constructor.
  - destruct (Nat.leb_spec (pin_count y) (pin_count item)) as [Hle | Hlt].
    + constructor; [now constructor |].
      constructor; [exact Hle |].
      eapply Forall_impl; [| exact Hall].
      intros z Hz. unfold pins_ge in *. lia.
    + constructor; [exact IH |].
      apply (Permutation_Forall (insert_desc_perm item rest)).
      constructor; [unfold pins_ge; lia | exact Hall].
Qed.

Lemma sorted_components_sorted (component_info : list (string * Component)) :
  StronglySorted pins_ge (sorted_components component_info).
Proof.
  unfold sorted_components.
  induction component_info as [| item l IH]; simpl;
    [constructor | now apply insert_desc_sorted].
Qed.

Lemma insert_desc_stable (k : nat) (item : string * Component)
    (l : list (string * Component)) :
  with_pin_count k (insert_desc item l) = with_pin_count k (item :: l).
Proof.
  unfold with_pin_count.
  induction l as [| y rest IH]; [reflexivity |].
  cbn [insert_desc].
  destruct (Nat.leb_spec (pin_count y) (pin_count item)) as [Hle | Hlt];
    [reflexivity |].
  cbn [filter] in *. rewrite IH.
  destruct (Nat.eqb_spec (pin_count y) k), (Nat.eqb_spec (pin_count item) k);
    try reflexivity; lia.
Qed.

Lemma sorted_components_stable (k : nat)
    (component_info : list (string * Component)) :
  with_pin_count k (sorted_components component_info) =
  with_pin_count k component_info.
Proof.
  unfold sorted_components.
  induction component_info as [| item l IH]; [reflexivity |].
  cbn [fold_right]. rewrite insert_desc_stable.
  unfold with_pin_count in *. cbn [filter]. now rewrite IH.
Qed.

(** There is only one stable descending arrangement: a list in descending
    order of the pin counts is determined by its sublists of equal pin
    count. *)
Lemma stable_descending_unique (l1 l2 : list (string * Component)) :
  StronglySorted pins_ge l1 -> StronglySorted pins_ge l2 ->
  (forall k : nat, with_pin_count k l1 = with_pin_count k l2) ->
  l1 = l2.
Proof.
  revert l2. induction l1 as [| x l1 IH]; intros [| y l2] Hs1 Hs2 Heq.
  - reflexivity.
  - specialize (Heq (pin_count y)). unfold with_pin_count in Heq.
    cbn [filter] in Heq. rewrite Nat.eqb_refl in Heq. discriminate.
  - specialize (Heq (pin_count x)). unfold with_pin_count in Heq.
    cbn [filter] in Heq. rewrite Nat.eqb_refl in Heq. discriminate.
  - apply StronglySorted_inv in Hs1. destruct Hs1 as [Hs1 Hall1].
    apply StronglySorted_inv in Hs2. destruct Hs2 as [Hs2 Hall2].
    assert (Hin : forall (a : string * Component)
                         (l l' : list (string * Component)),
               with_pin_count (pin_count a) (a :: l) =
               with_pin_count (pin_count a) l' -> In a l').
    { intros a l l' H. unfold with_pin_count in H. cbn [filter] in H.
      rewrite Nat.eqb_refl in H.
      assert (Ha : In a (filter (fun item => (pin_count item =? pin_count a)%nat) l'))
        by (rewrite <- H; now left).
      now apply filter_In in Ha. }
    assert (Hyx : (pin_count y <= pin_count x)%nat).
    { destruct (Hin y l2 (x :: l1) (eq_sym (Heq (pin_count y))))
        as [<- | Hy]; [lia |].
      rewrite Forall_forall in Hall1. exact (Hall1 y Hy). }
    assert (Hxy : (pin_count x <= pin_count y)%nat).
    { destruct (Hin x l1 (y :: l2) (Heq (pin_count x))) as [<- | Hx]; [lia |].
      rewrite Forall_forall in Hall2. exact (Hall2 x Hx). }
    assert (Hhead : x = y).
    { pose proof (Heq (pin_count x)) as H. unfold with_pin_count in H.
      cbn [filter] in H. rewrite Nat.eqb_refl in H.
      replace (pin_count y =? pin_count x)%nat with true in H
        by (symmetry; apply Nat.eqb_eq; lia).
      now injection H. }
    subst y. f_equal. apply IH; try assumption.
    intros k. specialize (Heq k). unfold with_pin_count in *.
    cbn [filter] in Heq.
    destruct (pin_count x =? k)%nat; [now injection Heq | exact Heq].
Qed.

(** ** The search *)

Lemma first_free_some (blocked_at : nat -> bool) (n a k : nat) :
  first_free blocked_at a n = Some k ->
  (a <= k < a + n)%nat /\ blocked_at k = false /\
  forall j : nat, (a <= j < k)%nat -> blocked_at j = true.
Proof.
  revert a. induction n as [| n IH]; intros a; simpl; [discriminate |].
  destruct (blocked_at a) eqn:Ha.
  - intros H. apply IH in H. destruct H as (Hk & Hfree & Hbefore).
    repeat split; try lia; [exact Hfree |].
    intros j Hj. destruct (Nat.eq_dec j a) as [-> | Hne]; [exact Ha |].
    apply Hbefore. lia.
  - intros [= <-]. repeat split; try lia; exact Ha.
Qed.

Lemma first_free_none (blocked_at : nat -> bool) (n a : nat) :
  first_free blocked_at a n = None ->
  forall j : nat, (a <= j < a + n)%nat -> blocked_at j = true.
Proof.
  revert a. induction n as [| n IH]; intros a; simpl; [intros _ j Hj; lia |].
  destruct (blocked_at a) eqn:Ha; [| discriminate].
  intros H j Hj. destruct (Nat.eq_dec j a) as [-> | Hne]; [exact Ha |].
  apply (IH (S a) H). lia.
Qed.

Lemma first_free_least (blocked_at : nat -> bool) (n k : nat) :
  (k < n)%nat ->
  (forall j : nat, (j < k)%nat -> blocked_at j = true) ->
  blocked_at k = false ->
  first_free blocked_at 0 n = Some k.
Proof.
  intros Hk Hbefore Hfree.
  destruct (first_free blocked_at 0 n) as [k' |] eqn:E.
  - apply first_free_some in E. destruct E as (Hk' & Hfree' & Hbefore').
    destruct (Nat.lt_trichotomy k' k) as [Hlt | [-> | Hgt]];
      [| reflexivity |].
    + rewrite (Hbefore k' Hlt) in Hfree'. discriminate.
    + rewrite Hbefore' in Hfree by lia. discriminate.
  - rewrite (first_free_none _ _ _ E k) in Hfree by lia. discriminate.
Qed.

Lemma first_free_all_blocked (blocked_at : nat -> bool) (n a : nat) :
  (forall j : nat, (a <= j < a + n)%nat -> blocked_at j = true) ->
  first_free blocked_at a n = None.
Proof.
  revert a. induction n as [| n IH]; intros a H; simpl; [reflexivity |].
  rewrite (H a) by lia. apply IH. intros j Hj. apply H. lia.
Qed.

(** The offset the loop computes is the specified one. *)
Lemma loop_offset_spec (attempt : nat) :
  (probe_radius attempt * cos (radians (INR (probe_angle attempt))),
   probe_radius attempt * sin (radians (INR (probe_angle attempt)))) =
  spec_offset attempt.
Proof.
  unfold probe_radius, probe_angle, spec_offset, search_radius.
  destruct (attempt <? 8)%nat.
  - rewrite mult_INR. replace (INR 45) with 45 by (simpl; lra). reflexivity.
  - cbv zeta. f_equal; f_equal; lra.
Qed.

Section Search.
Variable component_info : list (string * Component).
Variable chip : ChipInfo.
Variable adjusted_positions : list (string * Placed).
Variable component_id : string.
Variable w h : R.
Variable ideal : R * R.
Hypothesis Hideal :
  _calculate_optimal_position component_info component_id = Some ideal.

(** The loop, entered at attempt [a] with the [a]-th candidate, stops at
    the first candidate that is not blocked. *)
Lemma search_loop_first_free (n a : nat) (original : option (R * R)) :
  a = 0%nat \/ original = Some ideal ->
  search_loop component_info chip adjusted_positions component_id w h
    n a (fst (candidate ideal a)) (snd (candidate ideal a)) original =
  match first_free
          (fun k =>
             blocked chip adjusted_positions component_id w h
               (candidate ideal k)) a n with
  | Some k => Accepted (fst (candidate ideal k)) (snd (candidate ideal k))
  | None => Exhausted
  end.
Proof.
  revert a original. induction n as [| n IH]; intros a original Horig;
    [reflexivity |].
  cbn [search_loop first_free]. cbv beta.
  destruct (blocked chip adjusted_positions component_id w h
              (candidate ideal a)) eqn:Hblocked;
    unfold blocked in Hblocked; rewrite Hblocked; [| reflexivity].
  assert (Ho : (if (a =? 0)%nat
                then _calculate_optimal_position component_info component_id
                else original) = Some ideal).
  { destruct (Nat.eqb_spec a 0) as [_ | Hne]; [exact Hideal |].
    destruct Horig; [contradiction | assumption]. }
  rewrite Ho. destruct ideal as [ox oy] eqn:Ei.
  pose proof (loop_offset_spec a) as Hoff.
  apply (f_equal fst) in Hoff as Hx. apply (f_equal snd) in Hoff as Hy.
  simpl in Hx, Hy. rewrite Hx, Hy.
  rewrite <- Ei in *. 
  replace (ox + fst (spec_offset a)) with (fst (candidate ideal (S a)))
    by (rewrite Ei; reflexivity).
  replace (oy + snd (spec_offset a)) with (snd (candidate ideal (S a)))
    by (rewrite Ei; reflexivity).
  apply IH. now right.
Qed.
End Search.

(** What [_adjust_position_to_avoid_collision] returns for a component of
    [component_info]: the first candidate that is not blocked among the
    first [max_attempts], or else the far placement. *)
Lemma adjust_position_first_free
    (component_info : list (string * Component)) (chip : ChipInfo)
    (adjusted_positions : list (string * Placed)) (component_id : string)
    (component : Component) :
  dict_get component_id component_info = Some component ->
  _adjust_position_to_avoid_collision component_info chip adjusted_positions
    component_id =
  Some
    match first_free
            (fun k =>
               blocked chip adjusted_positions component_id
                 (c_width component) (c_height component)
                 (candidate (estimate (c_connected_pins component)) k))
            0 max_attempts with
    | Some k => candidate (estimate (c_connected_pins component)) k
    | None => far_placement (c_connected_pins component)
    end.
Proof.
  intros Hget. unfold _adjust_position_to_avoid_collision. rewrite Hget.
  pose proof (calculate_optimal_position_estimate component_info component_id)
    as Hideal.
  rewrite Hget in Hideal. simpl in Hideal. rewrite Hideal.
  pose proof (search_loop_first_free component_info chip adjusted_positions
                component_id (c_width component) (c_height component)
                (estimate (c_connected_pins component)) Hideal
                max_attempts 0 None (or_introl eq_refl)) as Hloop.
  cbn [candidate] in Hloop.
  destruct (estimate (c_connected_pins component)) as [x y] eqn:Ei.
  cbn [fst snd] in Hloop. rewrite Hloop.
  destruct (first_free _ 0 max_attempts) as [k |]; [| reflexivity].
  now destruct (candidate (x, y) k).
Qed.

(** C3.  For a component of [component_info], the search tests the
    candidates [candidate ideal 0], [candidate ideal 1], ... in this
    order, where [ideal] is the estimator's position and is candidate 0,
    and candidate [attempt+1] is [ideal] (never the previous candidate)
    moved by [spec_offset attempt]: radius 1.0 at [attempt*45] degrees for
    attempts 0-7, radius [1.0*(1+0.5*(attempt-8))] at [(attempt*30) mod 360]
    degrees from attempt 8 on.  The first candidate that does not collide,
    among the first 50, is returned at once; no candidate beyond the 50th
    is ever returned by the search. *)
Theorem search_accepts_first_free_candidate
    (component_info : list (string * Component)) (chip : ChipInfo)
    (adjusted_positions : list (string * Placed)) (component_id : string)
    (component : Component) :
  dict_get component_id component_info = Some component ->
  let ideal := estimate (c_connected_pins component) in
  let blocked_at := fun k : nat =>
    blocked chip adjusted_positions component_id
      (c_width component) (c_height component) (candidate ideal k) in
  _calculate_optimal_position component_info component_id = Some ideal /\
  candidate ideal 0 = ideal /\
  (forall attempt : nat,
      candidate ideal (S attempt) =
      if (attempt <? 8)%nat then
        (fst ideal + 1.0 * cos (radians (INR attempt * 45)),
         snd ideal + 1.0 * sin (radians (INR attempt * 45)))
      else
        (fst ideal + 1.0 * (1 + 0.5 * (INR attempt - 8))
                     * cos (radians (INR ((attempt * 30) mod 360))),
         snd ideal + 1.0 * (1 + 0.5 * (INR attempt - 8))
                     * sin (radians (INR ((attempt * 30) mod 360))))) /\
  (forall k : nat,
      (k < 50)%nat ->
      (forall j : nat, (j < k)%nat -> blocked_at j = true) ->
      blocked_at k = false ->
      _adjust_position_to_avoid_collision component_info chip
        adjusted_positions component_id = Some (candidate ideal k)) /\
  (exists p : R * R,
      _adjust_position_to_avoid_collision component_info chip
        adjusted_positions component_id = Some p /\
      ((exists k : nat,
           (k < 50)%nat /\ p = candidate ideal k /\ blocked_at k = false /\
           forall j : nat, (j < k)%nat -> blocked_at j = true) \/
       (forall j : nat, (j < 50)%nat -> blocked_at j = true))).
Proof.
  intros Hget ideal blocked_at.
  pose proof (adjust_position_first_free component_info chip
                adjusted_positions component_id component Hget) as Hadj.
  fold ideal in Hadj. fold blocked_at in Hadj.
  split; [| split; [reflexivity | split; [| split]]].
  - rewrite calculate_optimal_position_estimate, Hget. reflexivity.
  - intros attempt. cbn [candidate]. unfold spec_offset.
    destruct (attempt <? 8)%nat; reflexivity.
  - intros k Hk Hbefore Hfree. rewrite Hadj.
    now rewrite (first_free_least blocked_at max_attempts k Hk Hbefore Hfree).
  - eexists; split; [exact Hadj |].
    destruct (first_free blocked_at 0 max_attempts) as [k |] eqn:E.
    + left. apply first_free_some in E. destruct E as (Hk & Hfree & Hbefore).
      exists k. unfold max_attempts in Hk.
      repeat split; [lia | exact Hfree |].
      intros j Hj. apply Hbefore. lia.
    + right. intros j Hj. apply (first_free_none _ _ _ E).
      unfold max_attempts. lia.
Qed.

(** Decides the comparisons of a goal between concrete numbers. *)
Ltac decide_Rltb :=
  repeat match goal with
         | |- context [Rltb ?a ?b] =>
             destruct (Rltb_reflect a b); try (exfalso; lra)
         end;
  try reflexivity.

Lemma radians_0 : radians (INR 0 * 45) = 0.
Proof. unfold radians. simpl. lra. Qed.

Lemma estimate_R1_on_pin3 : estimate (c_connected_pins R1_on_pin3) = (3, 0).
Proof.
  unfold estimate, mean_point, pin_anchor. simpl. f_equal; lra.
Qed.

(** On the small chip the resistor collides at its ideal position
    [(3, 0)], is free one unit to the right, and is placed there. *)
Lemma search_accepts_first_free_candidate_witness :
  dict_get "R1" one_resistor = Some R1_on_pin3 /\
  _adjust_position_to_avoid_collision one_resistor chip_small [] "R1" =
  Some (4, 0).
Proof.
  split; [reflexivity |].
  pose proof (search_accepts_first_free_candidate one_resistor chip_small []
                "R1" R1_on_pin3 eq_refl) as H.
  cbv zeta in H. destruct H as (_ & _ & Hcand & Hfirst & _).
  specialize (Hcand 0%nat). specialize (Hfirst 1%nat).
  rewrite estimate_R1_on_pin3 in Hcand, Hfirst.
  cbn [Nat.ltb Nat.leb fst snd] in Hcand.
  rewrite radians_0, cos_0, sin_0 in Hcand.
  replace (3 + 1.0 * 1, 0 + 1.0 * 0) with (4, 0) in Hcand by (f_equal; lra).
  rewrite Hcand in Hfirst. apply Hfirst.
  - lia.
  - intros j Hj. assert (j = 0%nat) as -> by lia.
    unfold blocked, has_collision, _check_collision_with_chip,
      _check_bbox_collision. cbn. decide_Rltb.
  - unfold blocked, has_collision, _check_collision_with_chip,
      _check_bbox_collision. cbn. decide_Rltb.
Defined.

(** ** The far placement *)

Lemma far_placement_sides (pin : Z) (rest : list Z) :
  exists (s : Side) (offset : R),
    _get_pin_position_on_chip pin = (side_name s, offset) /\
    far_placement (pin :: rest) =
    match s with
    | Left => (-10.0, offset * 3.0)
    | Right => (10.0, offset * 3.0)
    | Top => (offset * 3.0, 8.0)
    | Bottom => (offset * 3.0, -8.0)
    end.
Proof.
  destruct (pin_table_sides pin) as [s Hs].
  exists s, (snd (_get_pin_position_on_chip pin)). split; [exact Hs |].
  unfold far_placement. rewrite Hs. destruct s; reflexivity.
Qed.

(** No offset of the first 50 attempts reaches further than 22 units. *)
Lemma spec_offset_bound (attempt : nat) :
  (attempt < 50)%nat ->
  -22 <= fst (spec_offset attempt) <= 22 /\
  -22 <= snd (spec_offset attempt) <= 22.
Proof.
  intros Hlt. unfold spec_offset.
  destruct (Nat.ltb_spec attempt 8) as [_ | Hge]; cbn [fst snd].
  - pose proof (COS_bound (radians (INR attempt * 45))) as [? ?].
    pose proof (SIN_bound (radians (INR attempt * 45))) as [? ?].
    lra.
  - set (a := radians (INR ((attempt * 30) mod 360))).
    pose proof (COS_bound a) as [? ?]. pose proof (SIN_bound a) as [? ?].
    apply le_INR in Hge. apply lt_INR in Hlt.
    replace (INR 8) with 8 in Hge by (simpl; lra).
    replace (INR 50) with 50 in Hlt by (simpl; lra).
    cbv zeta. nra.
Qed.

(** The 50-by-50 block collides with the chip wherever the search puts
    it. *)
Lemma big_block_blocked (adjusted_positions : list (string * Placed))
    (j : nat) :
  (j < 50)%nat ->
  blocked chip555 adjusted_positions "X1" (c_width big_block)
    (c_height big_block) (candidate (estimate (c_connected_pins big_block)) j)
  = true.
Proof.
  intros Hj. unfold blocked, has_collision.
  replace (_check_collision_with_chip chip555 _ 2.0) with true; [reflexivity |].
  symmetry. rewrite check_collision_with_chip_margin.
  apply check_bbox_collision_iff. cbn [big_block c_connected_pins estimate].
  destruct j as [| attempt]; cbn.
  - lra.
  - destruct (spec_offset_bound attempt) as [[? ?] [? ?]]; [lia |]. lra.
Qed.

(** C4.  For a component of [component_info] the search always returns a
    position, never an error.  When all 50 candidates collide it returns
    the far placement, whatever that placement collides with: [(10, 6)]
    for a component without connected pins, and otherwise, by the side and
    offset of the first connected pin, left -> [(-10, offset*3)],
    right -> [(10, offset*3)], top -> [(offset*3, 8)],
    bottom -> [(offset*3, -8)]. *)
Theorem exhausted_search_takes_far_placement :
  (forall (component_info : list (string * Component)) (chip : ChipInfo)
          (adjusted_positions : list (string * Placed))
          (component_id : string) (component : Component),
      dict_get component_id component_info = Some component ->
      (exists p : R * R,
          _adjust_position_to_avoid_collision component_info chip
            adjusted_positions component_id = Some p) /\
      ((forall j : nat,
           (j < 50)%nat ->
           blocked chip adjusted_positions component_id
             (c_width component) (c_height component)
             (candidate (estimate (c_connected_pins component)) j) = true) ->
       _adjust_position_to_avoid_collision component_info chip
         adjusted_positions component_id =
       Some (far_placement (c_connected_pins component)))) /\
  far_placement [] = (10.0, 6.0) /\
  (forall (pin : Z) (rest : list Z),
      exists (s : Side) (offset : R),
        _get_pin_position_on_chip pin = (side_name s, offset) /\
        far_placement (pin :: rest) =
        match s with
        | Left => (-10.0, offset * 3.0)
        | Right => (10.0, offset * 3.0)
        | Top => (offset * 3.0, 8.0)
        | Bottom => (offset * 3.0, -8.0)
        end).
Proof.
  split; [| split; [reflexivity | exact far_placement_sides]].
  intros ci chip adj cid component Hget.
  rewrite (adjust_position_first_free ci chip adj cid component Hget).
  split; [eexists; reflexivity |].
  intros Hall. rewrite first_free_all_blocked; [reflexivity |].
  intros j Hj. apply Hall. unfold max_attempts in Hj. lia.
Qed.

(** The 50-by-50 block on the 555 chip: every candidate collides, and the
    block goes to [(10, 6)]. *)
Lemma exhausted_search_takes_far_placement_witness :
  dict_get "X1" one_big_block = Some big_block /\
  (forall j : nat,
      (j < 50)%nat ->
      blocked chip555 [] "X1" (c_width big_block) (c_height big_block)
        (candidate (estimate (c_connected_pins big_block)) j) = true) /\
  _adjust_position_to_avoid_collision one_big_block chip555 [] "X1" =
  Some (10.0, 6.0).
Proof.
  split; [reflexivity | split; [apply big_block_blocked |]].
  destruct exhausted_search_takes_far_placement as (H & _ & _).
  destruct (H one_big_block chip555 [] "X1" big_block eq_refl) as [_ Hfar].
  apply Hfar. apply big_block_blocked.
Defined.

(** The capacitor on pins 2 and 7 has its ideal position at the mean
    [(-3, 1.125)] of [(-3, 0.75)] and [(-3, 1.5)]; pin 12 is not in the
    table and reads as the right side at offset 0. *)
Lemma optimal_position_is_mean_of_anchors_witness :
  dict_get "C1" one_capacitor = Some C1_on_pins_2_7 /\
  _calculate_optimal_position one_capacitor "C1" = Some (-3, 1.125) /\
  (12 < 1 \/ 9 < 12)%Z /\
  _get_pin_position_on_chip 12 = ("right", 0.0).
Proof.
  destruct optimal_position_is_mean_of_anchors as (Hmean & _ & Hdefault).
  split; [reflexivity | split; [| split; [right; lia |]]].
  - rewrite (Hmean one_capacitor "C1" C1_on_pins_2_7 eq_refl).
    unfold pin_anchor. simpl. do 2 f_equal; lra.
  - apply (Hdefault 12%Z). right; lia.
Defined.

(** ** Dicts *)

Lemma dict_get_In {V : Type} (k : string) (d : list (string * V)) :
  In k (map fst d) -> exists v : V, dict_get k d = Some v.
Proof.
  induction d as [| [k' v'] d IH]; simpl; [contradiction |].
  intros [-> | Hin].
  - rewrite String.eqb_refl. now exists v'.
  - destruct (String.eqb k' k); [now exists v' | now apply IH].
Qed.

Lemma dict_get_NoDup {V : Type} (k : string) (v : V)
    (d : list (string * V)) :
  NoDup (map fst d) -> In (k, v) d -> dict_get k d = Some v.
Proof.
  induction d as [| [k' v'] d IH]; simpl; [contradiction |].
  intros Hnd [Heq | Hin].
  - injection Heq as -> ->. now rewrite String.eqb_refl.
  - inversion Hnd as [| ? ? Hnotin Hnd']; subst.
    destruct (String.eqb_spec k' k) as [-> | Hne].
    + exfalso. apply Hnotin. now apply (in_map fst _ (k, v)).
    + now apply IH.
Qed.

Lemma dict_set_fresh {V : Type} (k : string) (v : V)
    (d : list (string * V)) :
  ~ In k (map fst d) -> dict_set k v d = d ++ [(k, v)].
Proof.
  induction d as [| [k' v'] d IH]; simpl; [reflexivity |].
  intros Hnotin. destruct (String.eqb_spec k' k) as [-> | Hne].
  - exfalso. apply Hnotin. now left.
  - f_equal. apply IH. intros Hin. apply Hnotin. now right.
Qed.

Lemma dict_set_keys {V : Type} (k : string) (v : V)
    (d : list (string * V)) (k0 : string) :
  In k0 (map fst (dict_set k v d)) <-> k0 = k \/ In k0 (map fst d).
Proof.
  induction d as [| [k' v'] d IH]; simpl.
  - intuition.
  - destruct (String.eqb_spec k' k) as [-> | Hne]; simpl.
    + intuition.
    + rewrite IH. intuition.
Qed.

(** ** What an accepted candidate is clear of *)

Lemma search_loop_accepted_free
    (component_info : list (string * Component)) (chip : ChipInfo)
    (adjusted_positions : list (string * Placed)) (component_id : string)
    (w h : R) (n a : nat) (x0 y0 : R) (original : option (R * R))
    (x y : R) :
  search_loop component_info chip adjusted_positions component_id w h
    n a x0 y0 original = Accepted x y ->
  has_collision chip adjusted_positions component_id
    (_create_bbox_from_position x y w h) = false.
Proof.
  revert a x0 y0 original.
  induction n as [| n IH]; intros a x0 y0 original; cbn [search_loop];
    [discriminate |].
  destruct (has_collision chip adjusted_positions component_id
              (_create_bbox_from_position x0 y0 w h)) eqn:Hcol.
  - destruct (if (a =? 0)%nat
              then _calculate_optimal_position component_info component_id
              else original) as [[ox oy] |]; [apply IH | discriminate].
  - intros [= <- <-]. exact Hcol.
Qed.

Lemma has_collision_false (chip : ChipInfo)
    (adjusted_positions : list (string * Placed)) (component_id : string)
    (test_bbox : BBox) :
  has_collision chip adjusted_positions component_id test_bbox = false ->
  _check_bbox_collision test_bbox (chip_bbox chip) 2.0 = false /\
  forall (id : string) (q : Placed),
    In (id, q) adjusted_positions -> id <> component_id ->
    _check_bbox_collision test_bbox
      (_create_bbox_from_position (fst (p_position q)) (snd (p_position q))
         (p_width q) (p_height q)) 1.0 = false.
Proof.
  unfold has_collision. rewrite check_collision_with_chip_margin.
  destruct (_check_bbox_collision test_bbox (chip_bbox chip) 2.0);
    [discriminate |].
  intros Hex. split; [reflexivity |]. intros id q Hin Hne.
  destruct (_check_bbox_collision test_bbox _ 1.0) eqn:Hc; [| reflexivity].
  assert (Htrue : existsb
            (fun entry : string * Placed =>
               let '(placed_comp_id, placed_info) := entry in
               if String.eqb placed_comp_id component_id then false
               else
                 _check_bbox_collision test_bbox
                   (_create_bbox_from_position
                      (fst (p_position placed_info))
                      (snd (p_position placed_info))
                      (p_width placed_info) (p_height placed_info)) 1.0)
            adjusted_positions = true).
  { apply existsb_exists. exists (id, q). split; [exact Hin |].
    destruct (String.eqb_spec id component_id); [contradiction | exact Hc]. }
  rewrite Htrue in Hex. discriminate.
Qed.

Lemma adjust_by_search_free
    (component_info : list (string * Component)) (chip : ChipInfo)
    (adjusted_positions : list (string * Placed)) (component_id : string)
    (component : Component) (x y : R) :
  dict_get component_id component_info = Some component ->
  _adjust_position_to_avoid_collision component_info chip adjusted_positions
    component_id = Some (x, y) ->
  placed_by_search component_info chip adjusted_positions component_id ->
  has_collision chip adjusted_positions component_id
    (_create_bbox_from_position x y (c_width component) (c_height component))
  = false.
Proof.
  intros Hget Hadj (component' & [ix iy] & x' & y' & Hget' & Hideal & Hloop).
  rewrite Hget in Hget'. injection Hget' as <-.
  unfold _adjust_position_to_avoid_collision in Hadj.
  rewrite Hget, Hideal in Hadj. cbn [fst snd] in Hloop.
  rewrite Hloop in Hadj. injection Hadj as <- <-.
  exact (search_loop_accepted_free _ _ _ _ _ _ _ _ _ _ _ _ _ Hloop).
Qed.

(** ** The resolver's loop *)

(** [place_all] never fails on components of [component_info], and every
    key of the state or of the work list is a key of the result. *)
Lemma place_all_total (component_info : list (string * Component))
    (chip : ChipInfo) (todo : list (string * Component)) :
  (forall item : string * Component,
      In item todo -> In (fst item) (map fst component_info)) ->
  forall adjusted_positions : list (string * Placed),
  exists layout : list (string * Placed),
    place_all component_info chip todo adjusted_positions = Some layout /\
    forall id : string,
      In id (map fst adjusted_positions) \/ In id (map fst todo) ->
      In id (map fst layout).
Proof.
  induction todo as [| [id component] todo IH]; intros Hin adj.
  - exists adj. split; [reflexivity |]. simpl. intuition.
  - cbn [place_all].
    destruct (dict_get_In id component_info (Hin (id, component) (or_introl eq_refl)))
      as [component' Hget].
    rewrite (adjust_position_first_free _ chip adj _ _ Hget).
    destruct (match first_free _ 0 max_attempts with
              | Some k => candidate (estimate (c_connected_pins component')) k
              | None => far_placement (c_connected_pins component')
              end) as [ax ay].
    edestruct IH as (layout & Hplace & Hkeys).
    { intros item Hitem. apply Hin. now right. }
    exists layout. split; [exact Hplace |].
    intros id0 Hid0. apply Hkeys. rewrite dict_set_keys. simpl in Hid0.
    intuition.
Qed.

(** From a state that shares no key with the work list, and with a work
    list without repeated keys, every step appends its entry: the result
    is the state followed by one entry per component, in processing order,
    each placed against the state and the entries before it. *)
Lemma place_all_fresh (component_info : list (string * Component))
    (chip : ChipInfo) (todo : list (string * Component)) :
  forall (adjusted_positions layout : list (string * Placed)),
  NoDup (map fst adjusted_positions ++ map fst todo) ->
  place_all component_info chip todo adjusted_positions = Some layout ->
  exists news : list (string * Placed),
    layout = adjusted_positions ++ news /\
    map fst news = map fst todo /\
    forall (k : nat) (id : string) (component : Component),
      nth_error todo k = Some (id, component) ->
      exists x y : R,
        _adjust_position_to_avoid_collision component_info chip
          (adjusted_positions ++ firstn k news) id = Some (x, y) /\
        nth_error news k = Some (id, placed_entry component x y).
Proof.
  induction todo as [| [id component] todo IH]; intros adj layout Hnd Hplace.
  - injection Hplace as <-. exists []. rewrite app_nil_r.
    repeat split. intros [| k] ? ? H; discriminate H.
  - cbn [place_all] in Hplace.
    destruct (_adjust_position_to_avoid_collision component_info chip adj id)
      as [[ax ay] |] eqn:Hadj; [| discriminate].
    assert (Hfresh : ~ In id (map fst adj)).
    { intros Hin. apply NoDup_remove_2 in Hnd. apply Hnd.
      apply in_or_app. now left. }
    rewrite (dict_set_fresh _ _ _ Hfresh) in Hplace.
    fold (placed_entry component ax ay) in Hplace.
    apply IH in Hplace.
    + destruct Hplace as (news & -> & Hkeys & Hsteps).
      exists ((id, placed_entry component ax ay) :: news).
      split; [now rewrite <- app_assoc |].
      split; [simpl; now rewrite Hkeys |].
      intros [| k] id0 component0 Hnth.
      * injection Hnth as <- <-. exists ax, ay.
        cbn [firstn]. rewrite app_nil_r. now split.
      * cbn [nth_error] in Hnth.
        destruct (Hsteps k id0 component0 Hnth) as (x & y & Hadj0 & Hnth0).
        exists x, y. cbn [firstn nth_error].
        rewrite <- app_assoc in Hadj0. now split.
    + rewrite map_app. cbn [map fst]. rewrite <- app_assoc.
      cbn [app]. simpl in Hnd.
      apply NoDup_remove_1 in Hnd as Hnd1.
      apply NoDup_remove_2 in Hnd.
      apply (Permutation_NoDup (l := id :: map fst adj ++ map fst todo)).
      * apply Permutation_middle.
      * now constructor.
Qed.

Lemma sorted_components_lookup (component_info : list (string * Component))
    (id : string) (component : Component) :
  NoDup (map fst component_info) ->
  In (id, component) (sorted_components component_info) ->
  dict_get id component_info = Some component.
Proof.
  intros Hnd Hin. apply dict_get_NoDup; [exact Hnd |].
  eapply Permutation_in; [| exact Hin].
  symmetry. apply sorted_components_perm.
Qed.

Lemma sorted_components_keys_NoDup
    (component_info : list (string * Component)) :
  NoDup (map fst component_info) ->
  NoDup (map fst (sorted_components component_info)).
Proof.
  apply Permutation_NoDup, Permutation_map, sorted_components_perm.
Qed.

(** The run from the empty state on a [component_info] with distinct
    keys: one entry per component, in processing order, and the state in
    which the [k]-th component was placed is the first [k] entries. *)
Lemma resolved_structure (component_info : list (string * Component))
    (chip : ChipInfo) (layout : list (string * Placed)) :
  NoDup (map fst component_info) ->
  detect_and_resolve_collisions component_info chip [] = Some layout ->
  map fst layout = map fst (sorted_components component_info) /\
  forall (k : nat) (id : string) (component : Component),
    nth_error (sorted_components component_info) k = Some (id, component) ->
    exists x y : R,
      _adjust_position_to_avoid_collision component_info chip
        (firstn k layout) id = Some (x, y) /\
      nth_error layout k = Some (id, placed_entry component x y).
Proof.
  intros Hnd Hrun. unfold detect_and_resolve_collisions in Hrun.
  apply place_all_fresh in Hrun;
    [| now apply sorted_components_keys_NoDup].
  destruct Hrun as (news & -> & Hkeys & Hsteps). now split.
Qed.

(** Every entry of the resolved layout is the entry of the component at
    the same place of the processing order. *)
Lemma layout_entry (component_info : list (string * Component))
    (chip : ChipInfo) (layout : list (string * Placed))
    (j : nat) (id : string) (p : Placed) :
  NoDup (map fst component_info) ->
  detect_and_resolve_collisions component_info chip [] = Some layout ->
  nth_error layout j = Some (id, p) ->
  exists (component : Component) (x y : R),
    nth_error (sorted_components component_info) j = Some (id, component) /\
    dict_get id component_info = Some component /\
    _adjust_position_to_avoid_collision component_info chip
      (firstn j layout) id = Some (x, y) /\
    p = placed_entry component x y.
Proof.
  intros Hnd Hrun Hnth.
  destruct (resolved_structure _ _ _ Hnd Hrun) as [Hkeys Hsteps].
  assert (Hid : nth_error (map fst (sorted_components component_info)) j
                = Some id).
  { rewrite <- Hkeys, nth_error_map, Hnth. reflexivity. }
  rewrite nth_error_map in Hid.
  destruct (nth_error (sorted_components component_info) j)
    as [[id0 component] |] eqn:Hs; [| discriminate].
  injection Hid as ->.
  destruct (Hsteps j id component Hs) as (x & y & Hadj & Hentry).
  rewrite Hnth in Hentry. injection Hentry as ->.
  exists component, x, y. repeat split; try assumption.
  apply sorted_components_lookup; [exact Hnd |].
  eapply nth_error_In; exact Hs.
Qed.

(** C1, amended.  After [detect_and_resolve_collisions] has run from the
    empty state on components with distinct ids, every component that its
    search placed (the far placement was not used for it) has a box that
    overlaps neither the chip, with margin 2.0, nor, with margin 1.0 and
    in both directions, the box of any component placed before it.  So a
    layout in which no component went to the far placement satisfies the
    pairwise no-overlap invariant. *)
Theorem resolved_no_overlap_unless_far_placed
    (component_info : list (string * Component)) (chip : ChipInfo)
    (layout : list (string * Placed)) :
  NoDup (map fst component_info) ->
  detect_and_resolve_collisions component_info chip [] = Some layout ->
  (forall (j : nat) (id : string) (p : Placed),
      nth_error layout j = Some (id, p) ->
      placed_by_search component_info chip (firstn j layout) id ->
      no_chip_overlap chip p /\
      forall (i : nat) (id' : string) (q : Placed),
        (i < j)%nat -> nth_error layout i = Some (id', q) ->
        no_pair_overlap p q /\ no_pair_overlap q p) /\
  ((forall (j : nat) (id : string) (p : Placed),
       nth_error layout j = Some (id, p) ->
       placed_by_search component_info chip (firstn j layout) id) ->
   no_overlap_invariant chip layout).
Proof.
  intros Hnd Hrun.
  assert (Hmain :
    forall (j : nat) (id : string) (p : Placed),
      nth_error layout j = Some (id, p) ->
      placed_by_search component_info chip (firstn j layout) id ->
      no_chip_overlap chip p /\
      forall (i : nat) (id' : string) (q : Placed),
        (i < j)%nat -> nth_error layout i = Some (id', q) ->
        no_pair_overlap p q /\ no_pair_overlap q p).
  { intros j id p Hj Hsearch.
    destruct (layout_entry _ _ _ _ _ _ Hnd Hrun Hj)
      as (component & x & y & Hs & Hget & Hadj & ->).
    pose proof (adjust_by_search_free _ _ _ _ _ _ _ Hget Hadj Hsearch)
      as Hfree.
    apply has_collision_false in Hfree. destruct Hfree as [Hchip Hothers].
    split; [exact Hchip |].
    intros i id' q Hlt Hi.
    destruct (layout_entry _ _ _ _ _ _ Hnd Hrun Hi)
      as (component' & x' & y' & _ & _ & _ & ->).
    assert (Hne : id' <> id).
    { intros ->.
      assert (Hndl : NoDup (map fst layout)).
      { rewrite (proj1 (resolved_structure _ _ _ Hnd Hrun)).
        now apply sorted_components_keys_NoDup. }
      assert (i = j); [| lia].
      apply (proj1 (NoDup_nth_error (map fst layout)) Hndl).
      - rewrite length_map. apply nth_error_Some. now rewrite Hi.
      - now rewrite !nth_error_map, Hi, Hj. }
    assert (Hin : In (id', placed_entry component' x' y') (firstn j layout)).
    { apply (nth_error_In _ i). rewrite nth_error_firstn.
      destruct (Nat.ltb_spec i j); [exact Hi | lia]. }
    pose proof (Hothers _ _ Hin Hne) as Hpair. cbn in Hpair.
    unfold no_pair_overlap. split; [exact Hpair |].
    rewrite bbox_collision_comm. exact Hpair. }
  split; [exact Hmain |].
  intros Hall. split.
  - intros id p Hin. apply In_nth_error in Hin. destruct Hin as [j Hj].
    exact (proj1 (Hmain j id p Hj (Hall j id p Hj))).
  - intros i j id1 id2 p1 p2 Hne Hi Hj.
    destruct (Nat.lt_trichotomy i j) as [Hlt | [Heq | Hgt]];
      [| contradiction |].
    + exact (proj2 (proj2 (Hmain j id2 p2 Hj (Hall j id2 p2 Hj))
                      i id1 p1 Hlt Hi)).
    + exact (proj1 (proj2 (Hmain i id1 p1 Hi (Hall i id1 p1 Hi))
                      j id2 p2 Hgt Hj)).
Qed.

(** ** The examples, resolved *)

Lemma placed_by_search_first_free
    (component_info : list (string * Component)) (chip : ChipInfo)
    (adjusted_positions : list (string * Placed)) (component_id : string)
    (component : Component) (k : nat) :
  dict_get component_id component_info = Some component ->
  first_free
    (fun k =>
       blocked chip adjusted_positions component_id
         (c_width component) (c_height component)
         (candidate (estimate (c_connected_pins component)) k))
    0 max_attempts = Some k ->
  _adjust_position_to_avoid_collision component_info chip adjusted_positions
    component_id = Some (candidate (estimate (c_connected_pins component)) k)
  /\ placed_by_search component_info chip adjusted_positions component_id.
Proof.
  intros Hget Hfirst. split.
  - rewrite (adjust_position_first_free _ _ _ _ _ Hget), Hfirst. reflexivity.
  - assert (Hideal : _calculate_optimal_position component_info component_id
                     = Some (estimate (c_connected_pins component))).
    { rewrite calculate_optimal_position_estimate, Hget. reflexivity. }
    exists component, (estimate (c_connected_pins component)),
      (fst (candidate (estimate (c_connected_pins component)) k)),
      (snd (candidate (estimate (c_connected_pins component)) k)).
    split; [exact Hget | split; [exact Hideal |]].
    pose proof (search_loop_first_free component_info chip adjusted_positions
                  component_id (c_width component) (c_height component)
                  _ Hideal max_attempts 0 None (or_introl eq_refl)) as Hloop.
    cbn [candidate] in Hloop. cbv zeta in Hloop. rewrite Hfirst in Hloop.
    exact Hloop.
Qed.

Lemma candidate_1 (ideal : R * R) :
  candidate ideal 1 = (fst ideal + 1, snd ideal + 0).
Proof.
  cbn [candidate]. unfold spec_offset. cbn [Nat.ltb Nat.leb fst snd].
  rewrite radians_0, cos_0, sin_0. f_equal; lra.
Qed.

Lemma estimate_D1_on_pin5 : estimate (c_connected_pins D1_on_pin5) = (3, 1.5).
Proof.
  unfold estimate, mean_point, pin_anchor. simpl. f_equal; lra.
Qed.

(** The resistor collides with the small chip at [(3, 0)] and is placed
    at the next candidate, [(4, 0)]. *)
Lemma R1_placed (component_info : list (string * Component)) :
  dict_get "R1" component_info = Some R1_on_pin3 ->
  _adjust_position_to_avoid_collision component_info chip_small [] "R1"
  = Some (4, 0) /\
  placed_by_search component_info chip_small [] "R1".
Proof.
  intros Hget.
  replace (4, 0) with (candidate (estimate (c_connected_pins R1_on_pin3)) 1)
    by (rewrite candidate_1, estimate_R1_on_pin3; cbn; f_equal; lra).
  apply placed_by_search_first_free; [exact Hget |].
  apply first_free_least.
  - unfold max_attempts. lia.
  - intros j Hj. assert (j = 0%nat) as -> by lia.
    rewrite estimate_R1_on_pin3.
    unfold blocked, has_collision, _check_collision_with_chip,
      _check_bbox_collision. cbn. decide_Rltb.
  - rewrite candidate_1, estimate_R1_on_pin3.
    unfold blocked, has_collision, _check_collision_with_chip,
      _check_bbox_collision. cbn. decide_Rltb.
Qed.

(** With the resistor at [(4, 0)], the LED is free at its ideal position
    [(3, 1.5)]. *)
Lemma D1_placed (component_info : list (string * Component)) :
  dict_get "D1" component_info = Some D1_on_pin5 ->
  _adjust_position_to_avoid_collision component_info chip_small
    [("R1", placed_entry R1_on_pin3 4 0)] "D1" = Some (3, 1.5) /\
  placed_by_search component_info chip_small
    [("R1", placed_entry R1_on_pin3 4 0)] "D1".
Proof.
  intros Hget.
  replace (3, 1.5) with (candidate (estimate (c_connected_pins D1_on_pin5)) 0)
    by (cbn [candidate]; apply estimate_D1_on_pin5).
  apply placed_by_search_first_free; [exact Hget |].
  apply first_free_least.
  - unfold max_attempts. lia.
  - intros j Hj. lia.
  - cbn [candidate]. rewrite estimate_D1_on_pin5.
    unfold blocked, has_collision, _check_collision_with_chip,
      _check_bbox_collision. cbn. decide_Rltb.
Qed.

Lemma two_parts_resolved :
  detect_and_resolve_collisions two_parts chip_small [] =
  Some two_parts_layout.
Proof.
  unfold detect_and_resolve_collisions.
  change (sorted_components two_parts) with two_parts.
  unfold two_parts at 2. cbn [place_all].
  rewrite (proj1 (R1_placed two_parts eq_refl)). cbn [dict_set].
  fold (placed_entry R1_on_pin3 4 0).
  rewrite (proj1 (D1_placed two_parts eq_refl)). reflexivity.
Qed.

(** The 50-by-50 block goes to the far placement [(10, 6)]. *)
Lemma big_block_far_placed (component_info : list (string * Component))
    (adjusted_positions : list (string * Placed)) :
  dict_get "X1" component_info = Some big_block ->
  _adjust_position_to_avoid_collision component_info chip555
    adjusted_positions "X1" = Some (10.0, 6.0).
Proof.
  intros Hget. rewrite (adjust_position_first_free _ _ _ _ _ Hget).
  rewrite first_free_all_blocked; [reflexivity |].
  intros j Hj. apply big_block_blocked. unfold max_attempts in Hj. lia.
Qed.

Lemma big_block_resolved :
  detect_and_resolve_collisions one_big_block chip555 [] =
  Some big_block_layout.
Proof.
  unfold detect_and_resolve_collisions.
  change (sorted_components one_big_block) with one_big_block.
  unfold one_big_block at 2. cbn [place_all].
  rewrite (big_block_far_placed one_big_block [] eq_refl). reflexivity.
Qed.

(** The amended C1 on the resistor and the LED: both are placed by their
    search, and the layout satisfies the invariant. *)
Lemma resolved_no_overlap_unless_far_placed_witness :
  NoDup (map fst two_parts) /\
  detect_and_resolve_collisions two_parts chip_small [] =
  Some two_parts_layout /\
  no_overlap_invariant chip_small two_parts_layout.
Proof.
  assert (Hnd : NoDup (map fst two_parts)).
  { repeat constructor; simpl; intuition discriminate. }
  split; [exact Hnd | split; [exact two_parts_resolved |]].
  apply (proj2 (resolved_no_overlap_unless_far_placed two_parts chip_small
                  two_parts_layout Hnd two_parts_resolved)).
  intros [| [| j]] id p Hnth; cbn in Hnth.
  - injection Hnth as <- <-. apply (R1_placed two_parts eq_refl).
  - injection Hnth as <- <-. apply (D1_placed two_parts eq_refl).
  - destruct j; discriminate Hnth.
Defined.

(** C1 as stated fails: the 50-by-50 block on the 555 chip collides at
    all 50 candidates, goes to the far placement [(10, 6)] without a
    check, and its box there overlaps the chip with margin 2.0. *)
Lemma no_overlap_invariant_counterexample :
  NoDup (map fst one_big_block) /\
  detect_and_resolve_collisions one_big_block chip555 [] =
  Some big_block_layout /\
  ~ no_overlap_invariant chip555 big_block_layout.
Proof.
  split; [repeat constructor; simpl; intuition |].
  split; [exact big_block_resolved |].
  intros [Hchip _].
  specialize (Hchip "X1" (placed_entry big_block 10.0 6.0) (or_introl eq_refl)).
  unfold no_chip_overlap in Hchip.
  apply check_bbox_collision_false_iff in Hchip. cbn in Hchip.
  destruct Hchip as [H | [H | [H | H]]]; lra.
Qed.

(** ** No validation of the geometry *)

Lemma detect_total (component_info : list (string * Component))
    (chip : ChipInfo) (adjusted_positions : list (string * Placed)) :
  exists layout : list (string * Placed),
    detect_and_resolve_collisions component_info chip adjusted_positions =
    Some layout /\
    forall id : string,
      In id (map fst component_info) -> In id (map fst layout).
Proof.
  unfold detect_and_resolve_collisions.
  destruct (place_all_total component_info chip
              (sorted_components component_info)) with
    (adjusted_positions := adjusted_positions) as (layout & Hrun & Hkeys).
  - intros item Hin. apply in_map.
    eapply Permutation_in; [| exact Hin].
    symmetry. apply sorted_components_perm.
  - exists layout. split; [exact Hrun |].
    intros id Hin. apply Hkeys. right.
    eapply Permutation_in; [| exact Hin].
    apply Permutation_map, sorted_components_perm.
Qed.

Lemma estimate_flat_part : estimate (c_connected_pins flat_part) = (3, 1.5).
Proof.
  unfold estimate, mean_point, pin_anchor. simpl. f_equal; lra.
Qed.

Lemma flat_part_resolved :
  detect_and_resolve_collisions one_flat_part chip_small [] =
  Some [("Z1", placed_entry flat_part 3 1.5)].
Proof.
  unfold detect_and_resolve_collisions.
  change (sorted_components one_flat_part) with one_flat_part.
  unfold one_flat_part at 2. cbn [place_all].
  assert (H : _adjust_position_to_avoid_collision one_flat_part chip_small []
                "Z1" = Some (3, 1.5)).
  { replace (3, 1.5)
      with (candidate (estimate (c_connected_pins flat_part)) 0)
      by (cbn [candidate]; apply estimate_flat_part).
    apply (placed_by_search_first_free one_flat_part chip_small [] "Z1"
             flat_part 0 eq_refl).
    apply first_free_least.
    - unfold max_attempts. lia.
    - intros j Hj. lia.
    - cbn [candidate]. rewrite estimate_flat_part.
      unfold blocked, has_collision, _check_collision_with_chip,
        _check_bbox_collision. cbn. decide_Rltb. }
  rewrite H. reflexivity.
Qed.

(** C8, amended.  The resolver does not look at the sign of a width or a
    height and has no error of its own: on every input it returns a
    layout with an entry for each component, and, run from the empty state
    on components with distinct ids, each entry carries the width and the
    height of its component as given. *)
Theorem resolver_accepts_any_geometry :
  (forall (component_info : list (string * Component)) (chip : ChipInfo)
          (adjusted_positions : list (string * Placed)),
      exists layout : list (string * Placed),
        detect_and_resolve_collisions component_info chip adjusted_positions
        = Some layout /\
        forall id : string,
          In id (map fst component_info) -> In id (map fst layout)) /\
  (forall (component_info : list (string * Component)) (chip : ChipInfo)
          (layout : list (string * Placed)) (id : string) (p : Placed),
      NoDup (map fst component_info) ->
      detect_and_resolve_collisions component_info chip [] = Some layout ->
      In (id, p) layout ->
      exists component : Component,
        In (id, component) component_info /\
        p_width p = c_width component /\ p_height p = c_height component).
Proof.
  split; [exact detect_total |].
  intros ci chip layout id p Hnd Hrun Hin.
  apply In_nth_error in Hin. destruct Hin as [j Hj].
  destruct (layout_entry _ _ _ _ _ _ Hnd Hrun Hj)
    as (component & x & y & Hs & _ & _ & ->).
  exists component. split; [| now split].
  eapply Permutation_in;
    [symmetry; apply sorted_components_perm | eapply nth_error_In; exact Hs].
Qed.

(** The part of size 0 by -1 is resolved like any other and keeps its
    size. *)
Lemma resolver_accepts_any_geometry_witness :
  NoDup (map fst one_flat_part) /\
  detect_and_resolve_collisions one_flat_part chip_small [] =
  Some [("Z1", placed_entry flat_part 3 1.5)] /\
  exists component : Component,
    In ("Z1", component) one_flat_part /\
    p_width (placed_entry flat_part 3 1.5) = c_width component /\
    p_height (placed_entry flat_part 3 1.5) = c_height component.
Proof.
  assert (Hnd : NoDup (map fst one_flat_part)).
  { repeat constructor; simpl; intuition. }
  split; [exact Hnd | split; [exact flat_part_resolved |]].
  apply (proj2 resolver_accepts_any_geometry one_flat_part chip_small
           [("Z1", placed_entry flat_part 3 1.5)] "Z1"
           (placed_entry flat_part 3 1.5) Hnd flat_part_resolved).
  now left.
Defined.

(** C8 as stated fails: the part of size 0 by -1 has a non-positive width
    and height, and the run returns a layout that places it at its ideal
    position [(3, 1.5)]; no error is raised. *)
Lemma invalid_geometry_counterexample :
  invalid_geometry one_flat_part chip_small /\
  detect_and_resolve_collisions one_flat_part chip_small [] =
  Some [("Z1", placed_entry flat_part 3 1.5)] /\
  detect_and_resolve_collisions one_flat_part chip_small [] <> None.
Proof.
  split; [| split; [exact flat_part_resolved |]].
  - left. exists "Z1", flat_part. split; [now left |].
    left. cbn. lra.
  - rewrite flat_part_resolved. discriminate.
Qed.

(** ** Diagnostics *)

Lemma place_all_keys (component_info : list (string * Component))
    (chip : ChipInfo) (todo : list (string * Component)) :
  forall (adjusted_positions layout : list (string * Placed)),
  place_all component_info chip todo adjusted_positions = Some layout ->
  forall id : string,
    In id (map fst layout) ->
    In id (map fst adjusted_positions) \/ In id (map fst todo).
Proof.
  induction todo as [| [id0 component] todo IH]; intros adj layout Hplace id.
  - injection Hplace as <-. now left.
  - cbn [place_all] in Hplace.
    destruct (_adjust_position_to_avoid_collision component_info chip adj id0)
      as [[ax ay] |]; [| discriminate].
    intros Hin. apply (IH _ _ Hplace) in Hin. rewrite dict_set_keys in Hin.
    simpl. intuition.
Qed.

Lemma check_if_optimal_position_distance
    (component_info : list (string * Component)) (comp_id : string)
    (position_info : Placed) (ideal : R * R) :
  _calculate_optimal_position component_info comp_id = Some ideal ->
  exists flag : bool,
    _check_if_optimal_position component_info comp_id position_info
    = Some flag /\
    (flag = true <-> distance (p_position position_info) ideal < 0.5).
Proof.
  intros Hideal. unfold _check_if_optimal_position. rewrite Hideal.
  eexists; split; [reflexivity |].
  rewrite Rltb_true. unfold distance.
  replace ((fst ideal - fst (p_position position_info)) ^ 2 +
           (snd ideal - snd (p_position position_info)) ^ 2)
    with ((fst (p_position position_info) - fst ideal) *
          (fst (p_position position_info) - fst ideal) +
          (snd (p_position position_info) - snd ideal) *
          (snd (p_position position_info) - snd ideal)) by ring.
  reflexivity.
Qed.

(** C9.  For every component of a resolved layout the estimator has an
    ideal position, and the "ideal position achieved" flag is true iff the
    Euclidean distance of the component's final position to that ideal
    position is less than 0.5. *)
Theorem achieved_ideal_iff_distance_below_half
    (component_info : list (string * Component)) (chip : ChipInfo)
    (layout : list (string * Placed)) (id : string) (p : Placed) :
  detect_and_resolve_collisions component_info chip [] = Some layout ->
  In (id, p) layout ->
  exists (ideal : R * R) (flag : bool),
    _calculate_optimal_position component_info id = Some ideal /\
    _check_if_optimal_position component_info id p = Some flag /\
    (flag = true <-> distance (p_position p) ideal < 0.5).
Proof.
  intros Hrun Hin.
  assert (Hkey : In id (map fst component_info)).
  { destruct (place_all_keys _ _ _ _ _ Hrun id) as [[] | Hs].
    - now apply (in_map fst _ (id, p)).
    - eapply Permutation_in; [| exact Hs].
      symmetry. apply Permutation_map, sorted_components_perm. }
  destruct (dict_get_In _ _ Hkey) as [component Hget].
  assert (Hideal : _calculate_optimal_position component_info id
                   = Some (estimate (c_connected_pins component))).
  { rewrite calculate_optimal_position_estimate, Hget. reflexivity. }
  destruct (check_if_optimal_position_distance _ _ p _ Hideal)
    as (flag & Hflag & Hiff).
  now exists (estimate (c_connected_pins component)), flag.
Qed.

(** In the layout of the resistor and the LED, the LED sits on its ideal
    position and its flag is true. *)
Lemma achieved_ideal_iff_distance_below_half_witness :
  detect_and_resolve_collisions two_parts chip_small [] =
  Some two_parts_layout /\
  In ("D1", placed_entry D1_on_pin5 3 1.5) two_parts_layout /\
  _check_if_optimal_position two_parts "D1" (placed_entry D1_on_pin5 3 1.5)
  = Some true.
Proof.
  split; [exact two_parts_resolved | split; [right; now left |]].
  destruct (achieved_ideal_iff_distance_below_half two_parts chip_small
              two_parts_layout "D1" (placed_entry D1_on_pin5 3 1.5)
              two_parts_resolved (or_intror (or_introl eq_refl)))
    as (ideal & flag & Hideal & Hflag & Hiff).
  rewrite Hflag. f_equal. apply Hiff.
  rewrite calculate_optimal_position_estimate in Hideal. cbn in Hideal.
  injection Hideal as <-. unfold distance. cbn.
  match goal with
  | |- sqrt ?e < _ => replace e with 0 by lra
  end.
  rewrite sqrt_0. lra.
Defined.

(** ** The export transform *)

Lemma fold_left_Rmin_spec (l : list R) (x : R) :
  In (fold_left Rmin l x) (x :: l) /\
  forall v : R, In v (x :: l) -> fold_left Rmin l x <= v.
Proof.
  revert x. induction l as [| a l IH]; intros x; cbn [fold_left].
  - split; [now left |]. intros v [<- | []]. lra.
  - destruct (IH (Rmin x a)) as [Hin Hle]. split.
    + destruct Hin as [Heq | Hin]; [| now right; right].
      rewrite <- Heq. destruct (Rmin_case x a (fun r => r = x \/ r = a));
        auto; [left | right; left]; congruence.
    + intros v [<- | [<- | Hv]].
      * apply Rle_trans with (Rmin x a); [apply Hle; now left | apply Rmin_l].
      * apply Rle_trans with (Rmin x a); [apply Hle; now left | apply Rmin_r].
      * apply Hle. now right.
Qed.

Lemma fold_left_Rmax_spec (l : list R) (x : R) :
  In (fold_left Rmax l x) (x :: l) /\
  forall v : R, In v (x :: l) -> v <= fold_left Rmax l x.
Proof.
  revert x. induction l as [| a l IH]; intros x; cbn [fold_left].
  - split; [now left |]. intros v [<- | []]. lra.
  - destruct (IH (Rmax x a)) as [Hin Hle]. split.
    + destruct Hin as [Heq | Hin]; [| now right; right].
      rewrite <- Heq. destruct (Rmax_case x a (fun r => r = x \/ r = a));
        auto; [left | right; left]; congruence.
    + intros v [<- | [<- | Hv]].
      * apply Rle_trans with (Rmax x a); [apply Rmax_l | apply Hle; now left].
      * apply Rle_trans with (Rmax x a); [apply Rmax_r | apply Hle; now left].
      * apply Hle. now right.
Qed.

Lemma py_min_spec (l : list R) :
  l <> [] ->
  exists m : R, py_min l = Some m /\ In m l /\ forall v : R, In v l -> m <= v.
Proof.
  destruct l as [| x l]; [contradiction |]. intros _.
  exists (fold_left Rmin l x). split; [reflexivity |].
  apply fold_left_Rmin_spec.
Qed.

Lemma py_max_spec (l : list R) :
  l <> [] ->
  exists m : R, py_max l = Some m /\ In m l /\ forall v : R, In v l -> v <= m.
Proof.
  destruct l as [| x l]; [contradiction |]. intros _.
  exists (fold_left Rmax l x). split; [reflexivity |].
  apply fold_left_Rmax_spec.
Qed.

(** The coordinates the statistics collect are the edges of the entity
    boxes. *)
Lemma In_all_x_coords (chip : ChipInfo)
    (component_positions : list (string * Placed)) (v : R) :
  In v (all_x_coords chip component_positions) <->
  exists b : BBox,
    In b (entity_boxes chip component_positions) /\
    (v = x_min b \/ v = x_max b).
Proof.
  unfold all_x_coords, entity_boxes. rewrite !in_app_iff, !in_map_iff.
  split.
  - intros [(pos & <- & Hin) | [(pos & <- & Hin) | [<- | [<- | []]]]].
    + exists (p_bbox (snd pos)). split; [right; apply in_map_iff | now left].
      now exists pos.
    + exists (p_bbox (snd pos)). split; [right; apply in_map_iff | now right].
      now exists pos.
    + exists (chip_bbox chip). split; [now left | now left].
    + exists (chip_bbox chip). split; [now left | now right].
  - intros (b & [<- | Hin] & Hv).
    + right; right. simpl. destruct Hv as [-> | ->]; auto.
    + apply in_map_iff in Hin. destruct Hin as (pos & <- & Hin).
      destruct Hv as [-> | ->]; [left | right; left]; now exists pos.
Qed.

Lemma In_all_y_coords (chip : ChipInfo)
    (component_positions : list (string * Placed)) (v : R) :
  In v (all_y_coords chip component_positions) <->
  exists b : BBox,
    In b (entity_boxes chip component_positions) /\
    (v = y_min b \/ v = y_max b).
Proof.
  unfold all_y_coords, entity_boxes. rewrite !in_app_iff, !in_map_iff.
  split.
  - intros [(pos & <- & Hin) | [(pos & <- & Hin) | [<- | [<- | []]]]].
    + exists (p_bbox (snd pos)). split; [right; apply in_map_iff | now left].
      now exists pos.
    + exists (p_bbox (snd pos)). split; [right; apply in_map_iff | now right].
      now exists pos.
    + exists (chip_bbox chip). split; [now left | now left].
    + exists (chip_bbox chip). split; [now left | now right].
  - intros (b & [<- | Hin] & Hv).
    + right; right. simpl. destruct Hv as [-> | ->]; auto.
    + apply in_map_iff in Hin. destruct Hin as (pos & <- & Hin).
      destruct Hv as [-> | ->]; [left | right; left]; now exists pos.
Qed.

Lemma all_x_coords_nonempty (chip : ChipInfo)
    (component_positions : list (string * Placed)) :
  all_x_coords chip component_positions <> [].
Proof.
  unfold all_x_coords. intros H.
  apply app_eq_nil in H. destruct H as [_ H].
  apply app_eq_nil in H. destruct H as [_ H]. discriminate.
Qed.

Lemma all_y_coords_nonempty (chip : ChipInfo)
    (component_positions : list (string * Placed)) :
  all_y_coords chip component_positions <> [].
Proof.
  unfold all_y_coords. intros H.
  apply app_eq_nil in H. destruct H as [_ H].
  apply app_eq_nil in H. destruct H as [_ H]. discriminate.
Qed.

Lemma overall_bbox_union (chip : ChipInfo)
    (component_positions : list (string * Placed)) :
  exists U : BBox,
    overall_bbox chip component_positions = Some U /\
    is_union_bbox U (entity_boxes chip component_positions).
Proof.
  unfold overall_bbox.
  destruct (py_min_spec _ (all_x_coords_nonempty chip component_positions))
    as (xmin & -> & Hxmin_in & Hxmin).
  destruct (py_max_spec _ (all_x_coords_nonempty chip component_positions))
    as (xmax & -> & Hxmax_in & Hxmax).
  destruct (py_min_spec _ (all_y_coords_nonempty chip component_positions))
    as (ymin & -> & Hymin_in & Hymin).
  destruct (py_max_spec _ (all_y_coords_nonempty chip component_positions))
    as (ymax & -> & Hymax_in & Hymax).
  eexists; split; [reflexivity |]. unfold is_union_bbox; cbn.
  split; [| repeat split].
  - intros b Hb.
    assert (In (x_min b) (all_x_coords chip component_positions))
      by (apply In_all_x_coords; exists b; auto).
    assert (In (x_max b) (all_x_coords chip component_positions))
      by (apply In_all_x_coords; exists b; auto).
    assert (In (y_min b) (all_y_coords chip component_positions))
      by (apply In_all_y_coords; exists b; auto).
    assert (In (y_max b) (all_y_coords chip component_positions))
      by (apply In_all_y_coords; exists b; auto).
    repeat split; auto.
  - now apply In_all_x_coords.
  - now apply In_all_x_coords.
  - now apply In_all_y_coords.
  - now apply In_all_y_coords.
Qed.

Lemma clamp01_Rmax_Rmin (v : R) : Rmax 0 (Rmin 1 v) = clamp01 v.
Proof.
  unfold clamp01, Rmax, Rmin.
  destruct (Rlt_dec v 0), (Rlt_dec 1 v), (Rle_dec 1 v);
    try lra; destruct (Rle_dec 0 _); lra.
Qed.

Lemma clamp01_cases (v : R) :
  0 <= clamp01 v <= 1 /\
  ((v < 0 /\ clamp01 v = 0) \/ (1 < v /\ clamp01 v = 1) \/
   (0 <= v <= 1 /\ clamp01 v = v)).
Proof.
  unfold clamp01. destruct (Rlt_dec v 0), (Rlt_dec 1 v); split; lra.
Qed.

(** * Further properties of the code *)

(** ** Geometry of the overlap predicate *)


(** X2.  A larger margin only adds collisions: boxes that overlap with
    margin [m] overlap with every margin [m' >= m], against another box
    and against the chip. *)
Theorem collision_monotone_in_margin (chip : ChipInfo) (b1 b2 : BBox)
    (m m' : R) :
  m <= m' ->
  (_check_bbox_collision b1 b2 m = true ->
   _check_bbox_collision b1 b2 m' = true) /\
  (_check_collision_with_chip chip b1 m = true ->
   _check_collision_with_chip chip b1 m' = true).
Proof.
  intros Hle.
  assert (Hmono : forall A B : BBox,
             _check_bbox_collision A B m = true ->
             _check_bbox_collision A B m' = true).
  { intros A B. rewrite !check_bbox_collision_iff.
    intros H [C | [C | [C | C]]]; apply H; lra. }
  split; [apply Hmono |].
  rewrite !check_collision_with_chip_margin. apply Hmono.
Qed.

(** Boxes 1.5 apart overlap with margin 2.0 because they do with margin
    1.5. *)
Lemma collision_monotone_in_margin_witness :
  1.5 <= 2.0 /\
  _check_bbox_collision (mkBBox 0 1 0 1) (mkBBox 2.5 3 0 1) 2.0 = true.
Proof.
  split; [lra |].
  apply (proj1 (collision_monotone_in_margin chip555 (mkBBox 0 1 0 1)
                  (mkBBox 2.5 3 0 1) 1.5 2.0 ltac:(lra))).
  unfold _check_bbox_collision. cbn. decide_Rltb.
Defined.

(** ** The ideal position *)

Lemma Rsum_perm (l l' : list R) : Permutation l l' -> Rsum l = Rsum l'.
Proof.
  unfold Rsum. induction 1; cbn [fold_right]; lra.
Qed.

Lemma estimate_perm (pins pins' : list Z) :
  Permutation pins pins' -> estimate pins = estimate pins'.
Proof.
  intros Hp. unfold estimate.
  destruct pins as [| pin pins].
  - apply Permutation_nil in Hp. now subst.
  - destruct pins' as [| pin' pins'].
    + apply Permutation_sym, Permutation_nil in Hp. discriminate.
    + unfold mean_point. rewrite !length_map.
      rewrite (Permutation_length Hp).
      rewrite (Rsum_perm _ _ (Permutation_map fst (Permutation_map pin_anchor Hp))).
      rewrite (Rsum_perm _ _ (Permutation_map snd (Permutation_map pin_anchor Hp))).
      reflexivity.
Qed.

(** X3.  The ideal position does not depend on the order of the connected
    pins: two components whose pin lists are rearrangements of each other
    get the same ideal position. *)
Theorem optimal_position_order_independent
    (info info' : list (string * Component)) (id id' : string)
    (c c' : Component) :
  dict_get id info = Some c ->
  dict_get id' info' = Some c' ->
  Permutation (c_connected_pins c) (c_connected_pins c') ->
  _calculate_optimal_position info id =
  _calculate_optimal_position info' id'.
Proof.
  intros Hc Hc' Hp.
  rewrite !calculate_optimal_position_estimate, Hc, Hc'. cbn [option_map].
  f_equal. now apply estimate_perm.
Qed.

Lemma pin_table_offset_bounds (pin : Z) :
  -1 <= snd (_get_pin_position_on_chip pin) <= 1.
Proof.
  unfold _get_pin_position_on_chip.
  repeat match goal with
         | |- context [match ?p with _ => _ end] => destruct p
         end; cbn [snd]; lra.
Qed.

Lemma pin_anchor_bounds (pin : Z) :
  -3 <= fst (pin_anchor pin) <= 3 /\ -2.5 <= snd (pin_anchor pin) <= 2.5.
Proof.
  pose proof (pin_table_offset_bounds pin) as Hoff.
  unfold pin_anchor. destruct (pin_table_sides pin) as [s Hs].
  rewrite Hs in *. rewrite side_of_name_side_name.
  cbn [snd] in Hoff. destruct s; cbn; lra.
Qed.

Lemma Rsum_bounds (lo hi : R) (l : list R) :
  (forall v : R, In v l -> lo <= v <= hi) ->
  INR (List.length l) * lo <= Rsum l <= INR (List.length l) * hi.
Proof.
  unfold Rsum. induction l as [| a l IH]; intros H.
  - simpl. lra.
  - cbn [fold_right List.length]. rewrite S_INR.
    destruct (H a (or_introl eq_refl)).
    destruct IH; [intros v Hv; apply H; now right |]. lra.
Qed.

Lemma mean_bounds (lo hi : R) (l : list R) :
  l <> [] ->
  (forall v : R, In v l -> lo <= v <= hi) ->
  lo <= Rsum l / INR (List.length l) <= hi.
Proof.
  intros Hne H. destruct (Rsum_bounds lo hi l H) as [Hlo Hhi].
  assert (Hn : 0 < INR (List.length l)).
  { apply lt_0_INR. destruct l; [contradiction | simpl; lia]. }
  split.
  - apply Rmult_le_reg_r with (INR (List.length l)); [exact Hn |].
    unfold Rdiv. rewrite Rmult_assoc, Rinv_l by lra. lra.
  - apply Rmult_le_reg_r with (INR (List.length l)); [exact Hn |].
    unfold Rdiv. rewrite Rmult_assoc, Rinv_l by lra. lra.
Qed.

Lemma estimate_bounds (pins : list Z) :
  -3 <= fst (estimate pins) <= 3 /\ -2.5 <= snd (estimate pins) <= 2.5.
Proof.
  unfold estimate. destruct pins as [| pin pins]; [cbn; lra |].
  unfold mean_point. cbn [fst snd]. split.
  - rewrite <- (length_map fst (map pin_anchor (pin :: pins))).
    apply mean_bounds; [discriminate |]. intros v Hv.
    apply in_map_iff in Hv. destruct Hv as (a & <- & Ha).
    apply in_map_iff in Ha. destruct Ha as (p & <- & _).
    apply pin_anchor_bounds.
  - rewrite <- (length_map snd (map pin_anchor (pin :: pins))).
    apply mean_bounds; [discriminate |]. intros v Hv.
    apply in_map_iff in Hv. destruct Hv as (a & <- & Ha).
    apply in_map_iff in Ha. destruct Ha as (p & <- & _).
    apply pin_anchor_bounds.
Qed.

(** X4.  Whatever the connected pins, the ideal position lies in the
    rectangle [-3, 3] x [-2.5, 2.5] around the chip centre. *)
Theorem optimal_position_in_anchor_rectangle
    (component_info : list (string * Component)) (component_id : string)
    (ideal : R * R) :
  _calculate_optimal_position component_info component_id = Some ideal ->
  -3 <= fst ideal <= 3 /\ -2.5 <= snd ideal <= 2.5.
Proof.
  rewrite calculate_optimal_position_estimate.
  destruct (dict_get component_id component_info) as [c |]; [| discriminate].
  cbn [option_map]. intros [= <-]. apply estimate_bounds.
Qed.

Lemma optimal_position_order_independent_witness :
  dict_get "C1" one_capacitor = Some C1_on_pins_2_7 /\
  dict_get "C2" [("C2", C2_on_pins_7_2)] = Some C2_on_pins_7_2 /\
  Permutation (c_connected_pins C1_on_pins_2_7)
    (c_connected_pins C2_on_pins_7_2) /\
  _calculate_optimal_position one_capacitor "C1" =
  _calculate_optimal_position [("C2", C2_on_pins_7_2)] "C2".
Proof.
  assert (Hp : Permutation (c_connected_pins C1_on_pins_2_7)
                 (c_connected_pins C2_on_pins_7_2)) by apply perm_swap.
  repeat split; try reflexivity; [exact Hp |].
  exact (optimal_position_order_independent one_capacitor
           [("C2", C2_on_pins_7_2)] "C1" "C2" _ _ eq_refl eq_refl Hp).
Defined.

Lemma optimal_position_in_anchor_rectangle_witness :
  _calculate_optimal_position one_capacitor "C1" =
  Some (estimate (c_connected_pins C1_on_pins_2_7)) /\
  -3 <= fst (estimate (c_connected_pins C1_on_pins_2_7)) <= 3 /\
  -2.5 <= snd (estimate (c_connected_pins C1_on_pins_2_7)) <= 2.5.
Proof.
  assert (H : _calculate_optimal_position one_capacitor "C1" =
              Some (estimate (c_connected_pins C1_on_pins_2_7))).
  { rewrite calculate_optimal_position_estimate. reflexivity. }
  split; [exact H |].
  exact (optimal_position_in_anchor_rectangle one_capacitor "C1" _ H).
Defined.

(** ** Where the resolver puts a component *)

(** No offset of an attempt before the last reaches further than 21
    units. *)
Lemma spec_offset_bound_21 (attempt : nat) :
  (attempt < 49)%nat ->
  -21 <= fst (spec_offset attempt) <= 21 /\
  -21 <= snd (spec_offset attempt) <= 21.
Proof.
  intros Hlt. unfold spec_offset.
  destruct (Nat.ltb_spec attempt 8) as [_ | Hge]; cbn [fst snd].
  - pose proof (COS_bound (radians (INR attempt * 45))) as [? ?].
    pose proof (SIN_bound (radians (INR attempt * 45))) as [? ?].
    lra.
  - set (a := radians (INR ((attempt * 30) mod 360))).
    pose proof (COS_bound a) as [? ?]. pose proof (SIN_bound a) as [? ?].
    assert (Hle : (attempt <= 48)%nat) by lia.
    apply le_INR in Hge. apply le_INR in Hle.
    replace (INR 8) with 8 in Hge by (simpl; lra).
    replace (INR 48) with 48 in Hle by (simpl; lra).
    cbv zeta. nra.
Qed.

Lemma far_placement_bounds (pins : list Z) :
  -10 <= fst (far_placement pins) <= 10 /\
  -8 <= snd (far_placement pins) <= 8.
Proof.
  destruct pins as [| pin rest]; [cbn; lra |].
  destruct (far_placement_sides pin rest) as (s & offset & Htbl & ->).
  pose proof (pin_table_offset_bounds pin) as Hoff. rewrite Htbl in Hoff.
  cbn [snd] in Hoff. destruct s; cbn; lra.
Qed.

Lemma adjust_position_bounds (component_info : list (string * Component))
    (chip : ChipInfo) (adjusted_positions : list (string * Placed))
    (component_id : string) (x y : R) :
  _adjust_position_to_avoid_collision component_info chip adjusted_positions
    component_id = Some (x, y) ->
  -24 <= x <= 24 /\ -23.5 <= y <= 23.5.
Proof.
  intros Hadj.
  destruct (dict_get component_id component_info) as [c |] eqn:Hget.
  - rewrite (adjust_position_first_free _ _ _ _ _ Hget) in Hadj.
    pose proof (estimate_bounds (c_connected_pins c)) as [Hex Hey].
    destruct (first_free _ 0 max_attempts) as [k |] eqn:Hfirst.
    + apply first_free_some in Hfirst. destruct Hfirst as (Hk & _ & _).
      unfold max_attempts in Hk. injection Hadj as Hxy.
      apply (f_equal fst) in Hxy as Hx. apply (f_equal snd) in Hxy as Hy.
      destruct k as [| attempt]; cbn [candidate fst snd] in Hx, Hy.
      * lra.
      * destruct (spec_offset_bound_21 attempt) as [[? ?] [? ?]]; [lia |].
        lra.
    + pose proof (far_placement_bounds (c_connected_pins c)) as [? ?].
      injection Hadj as Hxy.
      apply (f_equal fst) in Hxy as Hx. apply (f_equal snd) in Hxy as Hy.
      cbn [fst snd] in Hx, Hy. lra.
  - unfold _adjust_position_to_avoid_collision in Hadj.
    rewrite Hget in Hadj. discriminate.
Qed.

Lemma dict_set_In {V : Type} (k k' : string) (v v' : V)
    (d : list (string * V)) :
  In (k', v') (dict_set k v d) -> (k', v') = (k, v) \/ In (k', v') d.
Proof.
  induction d as [| [k0 v0] d IH]; simpl.
  - intros [H | []]. left. now symmetry.
  - destruct (String.eqb_spec k0 k) as [-> | Hne]; simpl.
    + intros [H | H]; [left; now symmetry | right; now right].
    + intros [H | H]; [right; now left |].
      destruct (IH H); [now left | right; now right].
Qed.

(** What holds of the old entries and of every entry a step stores holds
    of all entries of the result. *)
Lemma place_all_invariant (Q : string -> Placed -> Prop)
    (component_info : list (string * Component)) (chip : ChipInfo)
    (todo : list (string * Component)) :
  (forall (id : string) (c : Component)
          (adj : list (string * Placed)) (x y : R),
      In (id, c) todo ->
      _adjust_position_to_avoid_collision component_info chip adj id
      = Some (x, y) ->
      Q id (placed_entry c x y)) ->
  forall adjusted_positions layout : list (string * Placed),
  (forall (id : string) (p : Placed),
      In (id, p) adjusted_positions -> Q id p) ->
  place_all component_info chip todo adjusted_positions = Some layout ->
  forall (id : string) (p : Placed), In (id, p) layout -> Q id p.
Proof.
  induction todo as [| [id0 c0] todo IH]; intros Hstep adj layout Hold Hrun.
  - injection Hrun as <-. exact Hold.
  - cbn [place_all] in Hrun.
    destruct (_adjust_position_to_avoid_collision component_info chip adj id0)
      as [[ax ay] |] eqn:Hadj; [| discriminate].
    fold (placed_entry c0 ax ay) in Hrun.
    apply (IH (fun id c adj x y Hin => Hstep id c adj x y (or_intror Hin))
              (dict_set id0 (placed_entry c0 ax ay) adj) layout);
      [| exact Hrun].
    intros id p Hin. apply dict_set_In in Hin.
    destruct Hin as [[= -> ->] | Hin]; [| now apply Hold].
    apply (Hstep id0 c0 adj ax ay); [now left | exact Hadj].
Qed.

(** X5.  The resolver keeps every component near the chip: in a layout
    resolved from the empty state each position has [|x| <= 24] and
    [|y| <= 23.5], whether it was found by the search or is a far
    placement, and each stored box is the box of that position and of the
    stored width and height. *)
Theorem resolved_positions_bounded
    (component_info : list (string * Component)) (chip : ChipInfo)
    (layout : list (string * Placed)) (id : string) (p : Placed) :
  detect_and_resolve_collisions component_info chip [] = Some layout ->
  In (id, p) layout ->
  -24 <= fst (p_position p) <= 24 /\
  -23.5 <= snd (p_position p) <= 23.5 /\
  p_bbox p =
  _create_bbox_from_position (fst (p_position p)) (snd (p_position p))
    (p_width p) (p_height p).
Proof.
  intros Hrun Hin.
  apply (place_all_invariant
           (fun _ q =>
              -24 <= fst (p_position q) <= 24 /\
              -23.5 <= snd (p_position q) <= 23.5 /\
              p_bbox q =
              _create_bbox_from_position (fst (p_position q))
                (snd (p_position q)) (p_width q) (p_height q))
           component_info chip (sorted_components component_info))
    with (adjusted_positions := []) (layout := layout) (id := id);
    try assumption.
  - intros id0 c adj x y _ Hadj. cbn.
    destruct (adjust_position_bounds _ _ _ _ _ _ Hadj). now repeat split.
  - intros ? ? [].
Qed.

Lemma resolved_positions_bounded_witness :
  detect_and_resolve_collisions one_big_block chip555 [] =
  Some big_block_layout /\
  In ("X1", placed_entry big_block 10.0 6.0) big_block_layout /\
  -24 <= 10.0 <= 24 /\ -23.5 <= 6.0 <= 23.5.
Proof.
  split; [exact big_block_resolved | split; [now left |]].
  destruct (resolved_positions_bounded one_big_block chip555 big_block_layout
              "X1" (placed_entry big_block 10.0 6.0) big_block_resolved
              (or_introl eq_refl)) as (Hx & Hy & _).
  split; [exact Hx | exact Hy].
Defined.

(** X6.  A layout resolved from the empty state, for components with
    distinct ids, has exactly one entry per component, in processing
    order; each entry copies the type, label, width, height and connected
    pins of its component, and its position is what the search returned
    against the entries before it. *)
Theorem resolved_layout_mirrors_processing_order
    (component_info : list (string * Component)) (chip : ChipInfo)
    (layout : list (string * Placed)) :
  NoDup (map fst component_info) ->
  detect_and_resolve_collisions component_info chip [] = Some layout ->
  map fst layout = map fst (sorted_components component_info) /\
  List.length layout = List.length component_info /\
  forall (j : nat) (id : string) (p : Placed),
    nth_error layout j = Some (id, p) ->
    exists c : Component,
      nth_error (sorted_components component_info) j = Some (id, c) /\
      p_type p = c_type c /\ p_label p = c_label c /\
      p_width p = c_width c /\ p_height p = c_height c /\
      p_connected_pins p = c_connected_pins c /\
      _adjust_position_to_avoid_collision component_info chip
        (firstn j layout) id = Some (p_position p).
Proof.
  intros Hnd Hrun.
  pose proof (proj1 (resolved_structure _ _ _ Hnd Hrun)) as Hkeys.
  split; [exact Hkeys | split].
  - rewrite <- (length_map fst layout), Hkeys, length_map.
    symmetry. apply Permutation_length, sorted_components_perm.
  - intros j id p Hj.
    destruct (layout_entry _ _ _ _ _ _ Hnd Hrun Hj)
      as (c & x & y & Hs & _ & Hadj & ->).
    exists c. now repeat split.
Qed.

Lemma resolved_layout_mirrors_processing_order_witness :
  NoDup (map fst two_parts) /\
  detect_and_resolve_collisions two_parts chip_small [] =
  Some two_parts_layout /\
  List.length two_parts_layout = List.length two_parts.
Proof.
  assert (Hnd : NoDup (map fst two_parts)).
  { repeat constructor; simpl; intuition discriminate. }
  split; [exact Hnd | split; [exact two_parts_resolved |]].
  exact (proj1 (proj2 (resolved_layout_mirrors_processing_order two_parts
                         chip_small two_parts_layout Hnd two_parts_resolved))).
Defined.

(** ** Placement and the achieved-ideal flag *)

Lemma sqrt_lt_half (u : R) : 0 <= u -> (sqrt u < 0.5 <-> u < 0.25).
Proof.
  intros Hu. pose proof (sqrt_pos u) as Hpos.
  pose proof (sqrt_sqrt u Hu) as Hsq. split; intros H; nra.
Qed.

(** The flag in terms of the squared distance. *)
Lemma check_if_optimal_position_squared
    (component_info : list (string * Component)) (comp_id : string)
    (position_info : Placed) (ideal : R * R) :
  _calculate_optimal_position component_info comp_id = Some ideal ->
  _check_if_optimal_position component_info comp_id position_info =
  Some (Rltb ((fst ideal - fst (p_position position_info)) ^ 2 +
              (snd ideal - snd (p_position position_info)) ^ 2) 0.25).
Proof.
  intros Hideal. unfold _check_if_optimal_position. rewrite Hideal.
  f_equal. apply eq_iff_eq_true. rewrite !Rltb_true.
  apply sqrt_lt_half. apply Rplus_le_le_0_compat; apply pow2_ge_0.
Qed.

(** X7.  A component whose ideal position is free when it is processed is
    placed exactly there, and its "ideal position achieved" flag is
    true. *)
Theorem free_ideal_position_is_kept
    (component_info : list (string * Component)) (chip : ChipInfo)
    (adjusted_positions : list (string * Placed)) (component_id : string)
    (c : Component) :
  dict_get component_id component_info = Some c ->
  blocked chip adjusted_positions component_id (c_width c) (c_height c)
    (estimate (c_connected_pins c)) = false ->
  _adjust_position_to_avoid_collision component_info chip adjusted_positions
    component_id = Some (estimate (c_connected_pins c)) /\
  _check_if_optimal_position component_info component_id
    (placed_entry c (fst (estimate (c_connected_pins c)))
       (snd (estimate (c_connected_pins c)))) = Some true.
Proof.
  intros Hget Hfree. split.
  - rewrite (adjust_position_first_free _ _ _ _ _ Hget).
    rewrite (first_free_least _ max_attempts 0); try reflexivity.
    + unfold max_attempts. lia.
    + intros j Hj. lia.
    + exact Hfree.
  - rewrite (check_if_optimal_position_squared _ _ _
               (estimate (c_connected_pins c))).
    + f_equal. apply Rltb_true. cbn [placed_entry p_position fst snd pow].
      nra.
    + rewrite calculate_optimal_position_estimate, Hget. reflexivity.
Qed.

Lemma D1_free_at_ideal :
  blocked chip_small [("R1", placed_entry R1_on_pin3 4 0)] "D1"
    (c_width D1_on_pin5) (c_height D1_on_pin5)
    (estimate (c_connected_pins D1_on_pin5)) = false.
Proof.
  rewrite estimate_D1_on_pin5.
  unfold blocked, has_collision, _check_collision_with_chip,
    _check_bbox_collision. cbn. decide_Rltb.
Qed.

Lemma free_ideal_position_is_kept_witness :
  dict_get "D1" two_parts = Some D1_on_pin5 /\
  blocked chip_small [("R1", placed_entry R1_on_pin3 4 0)] "D1"
    (c_width D1_on_pin5) (c_height D1_on_pin5)
    (estimate (c_connected_pins D1_on_pin5)) = false /\
  _adjust_position_to_avoid_collision two_parts chip_small
    [("R1", placed_entry R1_on_pin3 4 0)] "D1" =
  Some (estimate (c_connected_pins D1_on_pin5)).
Proof.
  split; [reflexivity | split; [exact D1_free_at_ideal |]].
  exact (proj1 (free_ideal_position_is_kept two_parts chip_small
                  [("R1", placed_entry R1_on_pin3 4 0)] "D1" D1_on_pin5
                  eq_refl D1_free_at_ideal)).
Defined.

(** The far placement is at least 5.5 units from the ideal position in x
    or in y. *)
Lemma far_placement_far_from_estimate (pins : list Z) :
  5.5 <= Rabs (fst (estimate pins) - fst (far_placement pins)) \/
  5.5 <= Rabs (snd (estimate pins) - snd (far_placement pins)).
Proof.
  pose proof (estimate_bounds pins) as [Hx Hy].
  destruct pins as [| pin rest].
  - left. cbn. unfold Rabs. destruct (Rcase_abs _); lra.
  - destruct (far_placement_sides pin rest) as (s & offset & _ & Hfar).
    rewrite Hfar.
    destruct s; cbn [fst snd]; [left | left | right | right];
      unfold Rabs; destruct (Rcase_abs _); lra.
Qed.

(** X8.  A component that ends on the far placement never has the "ideal
    position achieved" flag: when all 50 candidates collide, the position
    returned is at least 5.5 units from the ideal position in x or in y,
    and the flag is false. *)
Theorem far_placement_is_flagged
    (component_info : list (string * Component)) (chip : ChipInfo)
    (adjusted_positions : list (string * Placed)) (component_id : string)
    (c : Component) :
  dict_get component_id component_info = Some c ->
  (forall j : nat,
      (j < 50)%nat ->
      blocked chip adjusted_positions component_id (c_width c) (c_height c)
        (candidate (estimate (c_connected_pins c)) j) = true) ->
  exists (ideal : R * R) (x y : R),
    _calculate_optimal_position component_info component_id = Some ideal /\
    _adjust_position_to_avoid_collision component_info chip
      adjusted_positions component_id = Some (x, y) /\
    (5.5 <= Rabs (fst ideal - x) \/ 5.5 <= Rabs (snd ideal - y)) /\
    _check_if_optimal_position component_info component_id
      (placed_entry c x y) = Some false.
Proof.
  intros Hget Hall.
  assert (Hideal : _calculate_optimal_position component_info component_id =
                   Some (estimate (c_connected_pins c))).
  { rewrite calculate_optimal_position_estimate, Hget. reflexivity. }
  pose proof (far_placement_far_from_estimate (c_connected_pins c)) as Hfar.
  exists (estimate (c_connected_pins c)),
    (fst (far_placement (c_connected_pins c))),
    (snd (far_placement (c_connected_pins c))).
  split; [exact Hideal | split; [| split; [exact Hfar |]]].
  - rewrite (adjust_position_first_free _ _ _ _ _ Hget).
    rewrite first_free_all_blocked.
    + now destruct (far_placement (c_connected_pins c)).
    + intros j Hj. apply Hall. unfold max_attempts in Hj. lia.
  - rewrite (check_if_optimal_position_squared _ _ _ _ Hideal).
    f_equal. apply Rltb_false. cbn [placed_entry p_position fst snd pow].
    set (dx := fst (estimate (c_connected_pins c)) -
               fst (far_placement (c_connected_pins c))) in *.
    set (dy := snd (estimate (c_connected_pins c)) -
               snd (far_placement (c_connected_pins c))) in *.
    intros Hlt.
    destruct Hfar as [H | H]; revert H; unfold Rabs; destruct (Rcase_abs _);
      intros H; nra.
Qed.

(** The 50-by-50 block without pins: its ideal position is [(2, 2)], every
    candidate collides with the chip, and it ends on [(10, 6)], 8 units
    from the ideal position in x. *)
Lemma far_placement_is_flagged_witness :
  dict_get "X1" one_big_block = Some big_block /\
  (forall j : nat,
      (j < 50)%nat ->
      blocked chip555 [] "X1" (c_width big_block) (c_height big_block)
        (candidate (estimate (c_connected_pins big_block)) j) = true) /\
  _calculate_optimal_position one_big_block "X1" = Some (2.0, 2.0) /\
  _adjust_position_to_avoid_collision one_big_block chip555 [] "X1" =
  Some (10.0, 6.0) /\
  5.5 <= Rabs (2.0 - 10.0) /\
  _check_if_optimal_position one_big_block "X1"
    (placed_entry big_block 10.0 6.0) = Some false.
Proof.
  split; [reflexivity | split; [apply big_block_blocked |]].
  destruct (far_placement_is_flagged one_big_block chip555 [] "X1" big_block
              eq_refl (big_block_blocked []))
    as (ideal & x & y & Hideal & Hadj & _ & Hflag).
  rewrite (big_block_far_placed one_big_block [] eq_refl) in Hadj.
  injection Hadj as <- <-.
  split; [reflexivity |].
  split; [exact (big_block_far_placed one_big_block [] eq_refl) |].
  split; [| exact Hflag].
  unfold Rabs. destruct (Rcase_abs _); lra.
Defined.

(** ** Counting dicts *)

Lemma dict_get_set_same {V : Type} (k : string) (v : V)
    (d : list (string * V)) :
  dict_get k (dict_set k v d) = Some v.
Proof.
  induction d as [| [k0 v0] d IH]; simpl.
  - now rewrite String.eqb_refl.
  - destruct (String.eqb_spec k0 k) as [-> | Hne]; simpl.
    + now rewrite String.eqb_refl.
    + destruct (String.eqb_spec k0 k); [contradiction | exact IH].
Qed.

Lemma dict_get_set_other {V : Type} (k k' : string) (v : V)
    (d : list (string * V)) :
  k' <> k -> dict_get k' (dict_set k v d) = dict_get k' d.
Proof.
  intros Hne. induction d as [| [k0 v0] d IH]; simpl.
  - destruct (String.eqb_spec k k'); [congruence | reflexivity].
  - destruct (String.eqb_spec k0 k) as [-> | Hne0]; simpl.
    + destruct (String.eqb_spec k k'); [congruence | reflexivity].
    + destruct (String.eqb_spec k0 k'); [reflexivity | exact IH].
Qed.

Lemma dict_set_sum (k : string) (v : nat) (d : list (string * nat)) :
  (list_sum (map snd (dict_set k v d)) +
   match dict_get k d with Some n => n | None => 0 end)%nat =
  (list_sum (map snd d) + v)%nat.
Proof.
  induction d as [| [k0 v0] d IH]; simpl.
  - lia.
  - destruct (String.eqb_spec k0 k) as [-> | Hne]; simpl; lia.
Qed.

Lemma dict_set_keys_present {V : Type} (k : string) (v : V)
    (d : list (string * V)) :
  In k (map fst d) -> map fst (dict_set k v d) = map fst d.
Proof.
  induction d as [| [k0 v0] d IH]; simpl; [contradiction |].
  destruct (String.eqb_spec k0 k) as [-> | Hne]; simpl; [reflexivity |].
  intros [H | H]; [contradiction | now rewrite IH].
Qed.

Lemma dict_get_None {V : Type} (k : string) (d : list (string * V)) :
  dict_get k d = None <-> ~ In k (map fst d).
Proof.
  split.
  - intros Hnone Hin. destruct (dict_get_In k d Hin) as [v Hv]. congruence.
  - intros Hnotin. destruct (dict_get k d) as [v |] eqn:E; [| reflexivity].
    exfalso. apply Hnotin. clear Hnotin.
    induction d as [| [k0 v0] d IH]; simpl in *; [discriminate |].
    destruct (String.eqb_spec k0 k); [now left | right; now apply IH].
Qed.

Lemma dict_incr_spec (k : string) (d d' : list (string * nat)) :
  dict_incr k d = Some d' ->
  exists n : nat,
    dict_get k d = Some n /\ dict_get k d' = Some (n + 1)%nat /\
    (forall k' : string, k' <> k -> dict_get k' d' = dict_get k' d) /\
    list_sum (map snd d') = (list_sum (map snd d) + 1)%nat /\
    map fst d' = map fst d.
Proof.
  unfold dict_incr. destruct (dict_get k d) as [n |] eqn:Hget; [| discriminate].
  intros [= <-]. exists n. repeat split.
  - apply dict_get_set_same.
  - intros k' Hne. now apply dict_get_set_other.
  - pose proof (dict_set_sum k (n + 1) d) as H. rewrite Hget in H. lia.
  - apply dict_set_keys_present.
    destruct (in_dec string_dec k (map fst d)) as [Hin | Hnotin];
      [exact Hin |].
    apply dict_get_None in Hnotin. congruence.
Qed.

(** ** The distribution of the components *)

Lemma counted_succ (n : nat) : counted (n + 1) = Some (n + 1)%nat.
Proof. unfold counted. destruct (Nat.eqb_spec (n + 1) 0); [lia | reflexivity]. Qed.

(** One step of the distribution loop counts the component once in each
    classification. *)
Lemma distribution_step_counts (chip_center : R * R) (d : Distribution)
    (pos_info : Placed) (count : string -> nat) :
  (forall t : string, dict_get t (by_type d) = counted (count t)) ->
  exists d' : Distribution,
    distribution_step chip_center d pos_info = Some d' /\
    (side_left d' + side_right d' = side_left d + side_right d + 1)%nat /\
    (side_top d' + side_bottom d' = side_top d + side_bottom d + 1)%nat /\
    (distance_near d' + distance_medium d' + distance_far d' =
     distance_near d + distance_medium d + distance_far d + 1)%nat /\
    list_sum (map snd (by_type d')) =
    (list_sum (map snd (by_type d)) + 1)%nat /\
    forall t : string,
      dict_get t (by_type d') =
      counted (if string_dec (p_type pos_info) t then count t + 1
               else count t).
Proof.
  intros Hcount. unfold distribution_step.
  set (t0 := p_type pos_info).
  set (bt0 := match dict_get t0 (by_type d) with
              | None => dict_set t0 0%nat (by_type d)
              | Some _ => by_type d
              end).
  assert (Hbt0 : exists n : nat,
             dict_get t0 bt0 = Some n /\ n = count t0 /\
             (forall t, t <> t0 -> dict_get t bt0 = dict_get t (by_type d)) /\
             list_sum (map snd bt0) = list_sum (map snd (by_type d))).
  { subst bt0. pose proof (Hcount t0) as H0.
    destruct (dict_get t0 (by_type d)) as [n |] eqn:Hget.
    - exists n. unfold counted in H0.
      destruct (Nat.eqb_spec (count t0) 0); [discriminate |].
      injection H0 as ->. now repeat split.
    - exists 0%nat. unfold counted in H0.
      destruct (Nat.eqb_spec (count t0) 0) as [Hz |]; [| discriminate].
      repeat split.
      + apply dict_get_set_same.
      + now symmetry.
      + intros t Hne. now apply dict_get_set_other.
      + pose proof (dict_set_sum t0 0 (by_type d)) as H.
        rewrite Hget in H. lia. }
  destruct Hbt0 as (n & Hn & Hnc & Hother & Hsum).
  unfold dict_incr. rewrite Hn.
  eexists; split; [reflexivity |]. cbn [side_left side_right side_top
    side_bottom distance_near distance_medium distance_far by_type].
  repeat split.
  - destruct (Rltb _ _); lia.
  - destruct (Rltb _ _); lia.
  - destruct (Rltb _ 3); [lia |]. destruct (Rltb _ 6); lia.
  - pose proof (dict_set_sum t0 (n + 1) bt0) as H. rewrite Hn in H. lia.
  - intros t. destruct (string_dec t0 t) as [<- | Hne].
    + rewrite dict_get_set_same, <- Hnc. now rewrite counted_succ.
    + rewrite dict_get_set_other by congruence.
      rewrite Hother by congruence. apply Hcount.
Qed.

Lemma analyze_distribution_from (chip : ChipInfo)
    (rest seen : list (string * Placed)) (d : Distribution) :
  (forall t : string, dict_get t (by_type d) = counted (count_type t seen)) ->
  exists d' : Distribution,
    fold_left
      (fun acc entry =>
         match acc with
         | None => None
         | Some distribution =>
             distribution_step (chip_position chip) distribution (snd entry)
         end) rest (Some d) = Some d' /\
    (side_left d' + side_right d' =
     side_left d + side_right d + List.length rest)%nat /\
    (side_top d' + side_bottom d' =
     side_top d + side_bottom d + List.length rest)%nat /\
    (distance_near d' + distance_medium d' + distance_far d' =
     distance_near d + distance_medium d + distance_far d +
     List.length rest)%nat /\
    list_sum (map snd (by_type d')) =
    (list_sum (map snd (by_type d)) + List.length rest)%nat /\
    forall t : string,
      dict_get t (by_type d') = counted (count_type t (seen ++ rest)).
Proof.
  revert seen d. induction rest as [| entry rest IH]; intros seen d Hcount.
  - exists d. rewrite app_nil_r. cbn. repeat split; try lia. exact Hcount.
  - cbn [fold_left].
    destruct (distribution_step_counts (chip_position chip) d (snd entry)
                (fun t => count_type t seen) Hcount)
      as (d1 & -> & Hs & Ht & Hd & Hsum & Hcount1).
    destruct (IH (seen ++ [entry]) d1) as (d' & Hfold & Hs' & Ht' & Hd' & Hsum' & Hc').
    { intros t. rewrite Hcount1. f_equal. unfold count_type.
      rewrite map_app, count_occ_app. cbn [map count_occ].
      destruct (string_dec (p_type (snd entry)) t); lia. }
    exists d'. split; [exact Hfold |]. cbn [List.length].
    repeat split; try lia.
    intros t. rewrite Hc'. now rewrite <- app_assoc.
Qed.

(** X11.  The distribution report counts every component exactly once in
    each classification and never fails: left + right, top + bottom and
    near + medium + far all equal the number of components, and [by_type]
    holds, for each type that occurs, the number of components of that
    type (and no entry for other types), which sum to the number of
    components too. *)
Theorem distribution_counts_every_component_once (chip : ChipInfo)
    (component_positions : list (string * Placed)) :
  exists d : Distribution,
    _analyze_component_distribution chip component_positions = Some d /\
    (side_left d + side_right d)%nat = List.length component_positions /\
    (side_top d + side_bottom d)%nat = List.length component_positions /\
    (distance_near d + distance_medium d + distance_far d)%nat =
    List.length component_positions /\
    list_sum (map snd (by_type d)) = List.length component_positions /\
    forall t : string,
      dict_get t (by_type d) =
      if (count_type t component_positions =? 0)%nat then None
      else Some (count_type t component_positions).
Proof.
  destruct (analyze_distribution_from chip component_positions []
              (mkDistribution 0 0 0 0 0 0 0 []))
    as (d & Hfold & Hs & Ht & Hd & Hsum & Hcount).
  - intros t. reflexivity.
  - exists d. split; [exact Hfold |]. cbn in Hs, Ht, Hd, Hsum.
    repeat split; try lia. exact Hcount.
Qed.

(** ** The statistics *)

Lemma optimal_count_le (component_info : list (string * Component))
    (component_positions : list (string * Placed)) :
  (forall entry : string * Placed,
      In entry component_positions ->
      In (fst entry) (map fst component_info)) ->
  exists count : nat,
    optimal_count component_info component_positions = Some count /\
    (count <= List.length component_positions)%nat.
Proof.
  induction component_positions as [| [id p] rest IH]; intros Hkeys.
  - exists 0%nat. split; [reflexivity | simpl; lia].
  - destruct IH as (n & Hn & Hle).
    { intros entry Hin. apply Hkeys. now right. }
    destruct (dict_get_In _ _ (Hkeys (id, p) (or_introl eq_refl)))
      as [c Hget].
    cbn [fst] in Hget.
    cbn [optimal_count]. unfold _check_if_optimal_position.
    rewrite calculate_optimal_position_estimate, Hget. cbn [option_map].
    rewrite Hn. eexists; split; [reflexivity |].
    destruct (Rltb _ 0.5); simpl; lia.
Qed.

(** X12.  For a resolved layout the achieved-ideal rate is always
    defined, lies between 0 and 100, and is 0 for an empty layout instead
    of a division by zero. *)
Theorem optimal_rate_is_a_percentage
    (component_info : list (string * Component)) (chip : ChipInfo)
    (layout : list (string * Placed)) :
  detect_and_resolve_collisions component_info chip [] = Some layout ->
  exists (count : nat) (rate : R),
    optimal_count component_info layout = Some count /\
    (count <= List.length layout)%nat /\
    optimal_rate component_info layout = Some rate /\
    0 <= rate <= 100 /\
    (layout = [] -> rate = 0).
Proof.
  intros Hrun.
  destruct (optimal_count_le component_info layout) as (count & Hcount & Hle).
  { intros [id p] Hin.
    destruct (place_all_keys _ _ _ _ _ Hrun id) as [[] | Hs].
    - now apply (in_map fst _ (id, p)).
    - eapply Permutation_in; [| exact Hs].
      symmetry. apply Permutation_map, sorted_components_perm. }
  unfold optimal_rate. rewrite Hcount.
  exists count. eexists. split; [reflexivity | split; [exact Hle |]].
  split; [reflexivity |].
  destruct layout as [| entry rest]; [split; [lra | reflexivity] |].
  split; [| discriminate].
  assert (Hn : 0 < INR (List.length (entry :: rest)))
    by (apply lt_0_INR; simpl; lia).
  apply le_INR in Hle. pose proof (pos_INR count) as Hpos.
  assert (H : 0 <= INR count / INR (List.length (entry :: rest)) <= 1).
  { split.
    - apply Rmult_le_pos; [exact Hpos |].
      left. now apply Rinv_0_lt_compat.
    - apply Rmult_le_reg_r with (INR (List.length (entry :: rest)));
        [exact Hn |].
      unfold Rdiv. rewrite Rmult_assoc, Rinv_l by lra. lra. }
  lra.
Qed.

Lemma optimal_rate_is_a_percentage_witness :
  detect_and_resolve_collisions two_parts chip_small [] =
  Some two_parts_layout /\
  exists rate : R,
    optimal_rate two_parts two_parts_layout = Some rate /\ 0 <= rate <= 100.
Proof.
  split; [exact two_parts_resolved |].
  destruct (optimal_rate_is_a_percentage two_parts chip_small two_parts_layout
              two_parts_resolved) as (count & rate & _ & _ & Hrate & Hb & _).
  exists rate. now split.
Defined.

Lemma fold_left_Rplus_nonneg (l : list R) (a : R) :
  0 <= a -> (forall v : R, In v l -> 0 <= v) -> 0 <= fold_left Rplus l a.
Proof.
  revert a. induction l as [| x l IH]; intros a Ha Hl; [exact Ha |].
  cbn [fold_left]. apply IH.
  - pose proof (Hl x (or_introl eq_refl)). lra.
  - intros v Hv. apply Hl. now right.
Qed.

(** X13.  The layout area and the density are always defined.  The area
    is never negative, the density is 0 rather than a division by zero
    when the area is 0, and it is not negative when no component has a
    negative width or height. *)
Theorem layout_area_and_density_defined (chip : ChipInfo)
    (component_positions : list (string * Placed)) :
  exists area density : R,
    total_layout_area chip component_positions = Some area /\
    layout_density chip component_positions = Some density /\
    0 <= area /\
    (area = 0 -> density = 0) /\
    ((forall entry : string * Placed,
         In entry component_positions ->
         0 <= p_width (snd entry) /\ 0 <= p_height (snd entry)) ->
     0 <= density).
Proof.
  destruct (overall_bbox_union chip component_positions)
    as (U & HU & Hin & _).
  assert (Hchip : In (edges (chip_bbox chip))
                    (entity_boxes chip component_positions)) by now left.
  pose proof (Hin _ Hchip) as (Hx & _ & Hy & _).
  set (area := (x_max U - x_min U) * (y_max U - y_min U)).
  assert (Harea : 0 <= area) by (apply Rmult_le_pos; lra).
  assert (Htla : total_layout_area chip component_positions = Some area).
  { unfold total_layout_area. now rewrite HU. }
  exists area. eexists.
  split; [exact Htla |].
  split; [unfold layout_density; rewrite Htla; reflexivity |].
  split; [exact Harea | split].
  - intros H0. destruct (Rltb_reflect 0 area); [lra | reflexivity].
  - intros Hsizes. destruct (Rltb_reflect 0 area) as [Hpos |]; [| lra].
    assert (Htca : 0 <= total_component_area component_positions).
    { unfold total_component_area. apply fold_left_Rplus_nonneg; [lra |].
      intros v Hv. apply in_map_iff in Hv. destruct Hv as (entry & <- & He).
      destruct (Hsizes entry He). now apply Rmult_le_pos. }
    apply Rmult_le_pos; [| lra].
    apply Rmult_le_pos; [exact Htca |]. left. now apply Rinv_0_lt_compat.
Qed.

(** ** The order of strings *)

Lemma string_compare_refl (s : string) : String.compare s s = Eq.
Proof.
  induction s as [| a s IH]; simpl; [reflexivity |].
  unfold Ascii.compare. now rewrite N.compare_refl.
Qed.

Lemma string_compare_lt_trans (a b c : string) :
  String.compare a b = Lt -> String.compare b c = Lt ->
  String.compare a c = Lt.
Proof.
  revert b c. induction a as [| x a IH]; intros [| y b] [| z c]; simpl;
    try discriminate; try reflexivity.
  destruct (Ascii.compare x y) eqn:Exy; try discriminate.
  - apply Ascii.compare_eq_iff in Exy. subst y.
    destruct (Ascii.compare x z); try discriminate; [apply IH | reflexivity].
  - intros _. destruct (Ascii.compare y z) eqn:Eyz; try discriminate.
    + apply Ascii.compare_eq_iff in Eyz. subst z. now rewrite Exy.
    + intros _. unfold Ascii.compare in *.
      rewrite N.compare_lt_iff in Exy, Eyz.
      assert (H : (Ascii.N_of_ascii x < Ascii.N_of_ascii z)%N) by lia.
      apply N.compare_lt_iff in H. now rewrite H.
Qed.

Lemma string_lt_trans (a b c : string) :
  string_lt a b -> string_lt b c -> string_lt a c.
Proof.
  unfold string_lt, String.ltb. intros Hab Hbc.
  destruct (String.compare a b) eqn:Eab; try discriminate.
  destruct (String.compare b c) eqn:Ebc; try discriminate.
  now rewrite (string_compare_lt_trans a b c Eab Ebc).
Qed.

Lemma string_lt_irrefl (a : string) : ~ string_lt a a.
Proof.
  unfold string_lt, String.ltb. rewrite string_compare_refl. discriminate.
Qed.

Lemma string_lt_total (a b : string) :
  a <> b -> String.ltb a b = false -> string_lt b a.
Proof.
  unfold string_lt, String.ltb. intros Hne.
  rewrite (String.compare_antisym b a).
  destruct (String.compare a b) eqn:E; try discriminate.
  - apply String.compare_eq_iff in E. contradiction.
  - reflexivity.
Qed.

(** ** The class mapping *)

Lemma insert_sorted_unique_In (s t : string) (l : list string) :
  In t (insert_sorted_unique s l) <-> t = s \/ In t l.
Proof.
  induction l as [| x l IH]; simpl; [intuition |].
  destruct (String.eqb_spec s x) as [-> | Hne]; [simpl; intuition |].
  destruct (String.ltb s x); simpl; [intuition |].
  rewrite IH. intuition.
Qed.

Lemma insert_sorted_unique_sorted (s : string) (l : list string) :
  StronglySorted string_lt l ->
  StronglySorted string_lt (insert_sorted_unique s l).
Proof.
  induction 1 as [| x l Hs IH Hall]; simpl; [repeat constructor |].
  destruct (String.eqb_spec s x) as [-> | Hne]; [now constructor |].
  destruct (String.ltb s x) eqn:Hlt.
  - constructor; [now constructor |].
    constructor; [exact Hlt |].
    eapply Forall_impl; [| exact Hall].
    intros y Hy. now apply (string_lt_trans s x y).
  - constructor; [exact IH |].
    apply Forall_forall. intros y Hy. apply insert_sorted_unique_In in Hy.
    destruct Hy as [-> | Hy].
    + now apply string_lt_total.
    + rewrite Forall_forall in Hall. now apply Hall.
Qed.

Lemma fold_insert_sorted_unique (ts acc : list string) :
  StronglySorted string_lt acc ->
  StronglySorted string_lt
    (fold_left (fun acc t => insert_sorted_unique t acc) ts acc) /\
  forall t : string,
    In t (fold_left (fun acc t => insert_sorted_unique t acc) ts acc) <->
    In t ts \/ In t acc.
Proof.
  revert acc. induction ts as [| t0 ts IH]; intros acc Hs; cbn [fold_left].
  - split; [exact Hs |]. simpl. intuition.
  - destruct (IH _ (insert_sorted_unique_sorted t0 acc Hs)) as [Hs' Hin].
    split; [exact Hs' |]. intros t. rewrite Hin, insert_sorted_unique_In.
    simpl. intuition.
Qed.

Lemma sorted_lt_NoDup (l : list string) :
  StronglySorted string_lt l -> NoDup l.
Proof.
  induction 1 as [| x l Hs IH Hall]; constructor; [| exact IH].
  intros Hin. rewrite Forall_forall in Hall.
  exact (string_lt_irrefl x (Hall x Hin)).
Qed.

(** Enumerating a list without repetition: the id of an element is its
    place in the list. *)
Lemma dict_get_enumerate (l : list string) (a : nat) (t : string) (i : nat) :
  NoDup l ->
  (dict_get t (combine l (seq a (List.length l))) = Some i <->
   (a <= i)%nat /\ nth_error l (i - a) = Some t).
Proof.
  revert a. induction l as [| x l IH]; intros a Hnd.
  - simpl. split; [discriminate |]. intros [_ H].
    destruct (i - a)%nat; discriminate.
  - inversion Hnd as [| ? ? Hnotin Hnd']; subst.
    cbn [List.length seq combine dict_get].
    destruct (String.eqb_spec x t) as [-> | Hne].
    + split.
      * intros [= <-]. split; [lia |]. now rewrite Nat.sub_diag.
      * intros [Hle Hnth]. destruct (i - a)%nat as [| k] eqn:Hk.
        -- f_equal. lia.
        -- cbn in Hnth. apply nth_error_In in Hnth. contradiction.
    + rewrite (IH (S a) Hnd'). split.
      * intros [Hle Hnth]. split; [lia |].
        replace (i - a)%nat with (S (i - S a)) by lia. exact Hnth.
      * intros [Hle Hnth]. destruct (i - a)%nat as [| k] eqn:Hk.
        -- cbn in Hnth. congruence.
        -- cbn in Hnth. split; [lia |].
           replace (i - S a)%nat with k by lia. exact Hnth.
Qed.

Lemma sorted_types_spec (component_positions : list (string * Placed)) :
  StronglySorted string_lt (sorted_types component_positions) /\
  forall t : string,
    In t (sorted_types component_positions) <->
    t = "chip" \/
    exists entry : string * Placed,
      In entry component_positions /\ p_type (snd entry) = t.
Proof.
  unfold sorted_types.
  destruct (fold_insert_sorted_unique
              (map (fun pos => p_type (snd pos)) component_positions ++ ["chip"])
              []) as [Hs Hin]; [constructor |].
  split; [exact Hs |]. intros t. rewrite Hin, in_app_iff, in_map_iff.
  simpl. split.
  - intros [[(entry & H1 & H2) | [H | []]] | []]; [right | left]; eauto.
  - intros [-> | (entry & H1 & H2)]; left; [right; now left | left; eauto].
Qed.

(** X14.  The class names are the types of the layout together with
    ['chip'], each once, in ascending order; the class id of a name is its
    place in that list, so names and ids determine each other and every
    component type, and ['chip'], has an id. *)
Theorem class_mapping_enumerates_sorted_types
    (component_positions : list (string * Placed)) :
  let class_mapping := fst (_get_component_class_mapping component_positions) in
  let class_names := snd (_get_component_class_mapping component_positions) in
  StronglySorted string_lt class_names /\
  NoDup class_names /\
  (forall t : string,
      In t class_names <->
      t = "chip" \/
      exists entry : string * Placed,
        In entry component_positions /\ p_type (snd entry) = t) /\
  (forall (t : string) (i : nat),
      dict_get t class_mapping = Some i <-> nth_error class_names i = Some t) /\
  (exists i : nat, dict_get "chip" class_mapping = Some i).
Proof.
  cbv zeta. unfold _get_component_class_mapping. cbn [fst snd].
  destruct (sorted_types_spec component_positions) as [Hs Hin].
  pose proof (sorted_lt_NoDup _ Hs) as Hnd.
  assert (Hmap : forall (t : string) (i : nat),
             dict_get t (combine (sorted_types component_positions)
                           (seq 0 (List.length (sorted_types component_positions))))
             = Some i <->
             nth_error (sorted_types component_positions) i = Some t).
  { intros t i. rewrite (dict_get_enumerate _ 0 t i Hnd).
    rewrite Nat.sub_0_r. split; [now intros [_ H] | intros H; split; [lia | exact H]]. }
  split; [exact Hs | split; [exact Hnd | split; [exact Hin | split]]].
  - exact Hmap.
  - assert (Hchip : In "chip" (sorted_types component_positions))
      by (apply Hin; now left).
    apply In_nth_error in Hchip. destruct Hchip as [i Hi].
    exists i. now apply Hmap.
Qed.

(** ** Counting the annotated objects *)

Lemma map_fst_combine_seq (l : list string) (a : nat) :
  map fst (combine l (seq a (List.length l))) = l.
Proof.
  revert a. induction l as [| x l IH]; intros a; simpl; [reflexivity |].
  now rewrite IH.
Qed.

Lemma zero_counts_enumerate (l : list string) (a : nat) :
  map (fun item : string * nat => (fst item, 0%nat))
    (combine l (seq a (List.length l))) =
  map (fun k : string => (k, 0%nat)) l.
Proof.
  revert a. induction l as [| x l IH]; intros a; simpl; [reflexivity |].
  now rewrite IH.
Qed.

Lemma zero_counts (keys : list string) :
  list_sum (map snd (map (fun k : string => (k, 0%nat)) keys)) = 0%nat /\
  forall t : string,
    In t keys ->
    dict_get t (map (fun k : string => (k, 0%nat)) keys) = Some 0%nat.
Proof.
  induction keys as [| k keys [IHs IHg]]; simpl; [split; [reflexivity | tauto] |].
  split; [exact IHs |].
  intros t [-> | Hin]; [now rewrite String.eqb_refl |].
  destruct (String.eqb k t); [reflexivity | now apply IHg].
Qed.

Lemma class_counts_from (keys : list string)
    (rest seen : list (string * Placed)) (d : list (string * nat)) :
  map fst d = keys ->
  (forall entry : string * Placed,
      In entry rest -> In (p_type (snd entry)) keys) ->
  (forall t : string,
      In t keys ->
      dict_get t d =
      Some (count_type t seen + if string_dec t "chip" then 1 else 0)%nat) ->
  exists d' : list (string * nat),
    fold_left
      (fun acc entry =>
         match acc with
         | None => None
         | Some counts => dict_incr (p_type (snd entry)) counts
         end) rest (Some d) = Some d' /\
    map fst d' = keys /\
    list_sum (map snd d') = (list_sum (map snd d) + List.length rest)%nat /\
    forall t : string,
      In t keys ->
      dict_get t d' =
      Some (count_type t (seen ++ rest) +
            if string_dec t "chip" then 1 else 0)%nat.
Proof.
  revert seen d. induction rest as [| entry rest IH];
    intros seen d Hkeys Htypes Hcount.
  - exists d. rewrite app_nil_r. cbn. repeat split; auto; lia.
  - cbn [fold_left].
    assert (Hin : In (p_type (snd entry)) keys)
      by (apply Htypes; now left).
    destruct (dict_incr (p_type (snd entry)) d) as [d1 |] eqn:Hincr.
    + destruct (dict_incr_spec _ _ _ Hincr)
        as (n & Hn & Hn1 & Hother & Hsum & Hk1).
      destruct (IH (seen ++ [entry]) d1) as (d' & Hfold & Hk' & Hsum' & Hc').
      * congruence.
      * intros e He. apply Htypes. now right.
      * intros t Ht. unfold count_type. rewrite map_app, count_occ_app.
        cbn [map count_occ].
        destruct (string_dec (p_type (snd entry)) t) as [<- | Hne].
        -- rewrite Hn1. rewrite (Hcount _ Hin) in Hn. injection Hn as <-.
           f_equal. unfold count_type. lia.
        -- rewrite Hother by congruence. rewrite (Hcount t Ht).
           f_equal. unfold count_type. lia.
      * exists d'. split; [exact Hfold | split; [exact Hk' |]].
        cbn [List.length]. split; [lia |].
        intros t Ht. rewrite (Hc' t Ht). now rewrite <- app_assoc.
    + exfalso. unfold dict_incr in Hincr.
      rewrite (Hcount _ Hin) in Hincr. discriminate.
Qed.

(** X15.  The object count of the dataset statistics never fails and is
    the number of components plus one for the chip; the count of each
    class is the number of components of that type, plus one for
    ['chip']. *)
Theorem total_objects_is_components_plus_chip
    (component_positions : list (string * Placed)) :
  exists counts : list (string * nat),
    class_counts component_positions = Some counts /\
    total_objects component_positions =
    Some (List.length component_positions + 1)%nat /\
    map fst counts = sorted_types component_positions /\
    forall t : string,
      In t (sorted_types component_positions) ->
      dict_get t counts =
      Some (count_type t component_positions +
            if string_dec t "chip" then 1 else 0)%nat.
Proof.
  destruct (sorted_types_spec component_positions) as [_ Hin].
  set (keys := sorted_types component_positions) in *.
  set (zeros := map (fun item : string * nat => (fst item, 0%nat))
                  (combine keys (seq 0 (List.length keys)))).
  assert (Hzeros : zeros = map (fun k : string => (k, 0%nat)) keys).
  { subst zeros. apply zero_counts_enumerate. }
  destruct (zero_counts keys) as [Hsum0 Hget0].
  assert (Hchip : In "chip" keys) by (apply Hin; now left).
  destruct (class_counts_from keys component_positions []
              (dict_set "chip" 1%nat zeros))
    as (counts & Hfold & Hkeys & Hsum & Hcount).
  - rewrite dict_set_keys_present; rewrite Hzeros, map_map; cbn [fst];
      rewrite map_id; [reflexivity | exact Hchip].
  - intros entry He. apply Hin. right. now exists entry.
  - intros t Ht. cbn [count_type]. unfold count_type. cbn [map count_occ].
    destruct (string_dec t "chip") as [-> | Hne].
    + now rewrite dict_get_set_same.
    + rewrite dict_get_set_other by exact Hne.
      rewrite Hzeros. now apply Hget0.
  - exists counts.
    assert (Hcc : class_counts component_positions = Some counts).
    { unfold class_counts, _get_component_class_mapping. cbn [fst].
      exact Hfold. }
    split; [exact Hcc |]. unfold total_objects. rewrite Hcc. cbn [option_map].
    split; [| split; [exact Hkeys | exact Hcount]].
    f_equal. rewrite Hsum.
    pose proof (dict_set_sum "chip" 1 zeros) as H.
    rewrite Hzeros in H at 2 3. rewrite (Hget0 "chip" Hchip), Hsum0 in H.
    lia.
Qed.

(** ** The reader: initial position and sizes *)

(** X16.  The reader's initial position and the detector's ideal position
    are the same point for every component whose [connected_pins] are the
    reader's (as [get_component_info] sets them): the two copies of the
    estimator agree. *)
Theorem initial_position_is_optimal_position
    (component_to_pins : list (string * list Z))
    (component_info : list (string * Component)) (id : string)
    (c : Component) :
  dict_get id component_info = Some c ->
  c_connected_pins c =
  JsonReaderAndDrawer.connected_pins component_to_pins id ->
  _calculate_optimal_position component_info id =
  Some (JsonReaderAndDrawer._calculate_initial_component_position
          component_to_pins id).
Proof.
  intros Hget Hpins.
  unfold _calculate_optimal_position,
    JsonReaderAndDrawer._calculate_initial_component_position.
  rewrite Hget. cbv zeta. rewrite Hpins.
  unfold JsonReaderAndDrawer.connected_pins.
  destruct (dict_get id component_to_pins) as [[| pin pins] |];
    try reflexivity.
  change JsonReaderAndDrawer.initial_step with optimal_step.
  now destruct (fold_left optimal_step (pin :: pins) (0.0, 0.0)).
Qed.

Lemma initial_position_is_optimal_position_witness :
  dict_get "C1" one_capacitor = Some C1_on_pins_2_7 /\
  c_connected_pins C1_on_pins_2_7 =
  JsonReaderAndDrawer.connected_pins [("C1", [2%Z; 7%Z])] "C1" /\
  _calculate_optimal_position one_capacitor "C1" =
  Some (JsonReaderAndDrawer._calculate_initial_component_position
          [("C1", [2%Z; 7%Z])] "C1").
Proof.
  split; [reflexivity | split; [reflexivity |]].
  exact (initial_position_is_optimal_position [("C1", [2%Z; 7%Z])]
           one_capacitor "C1" C1_on_pins_2_7 eq_refl eq_refl).
Defined.

Lemma dict_get_Some_In {V : Type} (k : string) (v : V)
    (d : list (string * V)) :
  dict_get k d = Some v -> In (k, v) d.
Proof.
  induction d as [| [k0 v0] d IH]; simpl; [discriminate |].
  destruct (String.eqb_spec k0 k) as [-> | Hne].
  - intros [= ->]. now left.
  - intros H. right. now apply IH.
Qed.

Lemma param_nonneg (params : list (string * R)) (name : string)
    (default : R) :
  (forall (n : string) (v : R), In (n, v) params -> 0 <= v) ->
  0 <= default ->
  0 <= JsonReaderAndDrawer.param params name default.
Proof.
  intros Hall Hd. unfold JsonReaderAndDrawer.param.
  destruct (dict_get name params) as [v |] eqn:E; [| exact Hd].
  apply (Hall name v). now apply dict_get_Some_In.
Qed.

(** X17.  The size of a component: a ['layout_size'] with both keys is
    taken as it is, whatever its sign, and before ['size']; a
    ['layout_size'] that lacks a key gives the fallback [(2.0, 1.0)] even
    if a complete ['size'] is there; without either, and with no negative
    schemdraw parameter, width and height are positive for every type. *)
Theorem component_size_precedence_and_defaults (comp_type : string)
    (component : JsonReaderAndDrawer.JsonComponent) :
  (forall (size_info : JsonReaderAndDrawer.SizeDict) (w h : R),
      JsonReaderAndDrawer.jc_layout_size component = Some size_info ->
      JsonReaderAndDrawer.read_size size_info = Some (w, h) ->
      JsonReaderAndDrawer._get_component_basic_size comp_type (Some component)
      = (w, h)) /\
  (forall size_info : JsonReaderAndDrawer.SizeDict,
      JsonReaderAndDrawer.jc_layout_size component = Some size_info ->
      JsonReaderAndDrawer.read_size size_info = None ->
      JsonReaderAndDrawer._get_component_basic_size comp_type (Some component)
      = (2.0, 1.0)) /\
  (JsonReaderAndDrawer.jc_layout_size component = None ->
   JsonReaderAndDrawer.jc_size component = None ->
   (forall (params : list (string * R)) (n : string) (v : R),
       JsonReaderAndDrawer.jc_schemdraw_params component = Some params ->
       In (n, v) params -> 0 <= v) ->
   0 < fst (JsonReaderAndDrawer._get_component_basic_size comp_type
              (Some component)) /\
   0 < snd (JsonReaderAndDrawer._get_component_basic_size comp_type
              (Some component))).
Proof.
  unfold JsonReaderAndDrawer._get_component_basic_size.
  split; [| split].
  - intros size_info w h -> ->. reflexivity.
  - intros size_info -> ->. reflexivity.
  - intros -> -> Hparams.
    destruct (JsonReaderAndDrawer.jc_schemdraw_params component)
      as [params |].
    + assert (Hp : forall name default, 0 <= default ->
                 0 <= JsonReaderAndDrawer.param params name default).
      { intros name default Hd. apply param_nonneg; [| exact Hd].
        intros n v. now apply Hparams. }
      unfold JsonReaderAndDrawer._calculate_size_from_schemdraw_params.
      pose proof (Hp "length" 3.0 ltac:(lra)).
      pose proof (Hp "loops" 6 ltac:(lra)).
      pose proof (Hp "width" 1.5 ltac:(lra)).
      pose proof (Hp "length" 0.8 ltac:(lra)).
      pose proof (Hp "width" 1.0 ltac:(lra)).
      pose proof (Hp "length" 1.0 ltac:(lra)).
      pose proof (Hp "radius" 1.0 ltac:(lra)).
      repeat match goal with
             | |- context [String.eqb comp_type ?s] =>
                 destruct (String.eqb comp_type s)
             end; cbn [fst snd]; split; lra.
    + repeat match goal with
             | |- context [String.eqb comp_type ?s] =>
                 destruct (String.eqb comp_type s)
             end; cbn [fst snd]; split; lra.
Qed.

Lemma component_size_precedence_and_defaults_witness :
  JsonReaderAndDrawer.jc_layout_size json_resistor = None /\
  JsonReaderAndDrawer.jc_size json_resistor = None /\
  0 < fst (JsonReaderAndDrawer._get_component_basic_size "resistor"
             (Some json_resistor)) /\
  0 < snd (JsonReaderAndDrawer._get_component_basic_size "resistor"
             (Some json_resistor)).
Proof.
  split; [reflexivity | split; [reflexivity |]].
  apply (proj2 (proj2 (component_size_precedence_and_defaults "resistor"
                         json_resistor))); try reflexivity.
  intros params n v [= <-] [[= <- <-] | []]. lra.
Defined.

(** X18.  A chip without an explicit size gets its size from the pin
    count: with no negative [pad] or [leadlen] the width is at least 2.5
    and the height at least 2.0, and a chip with more pins, and the same
    parameters, is never lower. *)
Theorem chip_dimensions_from_pin_count
    (chip chip' : JsonReaderAndDrawer.JsonChip) (pin_count pin_count' : Z) :
  JsonReaderAndDrawer.chip_layout_size chip = None ->
  JsonReaderAndDrawer.chip_size chip = None ->
  JsonReaderAndDrawer.chip_pin_count chip = Some pin_count ->
  JsonReaderAndDrawer.chip_layout_size chip' = None ->
  JsonReaderAndDrawer.chip_size chip' = None ->
  JsonReaderAndDrawer.chip_pin_count chip' = Some pin_count' ->
  JsonReaderAndDrawer.chip_schemdraw_params chip' =
  JsonReaderAndDrawer.chip_schemdraw_params chip ->
  (forall (params : list (string * R)) (n : string) (v : R),
      JsonReaderAndDrawer.chip_schemdraw_params chip = Some params ->
      In (n, v) params -> 0 <= v) ->
  (pin_count <= pin_count')%Z ->
  exists w h w' h' : R,
    JsonReaderAndDrawer.chip_dimensions chip = Some (w, h) /\
    JsonReaderAndDrawer.chip_dimensions chip' = Some (w', h') /\
    2.5 <= w /\ 2.0 <= h /\ w' = w /\ h <= h'.
Proof.
  intros Hls Hs Hpc Hls' Hs' Hpc' Hparams Hnonneg Hle.
  unfold JsonReaderAndDrawer.chip_dimensions.
  rewrite Hls, Hs, Hpc, Hls', Hs', Hpc', Hparams.
  set (params := match JsonReaderAndDrawer.chip_schemdraw_params chip with
                 | Some params => params
                 | None => []
                 end).
  assert (Hp : forall name default, 0 <= default ->
               0 <= JsonReaderAndDrawer.param params name default).
  { intros name default Hd. apply param_nonneg; [| exact Hd].
    intros n v Hin. subst params.
    destruct (JsonReaderAndDrawer.chip_schemdraw_params chip) as [ps |];
      [now apply (Hnonneg ps n v) | contradiction]. }
  pose proof (Hp "pad" 1.5 ltac:(lra)) as Hpad.
  pose proof (Hp "leadlen" 1 ltac:(lra)) as Hlead.
  assert (Hz : IZR pin_count <= IZR pin_count') by now apply IZR_le.
  destruct (Z.leb_spec pin_count 8) as [H8 | H8];
    [| destruct (Z.leb_spec pin_count 14) as [H14 | H14];
       [| destruct (Z.leb_spec pin_count 16) as [H16 | H16]]];
    (destruct (Z.leb_spec pin_count' 8) as [H8' | H8'];
     [| destruct (Z.leb_spec pin_count' 14) as [H14' | H14'];
        [| destruct (Z.leb_spec pin_count' 16) as [H16' | H16']]]);
    try lia;
    do 4 eexists; (split; [reflexivity |]); (split; [reflexivity |]);
    repeat match goal with
           | H : (_ < _)%Z |- _ => apply IZR_lt in H
           | H : (_ <= _)%Z |- _ => apply IZR_le in H
           end; repeat split; lra.
Qed.

Lemma chip_dimensions_from_pin_count_witness :
  (14 <= 20)%Z /\
  exists w h w' h' : R,
    JsonReaderAndDrawer.chip_dimensions json_chip_14 = Some (w, h) /\
    JsonReaderAndDrawer.chip_dimensions json_chip_20 = Some (w', h') /\
    2.5 <= w /\ 2.0 <= h /\ w' = w /\ h <= h'.
Proof.
  split; [lia |].
  apply (chip_dimensions_from_pin_count json_chip_14 json_chip_20 14 20);
    try reflexivity; [| lia].
  intros params n v H. discriminate H.
Defined.

(** ** The reader: connectivity *)

Section ConnectivityProofs.
Import JsonReaderAndDrawer Connectivity.

Lemma zdict_get_set_same {V : Type} (k : Z) (v : V) (d : list (Z * V)) :
  zdict_get k (zdict_set k v d) = Some v.
Proof.
  induction d as [| [k0 v0] d IH]; simpl.
  - now rewrite Z.eqb_refl.
  - destruct (Z.eqb_spec k0 k) as [-> | Hne]; simpl.
    + now rewrite Z.eqb_refl.
    + destruct (Z.eqb_spec k0 k); [contradiction | exact IH].
Qed.

Lemma zdict_get_set_other {V : Type} (k k' : Z) (v : V) (d : list (Z * V)) :
  k' <> k -> zdict_get k' (zdict_set k v d) = zdict_get k' d.
Proof.
  intros Hne. induction d as [| [k0 v0] d IH]; simpl.
  - destruct (Z.eqb_spec k k'); [congruence | reflexivity].
  - destruct (Z.eqb_spec k0 k) as [-> | Hne0]; simpl.
    + destruct (Z.eqb_spec k k'); [congruence | reflexivity].
    + destruct (Z.eqb_spec k0 k'); [reflexivity | exact IH].
Qed.

Lemma truthy_Some (o : option string) (c : string) :
  o = Some c -> (truthy o = true <-> c <> "").
Proof.
  intros ->. simpl. destruct (String.eqb_spec c ""); split; intros;
    try discriminate; try contradiction; try reflexivity.
  congruence.
Qed.

(** What the loop over the connections of a net collects. *)
Lemma collect_connections_spec (connections : list Connection) :
  forall (pins0 : list Z) (comps0 : list string)
         (pins : list Z) (comps : list string),
  collect_connections connections pins0 comps0 = Some (pins, comps) ->
  (forall p : Z,
      In p pins <->
      In p pins0 \/ exists conn, In conn connections /\ is_chip_pin conn p) /\
  (forall c : string,
      In c comps <->
      In c comps0 \/
      exists conn, In conn connections /\ is_component_port conn c).
Proof.
  induction connections as [| conn rest IH];
    intros pins0 comps0 pins comps Hcollect.
  - injection Hcollect as <- <-. split; intros x; split; auto;
      intros [H | (conn & [] & _)]; exact H.
  - cbn [collect_connections] in Hcollect.
    destruct (conn_type conn) as [type |] eqn:Htype; [| discriminate].
    assert (Hskip :
      forall pins1 comps1,
        (forall p, In p pins1 <->
                   In p pins0 \/ is_chip_pin conn p) ->
        (forall c, In c comps1 <->
                   In c comps0 \/ is_component_port conn c) ->
        collect_connections rest pins1 comps1 = Some (pins, comps) ->
        (forall p : Z,
            In p pins <->
            In p pins0 \/
            exists conn0, In conn0 (conn :: rest) /\ is_chip_pin conn0 p) /\
        (forall c : string,
            In c comps <->
            In c comps0 \/
            exists conn0,
              In conn0 (conn :: rest) /\ is_component_port conn0 c)).
    { intros pins1 comps1 Hp1 Hc1 Hrest.
      destruct (IH _ _ _ _ Hrest) as [Hp Hc]. split.
      - intros p. rewrite Hp, Hp1. split.
        + intros [[H | H] | (conn0 & Hin & H)]; [now left | right | right].
          * exists conn. split; [now left | exact H].
          * exists conn0. split; [now right | exact H].
        + intros [H | (conn0 & [<- | Hin] & H)];
            [left; now left | left; now right | right; eauto].
      - intros c. rewrite Hc, Hc1. split.
        + intros [[H | H] | (conn0 & Hin & H)]; [now left | right | right].
          * exists conn. split; [now left | exact H].
          * exists conn0. split; [now right | exact H].
        + intros [H | (conn0 & [<- | Hin] & H)];
            [left; now left | left; now right | right; eauto]. }
    destruct (String.eqb_spec type "chip_pin") as [-> | Hnot_pin].
    + destruct (conn_pin_number conn) as [n |] eqn:Hn; [| discriminate].
      apply (Hskip _ _) in Hcollect; [exact Hcollect | |].
      * intros p. rewrite in_app_iff. unfold is_chip_pin. simpl.
        rewrite Htype, Hn. split.
        -- intros [H | [<- | []]]; [now left | right; now split].
        -- intros [H | [_ [= <-]]]; [now left | right; now left].
      * intros c. unfold is_component_port. rewrite Htype. split;
          [now left | intros [H | [[=] _]]; exact H].
    + destruct (String.eqb_spec type "component_port") as [-> | Hnot_port].
      * set (comp_id := if truthy (conn_component_id conn)
                        then conn_component_id conn
                        else conn_component conn) in *.
        assert (Hport : forall c,
                   is_component_port conn c <->
                   comp_id = Some c /\ truthy comp_id = true).
        { intros c. unfold is_component_port. rewrite Htype. subst comp_id.
          destruct (truthy (conn_component_id conn)) eqn:Ht.
          - split.
            + intros (_ & Hne & [H | [[=] _]]). now split.
            + intros [H _]. split; [reflexivity |].
              split; [| now left].
              now apply (truthy_Some _ _ H).
          - split.
            + intros (_ & Hne & [H | [_ H]]).
              * apply (truthy_Some _ _ H) in Hne. congruence.
              * split; [exact H | now apply (truthy_Some _ _ H)].
            + intros [H Htrue]. split; [reflexivity |].
              split; [now apply (truthy_Some _ _ H) | right; now split]. }
        assert (Hnopin : forall p, ~ is_chip_pin conn p).
        { intros p [H _]. rewrite Htype in H. discriminate. }
        destruct comp_id as [id |] eqn:Hid.
        -- destruct (truthy (Some id)) eqn:Htrue.
           ++ apply (Hskip _ _) in Hcollect; [exact Hcollect | |].
              ** intros p. split; [now left | intros [H | H]; [exact H |]].
                 now apply Hnopin in H.
              ** intros c. rewrite in_app_iff, Hport. simpl. split.
                 --- intros [H | [<- | []]]; [now left | right; now split].
                 --- intros [H | [[= <-] _]]; [now left | right; now left].
           ++ apply (Hskip _ _) in Hcollect; [exact Hcollect | |].
              ** intros p. split; [now left | intros [H | H]; [exact H |]].
                 now apply Hnopin in H.
              ** intros c. rewrite Hport. split;
                   [now left | intros [H | [_ [=]]]; exact H].
        -- apply (Hskip _ _) in Hcollect; [exact Hcollect | |].
           ++ intros p. split; [now left | intros [H | H]; [exact H |]].
              now apply Hnopin in H.
           ++ intros c. rewrite Hport. split;
                [now left | intros [H | [[=] _]]; exact H].
      * apply (Hskip _ _) in Hcollect; [exact Hcollect | |].
        -- intros p. split; [now left | intros [H | [H _]]; [exact H |]].
           rewrite Htype in H. congruence.
        -- intros c. split; [now left | intros [H | [H _]]; [exact H |]].
           rewrite Htype in H. congruence.
Qed.

Lemma extend_component_to_pins_spec (comps : list string) (pins : list Z) :
  forall (d : list (string * list Z)) (c : string) (p : Z),
  In p (connected_pins (extend_component_to_pins d comps pins) c) <->
  In p (connected_pins d c) \/ (In c comps /\ In p pins).
Proof.
  unfold extend_component_to_pins.
  induction comps as [| c0 comps IH]; intros d c p; cbn [fold_left].
  - simpl. tauto.
  - rewrite IH. clear IH.
    set (d0 := match dict_get c0 d with
               | None => dict_set c0 [] d
               | Some _ => d
               end).
    assert (Hd0 : dict_get c0 d0 = Some (connected_pins d c0) /\
                  forall c', c' <> c0 -> dict_get c' d0 = dict_get c' d).
    { subst d0. unfold connected_pins.
      destruct (dict_get c0 d) as [l |] eqn:E; [now split |].
      split; [apply dict_get_set_same |].
      intros c' Hne. now apply dict_get_set_other. }
    destruct Hd0 as [Hsame Hother]. rewrite Hsame.
    assert (Hstep : In p (connected_pins
                            (dict_set c0 (connected_pins d c0 ++ pins) d0) c)
                    <-> In p (connected_pins d c) \/ (c = c0 /\ In p pins)).
    { unfold connected_pins at 1.
      destruct (string_dec c c0) as [-> | Hne].
      - rewrite dict_get_set_same, in_app_iff. tauto.
      - rewrite dict_get_set_other by exact Hne. rewrite (Hother c Hne).
        fold (connected_pins d c). tauto. }
    rewrite Hstep. simpl. split.
    + intros [[H | [-> H]] | [H1 H2]]; auto.
    + intros [H | [[<- | H1] H2]]; auto.
Qed.

Lemma extend_pin_to_components_spec (pins : list Z) (comps : list string) :
  forall (d : list (Z * list string)) (p : Z) (c : string),
  In c (pin_components (extend_pin_to_components d pins comps) p) <->
  In c (pin_components d p) \/ (In p pins /\ In c comps).
Proof.
  unfold extend_pin_to_components.
  induction pins as [| p0 pins IH]; intros d p c; cbn [fold_left].
  - simpl. tauto.
  - rewrite IH. clear IH.
    set (d0 := match zdict_get p0 d with
               | None => zdict_set p0 [] d
               | Some _ => d
               end).
    assert (Hd0 : zdict_get p0 d0 = Some (pin_components d p0) /\
                  forall p', p' <> p0 -> zdict_get p' d0 = zdict_get p' d).
    { subst d0. unfold pin_components.
      destruct (zdict_get p0 d) as [l |] eqn:E; [now split |].
      split; [apply zdict_get_set_same |].
      intros p' Hne. now apply zdict_get_set_other. }
    destruct Hd0 as [Hsame Hother]. rewrite Hsame.
    assert (Hstep : In c (pin_components
                            (zdict_set p0 (pin_components d p0 ++ comps) d0) p)
                    <-> In c (pin_components d p) \/ (p = p0 /\ In c comps)).
    { unfold pin_components at 1.
      destruct (Z.eq_dec p p0) as [-> | Hne].
      - rewrite zdict_get_set_same, in_app_iff. tauto.
      - rewrite zdict_get_set_other by exact Hne. rewrite (Hother p Hne).
        fold (pin_components d p). tauto. }
    rewrite Hstep. simpl. split.
    + intros [[H | [-> H]] | [H1 H2]]; auto.
    + intros [H | [[<- | H1] H2]]; auto.
Qed.

Lemma analyze_nets_spec (nets : list (string * list Connection)) :
  forall (p2c0 p2c : list (Z * list string))
         (c2p0 c2p : list (string * list Z)),
  analyze_nets nets p2c0 c2p0 = Some (p2c, c2p) ->
  forall (p : Z) (c : string),
    (In p (connected_pins c2p c) <->
     In p (connected_pins c2p0 c) \/ shares_net nets p c) /\
    (In c (pin_components p2c p) <->
     In c (pin_components p2c0 p) \/ shares_net nets p c).
Proof.
  induction nets as [| [net_id connections] nets IH];
    intros p2c0 p2c c2p0 c2p Hrun p c.
  - injection Hrun as <- <-.
    split; (split; [now left | intros [H | H]; [exact H |]]);
      destruct H as (? & ? & ? & ? & [] & _).
  - cbn [analyze_nets] in Hrun.
    destruct (collect_connections connections [] [])
      as [[pins comps] |] eqn:Hcollect; [| discriminate].
    destruct (collect_connections_spec _ _ _ _ _ Hcollect) as [Hpins Hcomps].
    destruct (IH _ _ _ _ Hrun p c) as [Hc2p Hp2c].
    assert (Hnet : In c comps /\ In p pins <->
                   exists conn1 conn2,
                     In conn1 connections /\ In conn2 connections /\
                     is_chip_pin conn1 p /\ is_component_port conn2 c).
    { rewrite Hpins, Hcomps. split.
      - intros [[[] | (conn2 & H2 & Hc)] [[] | (conn1 & H1 & Hp)]].
        exists conn1, conn2. auto.
      - intros (conn1 & conn2 & H1 & H2 & Hp & Hc). split; right; eauto. }
    assert (Hshare : shares_net ((net_id, connections) :: nets) p c <->
                     (In c comps /\ In p pins) \/ shares_net nets p c).
    { rewrite Hnet. unfold shares_net. split.
      - intros (nid & conns & conn1 & conn2 & [Heq | Hin] & Hrest).
        + injection Heq as <- <-. left. exists conn1, conn2. exact Hrest.
        + right. exists nid, conns, conn1, conn2. now split.
      - intros [(conn1 & conn2 & Hrest)
               | (nid & conns & conn1 & conn2 & Hin & Hrest)].
        + exists net_id, connections, conn1, conn2.
          split; [now left | exact Hrest].
        + exists nid, conns, conn1, conn2. split; [now right | exact Hrest]. }
    rewrite Hc2p, Hp2c, extend_component_to_pins_spec,
      extend_pin_to_components_spec, Hshare.
    tauto.
Qed.

End ConnectivityProofs.

(** X19.  After the connections are analysed, a chip pin is among the
    connected pins of a component exactly when some net holds both that
    pin and a port of that component, and the two tables mirror each
    other: the component is listed for the pin iff the pin is listed for
    the component. *)
Theorem analyzed_connections_share_a_net
    (nets : list (string * list JsonReaderAndDrawer.Connection))
    (pin_to_components : list (Z * list string))
    (component_to_pins : list (string * list Z)) (p : Z) (c : string) :
  JsonReaderAndDrawer._analyze_connections nets =
  Some (pin_to_components, component_to_pins) ->
  (In p (JsonReaderAndDrawer.connected_pins component_to_pins c) <->
   Connectivity.shares_net nets p c) /\
  (In c (Connectivity.pin_components pin_to_components p) <->
   In p (JsonReaderAndDrawer.connected_pins component_to_pins c)).
Proof.
  intros Hrun. unfold JsonReaderAndDrawer._analyze_connections in Hrun.
  destruct (analyze_nets_spec _ _ _ _ _ Hrun p c) as [Hc2p Hp2c].
  cbn in Hc2p, Hp2c. split.
  - rewrite Hc2p. tauto.
  - rewrite Hc2p, Hp2c. tauto.
Qed.

Lemma analyzed_connections_share_a_net_witness :
  JsonReaderAndDrawer._analyze_connections example_nets =
  Some ([(2%Z, ["C1"]); (7%Z, ["C1"])], [("C1", [2%Z; 7%Z])]) /\
  (In 7%Z (JsonReaderAndDrawer.connected_pins [("C1", [2%Z; 7%Z])] "C1") <->
   Connectivity.shares_net example_nets 7 "C1").
Proof.
  split; [reflexivity |].
  exact (proj1 (analyzed_connections_share_a_net example_nets
                  [(2%Z, ["C1"]); (7%Z, ["C1"])] [("C1", [2%Z; 7%Z])]
                  7%Z "C1" eq_refl)).
Defined.

(** ** Running the resolver again *)

Lemma place_all_keeps_keys (component_info : list (string * Component))
    (chip : ChipInfo) (todo : list (string * Component)) :
  forall adjusted_positions layout : list (string * Placed),
  (forall item : string * Component,
      In item todo -> In (fst item) (map fst adjusted_positions)) ->
  place_all component_info chip todo adjusted_positions = Some layout ->
  map fst layout = map fst adjusted_positions.
Proof.
  induction todo as [| [id c] todo IH]; intros adj layout Hkeys Hrun.
  - now injection Hrun as <-.
  - cbn [place_all] in Hrun.
    destruct (_adjust_position_to_avoid_collision component_info chip adj id)
      as [[ax ay] |]; [| discriminate].
    assert (Hin : In id (map fst adj))
      by exact (Hkeys (id, c) (or_introl eq_refl)).
    apply IH in Hrun.
    + rewrite Hrun. now apply dict_set_keys_present.
    + intros item Hitem. rewrite dict_set_keys_present by exact Hin.
      apply Hkeys. now right.
Qed.

(** X20.  Running the resolver a second time, on the layout of the first
    run, never fails and adds or drops no entry: the second layout has the
    ids of the first, each once and in the same order. *)
Theorem second_run_keeps_the_entries
    (component_info : list (string * Component)) (chip : ChipInfo)
    (layout : list (string * Placed)) :
  NoDup (map fst component_info) ->
  detect_and_resolve_collisions component_info chip [] = Some layout ->
  exists layout' : list (string * Placed),
    detect_and_resolve_collisions component_info chip layout = Some layout' /\
    map fst layout' = map fst layout /\
    NoDup (map fst layout').
Proof.
  intros Hnd Hrun.
  pose proof (proj1 (resolved_structure _ _ _ Hnd Hrun)) as Hkeys.
  destruct (detect_total component_info chip layout) as (layout' & Hrun' & _).
  exists layout'. split; [exact Hrun' |].
  assert (Hsame : map fst layout' = map fst layout).
  { apply (place_all_keeps_keys component_info chip
             (sorted_components component_info)); [| exact Hrun'].
    intros item Hitem. rewrite Hkeys. now apply in_map. }
  split; [exact Hsame |].
  rewrite Hsame, Hkeys. now apply sorted_components_keys_NoDup.
Qed.

Lemma second_run_keeps_the_entries_witness :
  NoDup (map fst two_parts) /\
  detect_and_resolve_collisions two_parts chip_small [] =
  Some two_parts_layout /\
  exists layout' : list (string * Placed),
    detect_and_resolve_collisions two_parts chip_small two_parts_layout =
    Some layout' /\
    map fst layout' = ["R1"; "D1"].
Proof.
  assert (Hnd : NoDup (map fst two_parts)).
  { repeat constructor; simpl; intuition discriminate. }
  split; [exact Hnd | split; [exact two_parts_resolved |]].
  destruct (second_run_keeps_the_entries two_parts chip_small two_parts_layout
              Hnd two_parts_resolved) as (layout' & Hrun & Hkeys & _).
  exists layout'. split; [exact Hrun | exact Hkeys].
Defined.

(** ** The further properties on the examples *)

Lemma two_parts_layout_sizes :
  forall entry : string * Placed,
    In entry two_parts_layout ->
    0 <= p_width (snd entry) /\ 0 <= p_height (snd entry).
Proof.
  intros entry [<- | [<- | []]]; cbn; lra.
Qed.

Lemma layout_area_and_density_defined_witness :
  (forall entry : string * Placed,
      In entry two_parts_layout ->
      0 <= p_width (snd entry) /\ 0 <= p_height (snd entry)) /\
  exists density : R,
    layout_density chip_small two_parts_layout = Some density /\
    0 <= density.
Proof.
  split; [exact two_parts_layout_sizes |].
  destruct (layout_area_and_density_defined chip_small two_parts_layout)
    as (area & density & _ & Hd & _ & _ & Hpos).
  exists density. split; [exact Hd | exact (Hpos two_parts_layout_sizes)].
Defined.

Lemma total_objects_is_components_plus_chip_witness :
  In "LED" (sorted_types two_parts_layout) /\
  total_objects two_parts_layout = Some 3%nat /\
  exists counts : list (string * nat),
    class_counts two_parts_layout = Some counts /\
    dict_get "LED" counts = Some 1%nat.
Proof.
  assert (Hin : In "LED" (sorted_types two_parts_layout)).
  { apply (proj2 (sorted_types_spec two_parts_layout)). right.
    exists ("D1", placed_entry D1_on_pin5 3 1.5).
    split; [right; now left | reflexivity]. }
  destruct (total_objects_is_components_plus_chip two_parts_layout)
    as (counts & Hc & Ht & _ & Hcount).
  split; [exact Hin | split; [exact Ht |]].
  exists counts. split; [exact Hc |]. exact (Hcount "LED" Hin).
Defined.

(** * The processing order in a run *)

Lemma estimate_C3_small :
  estimate (c_connected_pins C3_small) = (-3, 1.125).
Proof.
  unfold estimate, mean_point, pin_anchor. simpl. f_equal; lra.
Qed.

(** The small capacitor is free at its ideal position [(-3, 1.125)]. *)
Lemma C3_placed (component_info : list (string * Component)) :
  dict_get "C3" component_info = Some C3_small ->
  _adjust_position_to_avoid_collision component_info chip_small [] "C3" =
  Some (-3, 1.125).
Proof.
  intros Hget.
  replace (-3, 1.125)
    with (candidate (estimate (c_connected_pins C3_small)) 0)
    by (cbn [candidate]; apply estimate_C3_small).
  apply placed_by_search_first_free; [exact Hget |].
  apply first_free_least.
  - unfold max_attempts. lia.
  - intros j Hj. lia.
  - cbn [candidate]. rewrite estimate_C3_small.
    unfold blocked, has_collision, _check_collision_with_chip,
      _check_bbox_collision. cbn. decide_Rltb.
Qed.

(** With the capacitor in place, the LED is free at its ideal position
    [(3, 1.5)]. *)
Lemma D1_placed_after_C3 (component_info : list (string * Component)) :
  dict_get "D1" component_info = Some D1_on_pin5 ->
  _adjust_position_to_avoid_collision component_info chip_small
    [("C3", placed_entry C3_small (-3) 1.125)] "D1" = Some (3, 1.5).
Proof.
  intros Hget.
  replace (3, 1.5) with (candidate (estimate (c_connected_pins D1_on_pin5)) 0)
    by (cbn [candidate]; apply estimate_D1_on_pin5).
  apply placed_by_search_first_free; [exact Hget |].
  apply first_free_least.
  - unfold max_attempts. lia.
  - intros j Hj. lia.
  - cbn [candidate]. rewrite estimate_D1_on_pin5.
    unfold blocked, has_collision, _check_collision_with_chip,
      _check_bbox_collision. cbn. decide_Rltb.
Qed.

(** With the capacitor and the LED in place, the resistor collides with
    the chip at [(3, 0)] and is placed at the next candidate, [(4, 0)]. *)
Lemma R1_placed_after_C3_D1 (component_info : list (string * Component)) :
  dict_get "R1" component_info = Some R1_on_pin3 ->
  _adjust_position_to_avoid_collision component_info chip_small
    [("C3", placed_entry C3_small (-3) 1.125);
     ("D1", placed_entry D1_on_pin5 3 1.5)] "R1" = Some (4, 0).
Proof.
  intros Hget.
  replace (4, 0) with (candidate (estimate (c_connected_pins R1_on_pin3)) 1)
    by (rewrite candidate_1, estimate_R1_on_pin3; cbn; f_equal; lra).
  apply placed_by_search_first_free; [exact Hget |].
  apply first_free_least.
  - unfold max_attempts. lia.
  - intros j Hj. assert (j = 0%nat) as -> by lia.
    rewrite estimate_R1_on_pin3.
    unfold blocked, has_collision, _check_collision_with_chip,
      _check_bbox_collision. cbn. decide_Rltb.
  - rewrite candidate_1, estimate_R1_on_pin3.
    unfold blocked, has_collision, _check_collision_with_chip,
      _check_bbox_collision. cbn. decide_Rltb.
Qed.

Lemma unsorted_parts_sorted :
  sorted_components unsorted_parts =
  [("C3", C3_small); ("D1", D1_on_pin5); ("R1", R1_on_pin3)].
Proof. reflexivity. Qed.

Lemma unsorted_parts_resolved :
  detect_and_resolve_collisions unsorted_parts chip_small [] =
  Some unsorted_parts_layout.
Proof.
  unfold detect_and_resolve_collisions.
  rewrite unsorted_parts_sorted. cbn [place_all].
  rewrite (C3_placed unsorted_parts eq_refl). cbn [dict_set].
  fold (placed_entry C3_small (-3) 1.125).
  rewrite (D1_placed_after_C3 unsorted_parts eq_refl).
  fold (placed_entry D1_on_pin5 3 1.5).
  change ("C3" =? "D1")%string with false. cbv iota.
  rewrite (R1_placed_after_C3_D1 unsorted_parts eq_refl).
  reflexivity.
Qed.

(** C6.  The resolver places the components in the order of
    [sorted_components]: a rearrangement of the input that is descending in
    the number of connected pins and in which the components with the same
    number of pins keep their input order.  The order is a function of the
    input alone: it is the only descending arrangement that keeps the
    input order within each pin count.  The run is the loop over that
    order, and a run from the empty state on components with distinct ids
    returns a layout whose entries are in that order, the [j]-th component
    of the order placed by its search against the entries of the [j]
    components before it. *)
Theorem processing_order_stable_descending
    (component_info : list (string * Component)) (chip : ChipInfo) :
  Permutation component_info (sorted_components component_info) /\
  StronglySorted
    (fun a b : string * Component =>
       (List.length (c_connected_pins (snd b)) <=
        List.length (c_connected_pins (snd a)))%nat)
    (sorted_components component_info) /\
  (forall k : nat,
      filter (fun item : string * Component =>
                (List.length (c_connected_pins (snd item)) =? k)%nat)
        (sorted_components component_info) =
      filter (fun item : string * Component =>
                (List.length (c_connected_pins (snd item)) =? k)%nat)
        component_info) /\
  (forall order : list (string * Component),
      StronglySorted pins_ge order ->
      (forall k : nat,
          with_pin_count k order = with_pin_count k component_info) ->
      order = sorted_components component_info) /\
  (forall adjusted_positions : list (string * Placed),
      detect_and_resolve_collisions component_info chip adjusted_positions =
      place_all component_info chip (sorted_components component_info)
        adjusted_positions) /\
  (NoDup (map fst component_info) ->
   exists layout : list (string * Placed),
     detect_and_resolve_collisions component_info chip [] = Some layout /\
     map fst layout = map fst (sorted_components component_info) /\
     forall (j : nat) (id : string) (component : Component),
       nth_error (sorted_components component_info) j =
       Some (id, component) ->
       exists x y : R,
         _adjust_position_to_avoid_collision component_info chip
           (firstn j layout) id = Some (x, y) /\
         nth_error layout j = Some (id, placed_entry component x y)).
Proof.
  split; [apply sorted_components_perm |].
  split; [apply sorted_components_sorted |].
  split; [intros k; apply (sorted_components_stable k) |].
  split; [| split; [reflexivity |]].
  - intros order Hsorted Hstable. apply stable_descending_unique.
    + exact Hsorted.
    + apply sorted_components_sorted.
    + intros k. now rewrite Hstable, sorted_components_stable.
  - intros Hnd.
    destruct (detect_total component_info chip []) as (layout & Hrun & _).
    exists layout. split; [exact Hrun |].
    exact (resolved_structure _ _ _ Hnd Hrun).
Qed.

(** The LED, the small capacitor and the resistor: the capacitor has two
    connected pins and goes first; the LED and the resistor have one each
    and keep their input order.  The run returns the three entries in
    this order, and the resistor, the last one, is placed against the
    entries of the capacitor and the LED. *)
Lemma processing_order_stable_descending_witness :
  StronglySorted pins_ge
    [("C3", C3_small); ("D1", D1_on_pin5); ("R1", R1_on_pin3)] /\
  (forall k : nat,
      with_pin_count k
        [("C3", C3_small); ("D1", D1_on_pin5); ("R1", R1_on_pin3)] =
      with_pin_count k unsorted_parts) /\
  [("C3", C3_small); ("D1", D1_on_pin5); ("R1", R1_on_pin3)] =
  sorted_components unsorted_parts /\
  NoDup (map fst unsorted_parts) /\
  detect_and_resolve_collisions unsorted_parts chip_small [] =
  Some unsorted_parts_layout /\
  map fst unsorted_parts_layout = ["C3"; "D1"; "R1"] /\
  exists x y : R,
    _adjust_position_to_avoid_collision unsorted_parts chip_small
      [("C3", placed_entry C3_small (-3) 1.125);
       ("D1", placed_entry D1_on_pin5 3 1.5)] "R1" = Some (x, y) /\
    nth_error unsorted_parts_layout 2 =
    Some ("R1", placed_entry R1_on_pin3 x y).
Proof.
  assert (Hsorted : StronglySorted pins_ge
            [("C3", C3_small); ("D1", D1_on_pin5); ("R1", R1_on_pin3)]).
  { repeat constructor; unfold pins_ge, pin_count; simpl; lia. }
  assert (Hstable : forall k : nat,
            with_pin_count k
              [("C3", C3_small); ("D1", D1_on_pin5); ("R1", R1_on_pin3)]
            = with_pin_count k unsorted_parts).
  { intros [| [| [| k]]]; reflexivity. }
  assert (Hnd : NoDup (map fst unsorted_parts)).
  { repeat constructor; simpl; intuition discriminate. }
  destruct (processing_order_stable_descending unsorted_parts chip_small)
    as (_ & _ & _ & Hunique & _ & Hrun).
  destruct (Hrun Hnd) as (layout & Hlayout & Hkeys & Hsteps).
  rewrite unsorted_parts_resolved in Hlayout. injection Hlayout as <-.
  split; [exact Hsorted | split; [exact Hstable |]].
  split; [exact (Hunique _ Hsorted Hstable) |].
  split; [exact Hnd | split; [exact unsorted_parts_resolved |]].
  split; [exact Hkeys |].
  exact (Hsteps 2%nat "R1" R1_on_pin3 eq_refl).
Defined.

(** * The canvas and the annotations *)

(** ** When the layout JSON exists *)

Lemma check_if_optimal_position_Some
    (component_info : list (string * Component)) (comp_id : string)
    (position_info : Placed) :
  (exists achieved : bool,
      _check_if_optimal_position component_info comp_id position_info =
      Some achieved) <->
  In comp_id (map fst component_info).
Proof.
  unfold _check_if_optimal_position.
  rewrite calculate_optimal_position_estimate.
  destruct (in_dec string_dec comp_id (map fst component_info))
    as [Hin | Hnotin].
  - destruct (dict_get_In _ _ Hin) as [c ->]. cbn [option_map].
    split; [intros _; exact Hin | intros _; eexists; reflexivity].
  - rewrite (proj2 (dict_get_None _ _) Hnotin). cbn [option_map].
    split; [intros [achieved H]; discriminate | contradiction].
Qed.

(** The component entries exist exactly when every id of the layout is
    known. *)
Lemma create_components_layout_info_Some
    (component_info : list (string * Component))
    (component_positions : list (string * Placed)) :
  (exists components_layout : list ComponentLayout,
      _create_components_layout_info component_info component_positions =
      Some components_layout) <->
  ids_known component_info component_positions.
Proof.
  unfold ids_known.
  induction component_positions as [| [id p] rest IH];
    cbn [_create_components_layout_info].
  - split; [intros _ entry [] | intros _; eexists; reflexivity].
  - pose proof (check_if_optimal_position_Some component_info id p) as Hhead.
    destruct (_check_if_optimal_position component_info id p)
      as [achieved |].
    + destruct (_create_components_layout_info component_info rest)
        as [components_layout |].
      * split; [| intros _; eexists; reflexivity].
        intros _ entry [<- | Hin].
        -- apply Hhead. now exists achieved.
        -- apply (proj1 IH); [now exists components_layout | exact Hin].
      * split; [intros [l H]; discriminate |].
        intros Hknown. apply (proj2 IH).
        intros entry Hin. apply Hknown. now right.
    + split; [intros [l H]; discriminate |].
      intros Hknown.
      destruct (proj2 Hhead (Hknown (id, p) (or_introl eq_refl)))
        as [achieved H].
      discriminate.
Qed.

(** With known ids the statistics exist, and their overall bounding box
    is the union box of the chip and the components. *)
Lemma calculate_layout_statistics_known
    (component_info : list (string * Component)) (chip : ChipInfo)
    (component_positions : list (string * Placed)) :
  ids_known component_info component_positions ->
  exists (U : BBox) (statistics : LayoutStatistics),
    overall_bbox chip component_positions = Some U /\
    is_union_bbox U (entity_boxes chip component_positions) /\
    _calculate_layout_statistics component_info chip component_positions =
    Some statistics /\
    overall_bounding_box statistics = U.
Proof.
  intros Hknown. unfold _calculate_layout_statistics.
  destruct (overall_bbox_union chip component_positions) as (U & HU & Hunion).
  destruct (optimal_count_le component_info component_positions Hknown)
    as (count & Hcount & _).
  destruct (analyze_distribution_from chip component_positions []
              (mkDistribution 0 0 0 0 0 0 0 []))
    as (d & Hfold & _); [intros t; reflexivity |].
  change (_analyze_component_distribution chip component_positions = Some d)
    in Hfold.
  rewrite HU, Hcount, Hfold.
  exists U. eexists.
  split; [reflexivity | split; [exact Hunion | split; reflexivity]].
Qed.

(** The canvas exists when the chip object has its model and its pin
    count and every id of the layout is known: it is the canvas of the
    union box. *)
Lemma calculate_canvas_size_known (original_chip : OriginalChip)
    (component_info : list (string * Component)) (chip : ChipInfo)
    (component_positions : list (string * Placed)) :
  oc_model original_chip <> None ->
  oc_pin_count original_chip <> None ->
  ids_known component_info component_positions ->
  exists U : BBox,
    overall_bbox chip component_positions = Some U /\
    is_union_bbox U (entity_boxes chip component_positions) /\
    _calculate_canvas_size original_chip component_info chip
      component_positions = Some (canvas_of U).
Proof.
  intros Hmodel Hpins Hknown.
  destruct (calculate_layout_statistics_known component_info chip
              component_positions Hknown)
    as (U & statistics & HU & Hunion & Hstats & Hbox).
  destruct (proj2 (create_components_layout_info_Some component_info
                     component_positions) Hknown) as [components Hcomps].
  exists U. split; [exact HU | split; [exact Hunion |]].
  unfold _calculate_canvas_size, generate_layout_json,
    _create_chip_layout_info.
  destruct (oc_model original_chip) as [model |]; [| contradiction].
  destruct (oc_pin_count original_chip) as [pin_count |]; [| contradiction].
  rewrite Hcomps, Hstats. cbn [ld_layout_statistics]. rewrite Hbox.
  reflexivity.
Qed.

(** The canvas does not exist otherwise. *)
Lemma calculate_canvas_size_None (original_chip : OriginalChip)
    (component_info : list (string * Component)) (chip : ChipInfo)
    (component_positions : list (string * Placed)) :
  _calculate_canvas_size original_chip component_info chip
    component_positions = None <->
  oc_model original_chip = None \/ oc_pin_count original_chip = None \/
  ~ ids_known component_info component_positions.
Proof.
  split.
  - intros Hnone.
    destruct (oc_model original_chip) as [model |] eqn:Hmodel;
      [| now left].
    destruct (oc_pin_count original_chip) as [pin_count |] eqn:Hpins;
      [| right; now left].
    right; right. intros Hknown.
    destruct (calculate_canvas_size_known original_chip component_info chip
                component_positions) as (U & _ & _ & Hsome);
      try exact Hknown; congruence.
  - intros Hcases.
    unfold _calculate_canvas_size, generate_layout_json,
      _create_chip_layout_info.
    destruct (oc_model original_chip) as [model |]; [| reflexivity].
    destruct (oc_pin_count original_chip) as [pin_count |]; [| reflexivity].
    destruct Hcases as [H | [H | Hunknown]]; try discriminate.
    destruct (_create_components_layout_info component_info
                component_positions) as [components |] eqn:Hcomps;
      [| reflexivity].
    exfalso. apply Hunknown.
    apply create_components_layout_info_Some. now exists components.
Qed.

(** A canvas that exists is the canvas of the union box. *)
Lemma calculate_canvas_size_Some (original_chip : OriginalChip)
    (component_info : list (string * Component)) (chip : ChipInfo)
    (component_positions : list (string * Placed))
    (canvas : R * R * R * R) :
  _calculate_canvas_size original_chip component_info chip
    component_positions = Some canvas ->
  exists U : BBox,
    is_union_bbox U (entity_boxes chip component_positions) /\
    canvas = canvas_of U.
Proof.
  intros Hsome.
  assert (Hmodel : oc_model original_chip <> None).
  { intros H. rewrite (proj2 (calculate_canvas_size_None _ _ _ _)) in Hsome;
      [discriminate | now left]. }
  assert (Hpins : oc_pin_count original_chip <> None).
  { intros H. rewrite (proj2 (calculate_canvas_size_None _ _ _ _)) in Hsome;
      [discriminate | right; now left]. }
  assert (Hknown : ids_known component_info component_positions).
  { apply create_components_layout_info_Some.
    unfold _calculate_canvas_size, generate_layout_json in Hsome.
    destruct (_create_chip_layout_info original_chip chip);
      [| discriminate].
    destruct (_create_components_layout_info component_info
                component_positions) as [components |];
      [now exists components | discriminate]. }
  destruct (calculate_canvas_size_known original_chip component_info chip
              component_positions Hmodel Hpins Hknown)
    as (U & _ & Hunion & Hcanvas).
  exists U. split; [exact Hunion | congruence].
Qed.

(** The canvas of a union box is at least 4 by 4 and keeps every edge of
    every box at least the margin 2.0 inside. *)
Lemma canvas_of_union (U : BBox) (chip : ChipInfo)
    (component_positions : list (string * Placed)) :
  is_union_bbox U (entity_boxes chip component_positions) ->
  let '(canvas_w, canvas_h, origin_x, origin_y) := canvas_of U in
  4 <= canvas_w /\ 4 <= canvas_h /\
  forall b : BBox,
    In b (entity_boxes chip component_positions) ->
    origin_x + 2 <= x_min b <= origin_x + canvas_w - 2 /\
    origin_x + 2 <= x_max b <= origin_x + canvas_w - 2 /\
    origin_y - canvas_h + 2 <= y_min b <= origin_y - 2 /\
    origin_y - canvas_h + 2 <= y_max b <= origin_y - 2.
Proof.
  intros (Hin & _). unfold canvas_of.
  assert (Hchip : In (edges (chip_bbox chip))
                    (entity_boxes chip component_positions)) by now left.
  pose proof (Hin _ Hchip) as (Hx & _ & Hy & _).
  split; [lra | split; [lra |]].
  intros b Hb. pose proof (Hin b Hb) as (? & ? & ? & ?).
  repeat split; lra.
Qed.

(** ** The normalization *)

Lemma Reqb_false (a b : R) : a <> b -> Reqb a b = false.
Proof.
  intros Hne. unfold Reqb. now destruct (Req_dec_T a b).
Qed.

Lemma Reqb_true (a : R) : Reqb a a = true.
Proof.
  unfold Reqb. now destruct (Req_dec_T a a).
Qed.

Lemma convert_to_yolo_format_normalize
    (x y w h canvas_w canvas_h origin_x origin_y : R) :
  canvas_w <> 0 -> canvas_h <> 0 ->
  _convert_to_yolo_format x y w h canvas_w canvas_h origin_x origin_y =
  Some (normalize x y w h canvas_w canvas_h origin_x origin_y).
Proof.
  intros Hw Hh. unfold _convert_to_yolo_format, normalize. cbv zeta.
  rewrite (Reqb_false _ _ Hw), (Reqb_false _ _ Hh).
  now rewrite !clamp01_Rmax_Rmin.
Qed.

Lemma convert_to_yolo_format_zero
    (x y w h canvas_w canvas_h origin_x origin_y : R) :
  canvas_w = 0 \/ canvas_h = 0 ->
  _convert_to_yolo_format x y w h canvas_w canvas_h origin_x origin_y = None.
Proof.
  unfold _convert_to_yolo_format. cbv zeta.
  intros [-> | ->]; rewrite Reqb_true; [reflexivity |].
  now destruct (Reqb canvas_w 0).
Qed.

Lemma unit_fraction (a c : R) :
  0 < c -> 0 <= a -> a < c -> 0 <= a / c < 1 /\ (0 < a -> 0 < a / c).
Proof.
  intros Hc Ha Hac. assert (Hinv : 0 < / c) by now apply Rinv_0_lt_compat.
  unfold Rdiv. repeat split.
  - apply Rmult_le_pos; lra.
  - apply Rmult_lt_reg_r with c; [exact Hc |].
    rewrite Rmult_assoc, Rinv_l by lra. lra.
  - intros Hpos. now apply Rmult_lt_0_compat.
Qed.

Lemma clamp01_id (v : R) : 0 <= v <= 1 -> clamp01 v = v.
Proof.
  intros Hv. unfold clamp01. destruct (Rlt_dec v 0), (Rlt_dec 1 v); lra.
Qed.

(** An entity whose box is the box of its position, of a width and a
    height that are not negative, and lies the margin inside the canvas,
    is annotated without clamping. *)
Lemma normalize_inside (x y w h canvas_w canvas_h origin_x origin_y : R) :
  0 <= w -> 0 <= h ->
  let b := _create_bbox_from_position x y w h in
  origin_x + 2 <= x_min b -> x_max b <= origin_x + canvas_w - 2 ->
  origin_y - canvas_h + 2 <= y_min b -> y_max b <= origin_y - 2 ->
  let cx := (x - origin_x) / canvas_w in
  let cy := (origin_y - y) / canvas_h in
  _convert_to_yolo_format x y w h canvas_w canvas_h origin_x origin_y =
  Some (cx, cy, w / canvas_w, h / canvas_h) /\
  0 < cx < 1 /\ 0 < cy < 1 /\ 0 <= w / canvas_w < 1 /\ 0 <= h / canvas_h < 1.
Proof.
  intros Hw Hh b Hx1 Hx2 Hy1 Hy2 cx cy. subst b cx cy.
  cbn in Hx1, Hx2, Hy1, Hy2.
  destruct (unit_fraction (x - origin_x) canvas_w) as [[? ?] Hcx]; try lra.
  destruct (unit_fraction (origin_y - y) canvas_h) as [[? ?] Hcy]; try lra.
  destruct (unit_fraction w canvas_w) as [[? ?] _]; try lra.
  destruct (unit_fraction h canvas_h) as [[? ?] _]; try lra.
  assert (0 < (x - origin_x) / canvas_w) by (apply Hcx; lra).
  assert (0 < (origin_y - y) / canvas_h) by (apply Hcy; lra).
  split; [| repeat split; assumption].
  rewrite convert_to_yolo_format_normalize by lra. unfold normalize.
  rewrite !clamp01_id by lra. reflexivity.
Qed.

(** ** The resolved layout as input of the export *)

Lemma resolved_ids_known (component_info : list (string * Component))
    (chip : ChipInfo) (layout : list (string * Placed)) :
  detect_and_resolve_collisions component_info chip [] = Some layout ->
  ids_known component_info layout.
Proof.
  intros Hrun [id p] Hin.
  destruct (place_all_keys _ _ _ _ _ Hrun id) as [[] | Hs].
  - now apply (in_map fst _ (id, p)).
  - eapply Permutation_in; [| exact Hs].
    symmetry. apply Permutation_map, sorted_components_perm.
Qed.

Lemma resolved_bbox (component_info : list (string * Component))
    (chip : ChipInfo) (layout : list (string * Placed)) (id : string)
    (p : Placed) :
  detect_and_resolve_collisions component_info chip [] = Some layout ->
  In (id, p) layout ->
  edges (p_bbox p) =
  _create_bbox_from_position (fst (p_position p)) (snd (p_position p))
    (p_width p) (p_height p).
Proof.
  intros Hrun Hin.
  apply (place_all_invariant
           (fun _ q =>
              edges (p_bbox q) =
              _create_bbox_from_position (fst (p_position q))
                (snd (p_position q)) (p_width q) (p_height q))
           component_info chip (sorted_components component_info))
    with (adjusted_positions := []) (layout := layout) (id := id);
    try assumption.
  - intros id0 c adj x y _ _. reflexivity.
  - intros ? ? [].
Qed.

Lemma two_parts_ids_known : ids_known two_parts two_parts_layout.
Proof. exact (resolved_ids_known _ _ _ two_parts_resolved). Qed.

(** The union box of the small chip, the resistor at [(4, 0)] and the LED
    at [(3, 1.5)], and its canvas. *)
Lemma two_parts_overall_bbox :
  overall_bbox chip_small two_parts_layout =
  Some (mkBBox (-0.5) 4.6 (-0.5) 1.7).
Proof.
  unfold overall_bbox. cbn.
  do 2 f_equal; unfold Rmin, Rmax;
    repeat (destruct (Rle_dec _ _); try lra).
Qed.

Lemma two_parts_canvas :
  _calculate_canvas_size chip_U1 two_parts chip_small two_parts_layout =
  Some (9.1, 6.2, -2.5, 3.7).
Proof.
  destruct (calculate_canvas_size_known chip_U1 two_parts chip_small
              two_parts_layout) as (U & HU & _ & Hcanvas);
    [discriminate | discriminate | exact two_parts_ids_known |].
  rewrite two_parts_overall_bbox in HU. injection HU as <-.
  rewrite Hcanvas. unfold canvas_of. cbn [x_min x_max y_min y_max].
  repeat f_equal; lra.
Qed.

(** ** The canvas frame and the normalization *)

(** C7.  When the chip object has its model and its pin count and every
    id of the layout is an id of [component_info] (otherwise building the
    layout JSON raises and there is no canvas), the canvas frame is taken
    from the union bounding box [U] of the chip and all components: its
    width and height are the spans of [U] plus twice the margin 2.0, and
    its origin is the top-left corner of [U] moved out by the margin.
    The annotation of the chip and of every component is
    [cx = (x - origin_x)/canvas_w], [cy = (origin_y - y)/canvas_h],
    [w = width/canvas_w], [h = height/canvas_h], each clamped to
    [0, 1]; the transform has this value for every canvas whose width and
    height are not 0. *)
Theorem canvas_frame_and_normalization (original_chip : OriginalChip)
    (component_info : list (string * Component)) (chip : ChipInfo)
    (component_positions : list (string * Placed)) :
  oc_model original_chip <> None ->
  oc_pin_count original_chip <> None ->
  ids_known component_info component_positions ->
  exists U : BBox,
    overall_bbox chip component_positions = Some U /\
    is_union_bbox U (entity_boxes chip component_positions) /\
    let canvas_w := x_max U - x_min U + 2 * 2.0 in
    let canvas_h := y_max U - y_min U + 2 * 2.0 in
    let origin_x := x_min U - 2.0 in
    let origin_y := y_max U + 2.0 in
    _calculate_canvas_size original_chip component_info chip
      component_positions =
    Some (canvas_w, canvas_h, origin_x, origin_y) /\
    (forall x y w h cw ch ox oy : R,
        cw <> 0 -> ch <> 0 ->
        _convert_to_yolo_format x y w h cw ch ox oy =
        Some (clamp01 ((x - ox) / cw), clamp01 ((oy - y) / ch),
              clamp01 (w / cw), clamp01 (h / ch))) /\
    (forall v : R,
        0 <= clamp01 v <= 1 /\
        ((v < 0 /\ clamp01 v = 0) \/ (1 < v /\ clamp01 v = 1) \/
         (0 <= v <= 1 /\ clamp01 v = v))) /\
    chip_annotation original_chip component_info chip component_positions =
    Some (normalize (fst (chip_position chip)) (snd (chip_position chip))
            (width (chip_bbox chip)) (height (chip_bbox chip))
            canvas_w canvas_h origin_x origin_y) /\
    (forall pos_info : Placed,
        component_annotation original_chip component_info chip
          component_positions pos_info =
        Some (normalize (fst (p_position pos_info)) (snd (p_position pos_info))
                (p_width pos_info) (p_height pos_info)
                canvas_w canvas_h origin_x origin_y)).
Proof.
  intros Hmodel Hpins Hknown.
  destruct (calculate_canvas_size_known original_chip component_info chip
              component_positions Hmodel Hpins Hknown)
    as (U & HU & Hunion & Hcanvas).
  exists U. split; [exact HU | split; [exact Hunion |]]. cbv zeta.
  pose proof (canvas_of_union U chip component_positions Hunion) as Hsize.
  unfold canvas_of in Hcanvas, Hsize. destruct Hsize as (Hw & Hh & _).
  split; [exact Hcanvas | split; [| split; [exact clamp01_cases | split]]].
  - intros x y w h cw ch ox oy Hcw Hch.
    now apply convert_to_yolo_format_normalize.
  - unfold chip_annotation. rewrite Hcanvas.
    destruct (chip_position chip) as [cx cy]. cbn [fst snd].
    apply convert_to_yolo_format_normalize; lra.
  - intros pos_info. unfold component_annotation. rewrite Hcanvas.
    destruct (p_position pos_info) as [cx cy]. cbn [fst snd].
    apply convert_to_yolo_format_normalize; lra.
Qed.

(** The small chip with the resistor at [(4, 0)] and the LED at
    [(3, 1.5)]: the union box is [-0.5, 4.6] by [-0.5, 1.7], the canvas
    is 9.1 by 6.2 with its origin at [(-2.5, 3.7)]. *)
Lemma canvas_frame_and_normalization_witness :
  oc_model chip_U1 <> None /\ oc_pin_count chip_U1 <> None /\
  ids_known two_parts two_parts_layout /\
  overall_bbox chip_small two_parts_layout =
  Some (mkBBox (-0.5) 4.6 (-0.5) 1.7) /\
  _calculate_canvas_size chip_U1 two_parts chip_small two_parts_layout =
  Some (4.6 - -0.5 + 2 * 2.0, 1.7 - -0.5 + 2 * 2.0, -0.5 - 2.0, 1.7 + 2.0) /\
  chip_annotation chip_U1 two_parts chip_small two_parts_layout =
  Some (normalize 0 0 1.0 1.0
          (4.6 - -0.5 + 2 * 2.0) (1.7 - -0.5 + 2 * 2.0)
          (-0.5 - 2.0) (1.7 + 2.0)) /\
  component_annotation chip_U1 two_parts chip_small two_parts_layout
    (placed_entry D1_on_pin5 3 1.5) =
  Some (normalize 3 1.5 0.8 0.4
          (4.6 - -0.5 + 2 * 2.0) (1.7 - -0.5 + 2 * 2.0)
          (-0.5 - 2.0) (1.7 + 2.0)).
Proof.
  assert (Hmodel : oc_model chip_U1 <> None) by discriminate.
  assert (Hpins : oc_pin_count chip_U1 <> None) by discriminate.
  split; [exact Hmodel | split; [exact Hpins |]].
  split; [exact two_parts_ids_known |].
  destruct (canvas_frame_and_normalization chip_U1 two_parts chip_small
              two_parts_layout Hmodel Hpins two_parts_ids_known)
    as (U & HU & _ & Hcanvas & _ & _ & Hchip & Hcomp).
  rewrite two_parts_overall_bbox in HU. injection HU as <-.
  split; [exact two_parts_overall_bbox | split; [exact Hcanvas |]].
  split; [exact Hchip | exact (Hcomp (placed_entry D1_on_pin5 3 1.5))].
Defined.

(** ** When the canvas exists, and what it encloses *)

(** X9.  The canvas exists exactly when the chip object has its model and
    its pin count and every id of the layout is an id of
    [component_info]; otherwise building the layout JSON raises.  A
    canvas that exists is at least 4 by 4, so the normalization does not
    divide by zero, and every edge of every entity box lies at least the
    margin 2.0 inside it. *)
Theorem canvas_encloses_entities_with_margin (original_chip : OriginalChip)
    (component_info : list (string * Component)) (chip : ChipInfo)
    (component_positions : list (string * Placed)) :
  (oc_model original_chip <> None ->
   oc_pin_count original_chip <> None ->
   ids_known component_info component_positions ->
   exists canvas : R * R * R * R,
     _calculate_canvas_size original_chip component_info chip
       component_positions = Some canvas) /\
  (_calculate_canvas_size original_chip component_info chip
     component_positions = None <->
   oc_model original_chip = None \/ oc_pin_count original_chip = None \/
   ~ ids_known component_info component_positions) /\
  forall canvas_w canvas_h origin_x origin_y : R,
    _calculate_canvas_size original_chip component_info chip
      component_positions =
    Some (canvas_w, canvas_h, origin_x, origin_y) ->
    4 <= canvas_w /\ 4 <= canvas_h /\
    (forall x y w h : R,
        _convert_to_yolo_format x y w h canvas_w canvas_h origin_x origin_y
        <> None) /\
    forall b : BBox,
      In b (entity_boxes chip component_positions) ->
      origin_x + 2 <= x_min b <= origin_x + canvas_w - 2 /\
      origin_x + 2 <= x_max b <= origin_x + canvas_w - 2 /\
      origin_y - canvas_h + 2 <= y_min b <= origin_y - 2 /\
      origin_y - canvas_h + 2 <= y_max b <= origin_y - 2.
Proof.
  split; [| split; [apply calculate_canvas_size_None |]].
  - intros Hmodel Hpins Hknown.
    destruct (calculate_canvas_size_known original_chip component_info chip
                component_positions Hmodel Hpins Hknown)
      as (U & _ & _ & Hcanvas).
    now exists (canvas_of U).
  - intros canvas_w canvas_h origin_x origin_y Hcanvas.
    destruct (calculate_canvas_size_Some _ _ _ _ _ Hcanvas)
      as (U & Hunion & Heq).
    pose proof (canvas_of_union U chip component_positions Hunion) as Hsize.
    rewrite <- Heq in Hsize. destruct Hsize as (Hw & Hh & Hinside).
    split; [exact Hw | split; [exact Hh | split; [| exact Hinside]]].
    intros x y w h. rewrite convert_to_yolo_format_normalize by lra.
    discriminate.
Qed.

(** The canvas of the resistor and the LED on the small chip is 9.1 by
    6.2 and keeps the chip's box 2 units inside; without the pin count of
    the chip there is no canvas. *)
Lemma canvas_encloses_entities_with_margin_witness :
  _calculate_canvas_size chip_without_pin_count two_parts chip_small
    two_parts_layout = None /\
  _calculate_canvas_size chip_U1 two_parts chip_small two_parts_layout =
  Some (9.1, 6.2, -2.5, 3.7) /\
  In (edges (chip_bbox chip_small)) (entity_boxes chip_small two_parts_layout)
  /\
  4 <= 9.1 /\
  -2.5 + 2 <= x_min (chip_bbox chip_small) <= -2.5 + 9.1 - 2.
Proof.
  assert (Hin : In (edges (chip_bbox chip_small))
                  (entity_boxes chip_small two_parts_layout)) by now left.
  split.
  - apply (proj1 (proj2 (canvas_encloses_entities_with_margin
                           chip_without_pin_count two_parts chip_small
                           two_parts_layout))).
    right; now left.
  - split; [exact two_parts_canvas | split; [exact Hin |]].
    destruct (proj2 (proj2 (canvas_encloses_entities_with_margin chip_U1
                              two_parts chip_small two_parts_layout))
                _ _ _ _ two_parts_canvas) as (Hw & _ & _ & Hinside).
    split; [exact Hw | exact (proj1 (Hinside _ Hin))].
Defined.

(** ** Annotations that are not clamped *)

(** X10.  When the chip object has its model and its pin count, a
    component of a resolved layout whose width and height are not
    negative is annotated without the clamp of the normalization firing:
    the annotation is [((x - origin_x)/canvas_w, (origin_y - y)/canvas_h,
    width/canvas_w, height/canvas_h)] itself, with the centre strictly
    inside (0, 1) and the sizes in [0, 1). *)
Theorem resolved_annotation_is_not_clamped (original_chip : OriginalChip)
    (component_info : list (string * Component)) (chip : ChipInfo)
    (layout : list (string * Placed)) (id : string) (p : Placed) :
  oc_model original_chip <> None ->
  oc_pin_count original_chip <> None ->
  detect_and_resolve_collisions component_info chip [] = Some layout ->
  In (id, p) layout ->
  0 <= p_width p -> 0 <= p_height p ->
  exists canvas_w canvas_h origin_x origin_y : R,
    _calculate_canvas_size original_chip component_info chip layout =
    Some (canvas_w, canvas_h, origin_x, origin_y) /\
    let cx := (fst (p_position p) - origin_x) / canvas_w in
    let cy := (origin_y - snd (p_position p)) / canvas_h in
    let w := p_width p / canvas_w in
    let h := p_height p / canvas_h in
    component_annotation original_chip component_info chip layout p =
    Some (cx, cy, w, h) /\
    0 < cx < 1 /\ 0 < cy < 1 /\ 0 <= w < 1 /\ 0 <= h < 1.
Proof.
  intros Hmodel Hpins Hrun Hin Hw Hh.
  destruct (calculate_canvas_size_known original_chip component_info chip
              layout Hmodel Hpins (resolved_ids_known _ _ _ Hrun))
    as (U & _ & Hunion & Hcanvas).
  pose proof (canvas_of_union U chip layout Hunion) as Hsize.
  unfold canvas_of in Hcanvas, Hsize. destruct Hsize as (_ & _ & Hinside).
  do 4 eexists. split; [exact Hcanvas |]. cbv zeta.
  assert (Hb : In (edges (p_bbox p)) (entity_boxes chip layout)).
  { right. apply in_map_iff. now exists (id, p). }
  destruct (Hinside _ Hb) as (Hx1 & Hx2 & Hy1 & Hy2).
  rewrite (resolved_bbox _ _ _ _ _ Hrun Hin) in Hx1, Hx2, Hy1, Hy2.
  unfold component_annotation. rewrite Hcanvas.
  destruct (p_position p) as [x y]. cbn [fst snd] in *.
  now apply normalize_inside.
Qed.

Lemma resolved_annotation_is_not_clamped_witness :
  oc_model chip_U1 <> None /\ oc_pin_count chip_U1 <> None /\
  detect_and_resolve_collisions two_parts chip_small [] =
  Some two_parts_layout /\
  In ("D1", placed_entry D1_on_pin5 3 1.5) two_parts_layout /\
  0 <= p_width (placed_entry D1_on_pin5 3 1.5) /\
  0 <= p_height (placed_entry D1_on_pin5 3 1.5) /\
  component_annotation chip_U1 two_parts chip_small two_parts_layout
    (placed_entry D1_on_pin5 3 1.5) =
  Some ((3 - -2.5) / 9.1, (3.7 - 1.5) / 6.2, 0.8 / 9.1, 0.4 / 6.2).
Proof.
  assert (Hmodel : oc_model chip_U1 <> None) by discriminate.
  assert (Hpins : oc_pin_count chip_U1 <> None) by discriminate.
  assert (Hw : 0 <= p_width (placed_entry D1_on_pin5 3 1.5)) by (cbn; lra).
  assert (Hh : 0 <= p_height (placed_entry D1_on_pin5 3 1.5)) by (cbn; lra).
  split; [exact Hmodel | split; [exact Hpins |]].
  split; [exact two_parts_resolved | split; [right; now left |]].
  split; [exact Hw | split; [exact Hh |]].
  destruct (resolved_annotation_is_not_clamped chip_U1 two_parts chip_small
              two_parts_layout "D1" (placed_entry D1_on_pin5 3 1.5)
              Hmodel Hpins two_parts_resolved
              (or_intror (or_introl eq_refl)) Hw Hh)
    as (cw & ch & ox & oy & Hcanvas & Hann & _).
  rewrite two_parts_canvas in Hcanvas. injection Hcanvas as <- <- <- <-.
  exact Hann.
Defined.

(** X21.  When the chip object has its model and its pin count and every
    id of the layout is known, a chip built by [get_chip_info] with a
    width and a height that are not negative is annotated without the
    clamp firing either: its annotation is [(-origin_x/canvas_w,
    origin_y/canvas_h, width/canvas_w, height/canvas_h)], with the centre
    strictly inside (0, 1) and the sizes in [0, 1). *)
Theorem chip_annotation_is_not_clamped (original_chip : OriginalChip)
    (component_info : list (string * Component)) (model : string)
    (chip_width chip_height : R)
    (component_positions : list (string * Placed)) :
  oc_model original_chip <> None ->
  oc_pin_count original_chip <> None ->
  ids_known component_info component_positions ->
  0 <= chip_width -> 0 <= chip_height ->
  let chip := get_chip_info model chip_width chip_height in
  exists canvas_w canvas_h origin_x origin_y : R,
    _calculate_canvas_size original_chip component_info chip
      component_positions =
    Some (canvas_w, canvas_h, origin_x, origin_y) /\
    let cx := (0 - origin_x) / canvas_w in
    let cy := (origin_y - 0) / canvas_h in
    let w := chip_width / canvas_w in
    let h := chip_height / canvas_h in
    chip_annotation original_chip component_info chip component_positions =
    Some (cx, cy, w, h) /\
    0 < cx < 1 /\ 0 < cy < 1 /\ 0 <= w < 1 /\ 0 <= h < 1.
Proof.
  intros Hmodel Hpins Hknown Hw Hh chip.
  destruct (calculate_canvas_size_known original_chip component_info chip
              component_positions Hmodel Hpins Hknown)
    as (U & _ & Hunion & Hcanvas).
  pose proof (canvas_of_union U chip component_positions Hunion) as Hsize.
  unfold canvas_of in Hcanvas, Hsize. destruct Hsize as (_ & _ & Hinside).
  do 4 eexists. split; [exact Hcanvas |]. cbv zeta.
  assert (Hb : In (edges (chip_bbox chip))
                 (entity_boxes chip component_positions)) by now left.
  destruct (Hinside _ Hb) as (Hx1 & Hx2 & Hy1 & Hy2).
  unfold chip_annotation. rewrite Hcanvas.
  subst chip. cbn in Hx1, Hx2, Hy1, Hy2.
  cbn [get_chip_info chip_position chip_bbox width height].
  apply normalize_inside; cbn; lra.
Qed.

Lemma chip_annotation_is_not_clamped_witness :
  oc_model chip_U1 <> None /\ oc_pin_count chip_U1 <> None /\
  ids_known two_parts two_parts_layout /\
  0 <= 1.0 /\
  chip_annotation chip_U1 two_parts chip_small two_parts_layout =
  Some ((0 - -2.5) / 9.1, (3.7 - 0) / 6.2, 1.0 / 9.1, 1.0 / 6.2).
Proof.
  assert (Hmodel : oc_model chip_U1 <> None) by discriminate.
  assert (Hpins : oc_pin_count chip_U1 <> None) by discriminate.
  assert (Hsize : 0 <= 1.0) by lra.
  split; [exact Hmodel | split; [exact Hpins |]].
  split; [exact two_parts_ids_known | split; [exact Hsize |]].
  destruct (chip_annotation_is_not_clamped chip_U1 two_parts "U1" 1.0 1.0
              two_parts_layout Hmodel Hpins two_parts_ids_known Hsize Hsize)
    as (cw & ch & ox & oy & Hcanvas & Hann & _).
  fold chip_small in Hcanvas, Hann.
  rewrite two_parts_canvas in Hcanvas. injection Hcanvas as <- <- <- <-.
  exact Hann.
Defined.
